(** * MareArts-VideoTools: the 16:9 compositor and the download wrapper

    A shallow embedding of [16_9_video_gen.py] and [download_youtube.py]
    and the properties of the frame compositor: the geometry of the 16:9
    canvas, the per-frame copy, the frame loop, and the handling of
    resources and errors; then those of the download wrapper: the size
    it prints, the format it picks, what it returns and what it asks of
    yt-dlp; and those of its [main], the command line and the
    interactive loop.

    Python floats are IEEE-754 binary64 numbers; they are modelled with
    the operations of [SpecFloat], so that [16 / 9], [height * target_ratio]
    and [int(...)] round and truncate as the interpreter does.  OpenCV,
    the operating system and yt-dlp are collaborators: what they deliver
    is a parameter of the model. *)

From Stdlib Require Import ZArith List Bool Lia String Ascii.
From Stdlib Require Import Strings.Byte.
From Stdlib Require Import Floats.SpecFloat.
Import ListNotations.
Local Open Scope Z_scope.

(** * Part I: the programs *)

(** ** Exceptions and results *)

(** The exception classes the two scripts can meet.  [KeyboardInterrupt]
    and [SystemExit] derive from [BaseException] only; the others derive
    from [Exception]. *)
Inductive exn : Type :=
| ZeroDivisionError
| OverflowError
| ValueError
| TypeError
| AttributeError
| OSError
| DownloadError
| KeyboardInterrupt
| SystemExit.

Inductive result (A : Type) : Type :=
| Ok (a : A)
| Raise (e : exn).
Arguments Ok {A} a.
Arguments Raise {A} e.

Definition bind {A B : Type} (r : result A) (k : A -> result B) : result B :=
  match r with
  | Ok a => k a
  | Raise e => Raise e
  end.

Notation "x <- r ;; k" := (bind r (fun x => k))
  (at level 61, r at next level, right associativity).

(** ** State and exceptions together *)

(** A statement that runs in a state [S]: it leaves a state behind whether
    it returns or raises. *)
Definition M (S A : Type) : Type := S -> result A * S.

Definition ret {S A : Type} (a : A) : M S A := fun s => (Ok a, s).

Definition lift {S A : Type} (r : result A) : M S A := fun s => (r, s).

Definition bindM {S A B : Type} (m : M S A) (k : A -> M S B) : M S B :=
  fun s =>
    match m s with
    | (Ok a, s') => k a s'
    | (Raise e, s') => (Raise e, s')
    end.

Notation "x <~ m ;; k" := (bindM m (fun x => k))
  (at level 61, m at next level, right associativity).

(** ** Python floats: IEEE-754 binary64 *)

Module PyFloat.

Definition prec : Z := 53.
Definition emax : Z := 1024.

(** [float(n)] for an int: the nearest double, ties to even;
    [OverflowError] when the int is too large. *)
Definition of_int (n : Z) : result spec_float :=
  match binary_normalize prec emax n 0 false with
  | S754_infinity _ => Raise OverflowError
  | f => Ok f
  end.

Definition is_zero (f : spec_float) : bool :=
  match f with
  | S754_zero _ => true
  | _ => false
  end.

(** [a / b] on two ints: the correctly rounded quotient.  It is computed
    as the quotient of the two doubles, which is that number whenever [a]
    and [b] are doubles themselves: every int below [2^53] in magnitude,
    and every int that [int(...)] read off a float, as the properties of
    the capture are. *)
Definition int_truediv (a b : Z) : result spec_float :=
  if b =? 0 then Raise ZeroDivisionError
  else
    x <- of_int a ;;
    y <- of_int b ;;
    Ok (SFdiv prec emax x y).

(** [n * f] with [n] an int and [f] a float. *)
Definition int_mul_float (n : Z) (f : spec_float) : result spec_float :=
  x <- of_int n ;;
  Ok (SFmul prec emax x f).

(** [n / f] with [n] an int and [f] a float. *)
Definition int_div_float (n : Z) (f : spec_float) : result spec_float :=
  x <- of_int n ;;
  if is_zero f then Raise ZeroDivisionError
  else Ok (SFdiv prec emax x f).

(** [f * n] with [f] a float and [n] an int. *)
Definition float_mul_int (f : spec_float) (n : Z) : result spec_float :=
  y <- of_int n ;;
  Ok (SFmul prec emax f y).

Definition ltb (x y : spec_float) : bool := SFltb x y.

(** [int(f)]: truncation toward zero. *)
Definition to_int (f : spec_float) : result Z :=
  match f with
  | S754_zero _ => Ok 0
  | S754_infinity _ => Raise OverflowError
  | S754_nan => Raise ValueError
  | S754_finite s m e =>
      let a := match e with
               | Z0 => Zpos m
               | Zpos p => Zpos m * 2 ^ Zpos p
               | Zneg p => Zpos m / 2 ^ Zpos p
               end in
      Ok (if s then - a else a)
  end.

End PyFloat.

(** ** The part of numpy the compositor uses *)

Module Numpy.

(** One BGR pixel of a [uint8] image. *)
Definition pixel : Type := (byte * byte * byte)%type.

Definition black : pixel := (x00, x00, x00).

(** An array of shape [(nd_rows, nd_cols, 3)], stored row by row. *)
Record ndarray : Type := {
  nd_rows : Z;
  nd_cols : Z;
  nd_data : list (list pixel)
}.

(** [np.zeros((rows, cols, 3), dtype=np.uint8)]. *)
Definition zeros (rows cols : Z) : result ndarray :=
  if (rows <? 0) || (cols <? 0) then Raise ValueError
  else Ok {| nd_rows := rows; nd_cols := cols;
             nd_data := repeat (repeat black (Z.to_nat cols)) (Z.to_nat rows) |}.

(** One bound of a slice [a:b] on an axis of length [len]: a negative
    bound counts from the end, and both are clipped to the axis. *)
Definition adjust (i len : Z) : Z :=
  if i <? 0 then Z.max 0 (i + len) else Z.min i len.

Definition slice_length (start stop len : Z) : Z :=
  Z.max 0 (adjust stop len - adjust start len).

(** Broadcasting along one axis: an axis of length one is repeated. *)
Definition stretch {A : Type} (n src_len : Z) (l : list A) : list A :=
  if src_len =? n then l
  else match l with
       | x :: _ => repeat x (Z.to_nat n)
       | [] => []
       end.

Definition broadcastable (n src_len : Z) : bool :=
  (src_len =? n) || (src_len =? 1).

Fixpoint overwrite_rows (c0 nc : nat) (dst src : list (list pixel))
  : list (list pixel) :=
  match dst, src with
  | drow :: dst', srow :: src' =>
      (firstn c0 drow ++ srow ++ skipn (c0 + nc) drow)
        :: overwrite_rows c0 nc dst' src'
  | _, _ => []
  end.

(** [canvas[r0:r1, c0:c1] = src]; [ValueError] when the shape of [src]
    cannot be broadcast to the shape of the slice. *)
Definition assign (canvas : ndarray) (r0 r1 c0 c1 : Z) (src : ndarray)
  : result ndarray :=
  let rs := adjust r0 (nd_rows canvas) in
  let nr := slice_length r0 r1 (nd_rows canvas) in
  let cs := adjust c0 (nd_cols canvas) in
  let nc := slice_length c0 c1 (nd_cols canvas) in
  if broadcastable nr (nd_rows src) && broadcastable nc (nd_cols src) then
    let rows :=
      stretch nr (nd_rows src)
        (map (stretch nc (nd_cols src)) (nd_data src)) in
    let d := nd_data canvas in
    Ok {| nd_rows := nd_rows canvas; nd_cols := nd_cols canvas;
          nd_data :=
            firstn (Z.to_nat rs) d
            ++ overwrite_rows (Z.to_nat cs) (Z.to_nat nc)
                 (firstn (Z.to_nat nr) (skipn (Z.to_nat rs) d)) rows
            ++ skipn (Z.to_nat rs + Z.to_nat nr) d |}
  else Raise ValueError.

End Numpy.

(** ** [16_9_video_gen.py] *)

Module Convert.
Import Numpy.

(** The four numbers fixed once per run. *)
Record geometry : Type := {
  new_width : Z;
  new_height : Z;
  h_padding : Z;
  v_padding : Z
}.

(** Line 28. *)
Definition target_ratio : result spec_float := PyFloat.int_truediv 16 9.

(** Lines 31-42. *)
Definition new_dimensions (width height : Z)
  (current_ratio target_ratio : spec_float) : result geometry :=
  if PyFloat.ltb current_ratio target_ratio then
    x <- PyFloat.int_mul_float height target_ratio ;;
    nw <- PyFloat.to_int x ;;
    Ok {| new_width := nw; new_height := height;
          h_padding := (nw - width) / 2; v_padding := 0 |}
  else
    y <- PyFloat.int_div_float width target_ratio ;;
    nh <- PyFloat.to_int y ;;
    Ok {| new_width := width; new_height := nh;
          h_padding := 0; v_padding := (nh - height) / 2 |}.

(** Lines 27-42. *)
Definition target_geometry (width height : Z) : result geometry :=
  current_ratio <- PyFloat.int_truediv width height ;;
  target_ratio <- target_ratio ;;
  new_dimensions width height current_ratio target_ratio.

(** Lines 62-65: a black canvas with the frame copied into it. *)
Definition composite (g : geometry) (width height : Z) (frame : ndarray)
  : result ndarray :=
  canvas <- zeros (new_height g) (new_width g) ;;
  assign canvas (v_padding g) (v_padding g + height)
    (h_padding g) (h_padding g + width) frame.

(** What [cv2.VideoCapture(input_video)] gives: whether it opened, the
    integer value of its properties, and the frames it will deliver. *)
Record capture : Type := {
  cap_opened : bool;
  prop_width : Z;
  prop_height : Z;
  prop_fps : spec_float;
  prop_frame_count : Z;
  cap_frames : list ndarray
}.

(** The [cv2.VideoWriter] and the frames passed to [write], oldest first. *)
Record writer : Type := {
  wr_path : string;
  wr_fourcc : string;
  wr_fps : spec_float;
  wr_size : Z * Z;
  wr_frames : list ndarray
}.

(** The lines the script prints, without their formatting. *)
Inductive message : Type :=
| MsgOpenError (input_video : string)
| MsgConverting
| MsgOriginal (width height : Z) (ratio : spec_float)
| MsgNew (width height : Z) (ratio : spec_float)
| MsgProgress (percentage : spec_float) (processed frame_count : Z)
| MsgComplete (output_video : string).

(** What a run leaves behind: the printed lines, the frames [cap.read()]
    has returned, the writer once it is constructed, and how often each
    [release] was called. *)
Record world : Type := {
  stdout : list message;
  delivered : list ndarray;
  sink : option writer;
  cap_released : nat;
  out_released : nat
}.

Definition initial : world :=
  {| stdout := []; delivered := []; sink := None;
     cap_released := 0; out_released := 0 |}.

Definition print (m : message) : M world unit :=
  fun w => (Ok tt,
    {| stdout := stdout w ++ [m]; delivered := delivered w; sink := sink w;
       cap_released := cap_released w; out_released := out_released w |}).

(** [cap.read()] returning [(True, frame)]. *)
Definition cap_deliver (frame : ndarray) : M world unit :=
  fun w => (Ok tt,
    {| stdout := stdout w; delivered := delivered w ++ [frame];
       sink := sink w;
       cap_released := cap_released w; out_released := out_released w |}).

(** [out = cv2.VideoWriter(path, fourcc, fps, size)]. *)
Definition out_open (path fourcc : string) (fps : spec_float) (size : Z * Z)
  : M world unit :=
  fun w => (Ok tt,
    {| stdout := stdout w; delivered := delivered w;
       sink := Some {| wr_path := path; wr_fourcc := fourcc; wr_fps := fps;
                       wr_size := size; wr_frames := [] |};
       cap_released := cap_released w; out_released := out_released w |}).

(** [out.write(canvas)]. *)
Definition out_write (canvas : ndarray) : M world unit :=
  fun w => (Ok tt,
    {| stdout := stdout w; delivered := delivered w;
       sink := match sink w with
               | Some o =>
                   Some {| wr_path := wr_path o; wr_fourcc := wr_fourcc o;
                           wr_fps := wr_fps o; wr_size := wr_size o;
                           wr_frames := wr_frames o ++ [canvas] |}
               | None => None
               end;
       cap_released := cap_released w; out_released := out_released w |}).

Definition cap_release : M world unit :=
  fun w => (Ok tt,
    {| stdout := stdout w; delivered := delivered w; sink := sink w;
       cap_released := S (cap_released w); out_released := out_released w |}).

Definition out_release : M world unit :=
  fun w => (Ok tt,
    {| stdout := stdout w; delivered := delivered w; sink := sink w;
       cap_released := cap_released w; out_released := S (out_released w) |}).

(** Lines 72-74. *)
Definition progress (processed_frames frame_count : Z) : M world unit :=
  if processed_frames mod 100 =? 0 then
    q <~ lift (PyFloat.int_truediv processed_frames frame_count) ;;
    percentage <~ lift (PyFloat.float_mul_int q 100) ;;
    print (MsgProgress percentage processed_frames frame_count)
  else ret tt.

(** Lines 56-74: one iteration per frame the capture still holds; on the
    empty list [cap.read()] returns [ret = False] and the loop breaks. *)
Fixpoint frame_loop (g : geometry) (width height frame_count : Z)
  (frames : list ndarray) (processed_frames : Z) : M world unit :=
  match frames with
  | [] => ret tt
  | frame :: rest =>
      _ <~ cap_deliver frame ;;
      canvas <~ lift (composite g width height frame) ;;
      _ <~ out_write canvas ;;
      let processed_frames := processed_frames + 1 in
      _ <~ progress processed_frames frame_count ;;
      frame_loop g width height frame_count rest processed_frames
  end.

(** Lines 6-79; [cap] is what [cv2.VideoCapture(input_video)] returned. *)
Definition convert_to_16_9 (cap : capture) (input_video output_video : string)
  : M world unit :=
  if negb (cap_opened cap) then
    print (MsgOpenError input_video)
  else
    let width := prop_width cap in
    let height := prop_height cap in
    let fps := prop_fps cap in
    let frame_count := prop_frame_count cap in
    current_ratio <~ lift (PyFloat.int_truediv width height) ;;
    target_ratio <~ lift target_ratio ;;
    g <~ lift (new_dimensions width height current_ratio target_ratio) ;;
    _ <~ out_open output_video "mp4v" fps (new_width g, new_height g) ;;
    _ <~ print MsgConverting ;;
    _ <~ print (MsgOriginal width height current_ratio) ;;
    new_ratio <~ lift (PyFloat.int_truediv (new_width g) (new_height g)) ;;
    _ <~ print (MsgNew (new_width g) (new_height g) new_ratio) ;;
    _ <~ frame_loop g width height frame_count (cap_frames cap) 0 ;;
    _ <~ cap_release ;;
    _ <~ out_release ;;
    print (MsgComplete output_video).

End Convert.

(** ** [download_youtube.py] *)

Module Download.

(** [e] is caught by [except Exception]. *)
Definition is_exception (e : exn) : bool :=
  match e with
  | KeyboardInterrupt | SystemExit => false
  | _ => true
  end.

(** The value stored under a key of a dictionary: absent, [None], or a
    value of the expected type. *)
Inductive field (A : Type) : Type :=
| Missing
| PyNone
| Val (a : A).
Arguments Missing {A}.
Arguments PyNone {A}.
Arguments Val {A} a.

(** [d.get(key, default)]; the result [None] is Python's [None]. *)
Definition get {A : Type} (f : field A) (default : option A) : option A :=
  match f with
  | Missing => default
  | PyNone => None
  | Val a => Some a
  end.

(** A format of yt-dlp: the three keys [download_video] reads, and
    whether the dictionary holds any other key. *)
Record format : Type := {
  vcodec : field string;
  height : field Z;
  filesize : field Z;
  other_keys : bool
}.

(** The key is in the dictionary, whatever its value. *)
Definition present {A : Type} (f : field A) : bool :=
  match f with
  | Missing => false
  | _ => true
  end.

(** [if f:] on a dictionary: it is not empty. *)
Definition truthy (f : format) : bool :=
  other_keys f || present (vcodec f) || present (height f)
  || present (filesize f).

Record info : Type := {
  title : field string;
  duration : field Z;
  formats : field (list format)
}.

Record options : Type := {
  outtmpl : string;
  merge_output_format : string;
  cookiesfrombrowser : option string
}.

(** The collaborators: the operating system and yt-dlp. *)
Record env : Type := {
  getcwd : result string;
  makedirs : string -> result unit;
  platform_system : string;
  ydl_enter : options -> result unit;
  extract_info : string -> result (option info);
  ydl_download : string -> result unit;
  ydl_exit : result unit
}.

Inductive message : Type :=
| MsgUsingCookies (browser : string)
| MsgFetching
| MsgVideoDetails
| MsgTitle (video_title : option string)
| MsgDuration (minutes seconds : Z)
| MsgBestQuality (height : field Z)
| MsgApproxSize (value : spec_float) (unit : string)
| MsgStarting
| MsgCompleted
| MsgSavedTo (output_file : string)
| MsgError (e : exn)
| MsgTroubleshooting.

Definition print (m : message) : M (list message) unit :=
  fun out => (Ok tt, out ++ [m]).

Fixpoint ends_with_slash (s : string) : bool :=
  match s with
  | EmptyString => false
  | String c EmptyString => Ascii.eqb c "/"
  | String _ s' => ends_with_slash s'
  end.

(** [os.path.join(a, p)] of [posixpath]. *)
Definition path_join (a p : string) : string :=
  if String.prefix "/" p then p
  else if String.eqb a EmptyString || ends_with_slash a then (a ++ p)%string
  else (a ++ "/" ++ p)%string.

(** [str(x)] inside an f-string, for a title. *)
Definition str_of (x : option string) : string :=
  match x with
  | Some s => s
  | None => "None"
  end.

(** [not x] for an argument that is [None] or a string. *)
Definition falsy (x : option string) : bool :=
  match x with
  | None => true
  | Some s => String.eqb s EmptyString
  end.

(** The value of an argument that is not [None]. *)
Definition value_or (x : option string) (default : string) : string :=
  match x with
  | Some s => s
  | None => default
  end.

(** The float [1024.0]. *)
Definition kilo : spec_float := S754_finite false 4503599627370496 (-42).

(** Lines 9-13 once [bytes] is a float: the units that remain. *)
Fixpoint format_size_units (units : list string) (bytes : spec_float)
  : spec_float * string :=
  match units with
  | [] => (bytes, "TB"%string)
  | unit :: rest =>
      if SFltb bytes kilo then (bytes, unit)
      else format_size_units rest (SFdiv PyFloat.prec PyFloat.emax bytes kilo)
  end.

(** Lines 7-13: the number to print with two decimals, and its unit.
    The first division is on ints and goes through their doubles, as
    [PyFloat.int_truediv] does: it is the division of Python for every
    size below [2^53] bytes; a size of [2^1024] bytes or more raises
    [OverflowError] here, where Python still divides. *)
Definition format_size (bytes : Z) : result (spec_float * string) :=
  if bytes <? 1024 then
    b <- PyFloat.of_int bytes ;; Ok (b, "B"%string)
  else
    b <- PyFloat.int_truediv bytes 1024 ;;
    Ok (format_size_units ["KB"; "MB"; "GB"]%string b).

(** Lines 15-23. *)
Definition get_browser_cookie_path (e : env) : string :=
  if String.eqb (platform_system e) "Windows" then "chrome"
  else if String.eqb (platform_system e) "Darwin" then "safari"
  else "chrome".

(** [x > y] on two values that are [None] or an int. *)
Definition value_gt (x y : option Z) : result bool :=
  match x, y with
  | Some a, Some b => Ok (b <? a)
  | _, _ => Raise TypeError
  end.

Definition value_eqb (x y : option Z) : bool :=
  match x, y with
  | Some a, Some b => a =? b
  | None, None => true
  | _, _ => false
  end.

(** [a > b] on two pairs. *)
Definition pair_gt (a b : option Z * option Z) : result bool :=
  if value_eqb (fst a) (fst b) then
    if value_eqb (snd a) (snd b) then Ok false
    else value_gt (snd a) (snd b)
  else value_gt (fst a) (fst b).

Definition quality_key (f : format) : option Z * option Z :=
  (get (height f) (Some 0), get (filesize f) (Some 0)).

Fixpoint max_from (best : format) (l : list format) : result format :=
  match l with
  | [] => Ok best
  | f :: l' =>
      gt <- pair_gt (quality_key f) (quality_key best) ;;
      max_from (if gt then f else best) l'
  end.

(** Lines 79-86: [max(..., key=..., default=None)]. *)
Definition best_format (l : list format) : result (option format) :=
  let candidates :=
    filter (fun f => match get (vcodec f) None with
                     | Some c => negb (String.eqb c "none")
                     | None => true
                     end) l in
  match candidates with
  | [] => Ok None
  | f :: l' => b <- max_from f l' ;; Ok (Some b)
  end.

(** The [with] statement: [__exit__] runs however the body ends, and an
    exception of [__exit__] replaces the outcome of the body. *)
Definition with_exit {A : Type} (exit : result unit)
  (body : M (list message) A) : M (list message) A :=
  fun out =>
    let '(r, out') := body out in
    match exit with
    | Ok _ => (r, out')
    | Raise e => (Raise e, out')
    end.

(** Lines 73-107, inside the [with]. *)
Definition session (e : env) (url output_path : string)
  : M (list message) string :=
  i <~ lift (extract_info e url) ;;
  i <~ lift (match i with
             | Some i => Ok i
             | None => Raise AttributeError
             end) ;;
  let video_title := get (title i) (Some "video"%string) in
  let duration := get (duration i) None in
  fs <~ lift (match get (formats i) (Some []) with
              | Some fs => Ok fs
              | None => Raise TypeError
              end) ;;
  best_video <~ lift (best_format fs) ;;
  _ <~ print MsgVideoDetails ;;
  _ <~ print (MsgTitle video_title) ;;
  d <~ lift (match duration with
             | Some d => Ok d
             | None => Raise TypeError
             end) ;;
  _ <~ print (MsgDuration (d / 60) (d mod 60)) ;;
  _ <~ match best_video with
       | Some b =>
           if truthy b then
             _ <~ print (MsgBestQuality (height b)) ;;
             match filesize b with
             | Val z =>
                 if z =? 0 then ret tt
                 else
                   s <~ lift (format_size z) ;;
                   print (MsgApproxSize (fst s) (snd s))
             | _ => ret tt
             end
           else ret tt
       | None => ret tt
       end ;;
  _ <~ print MsgStarting ;;
  _ <~ lift (ydl_download e url) ;;
  let output_file := path_join output_path (str_of video_title ++ ".mp4") in
  _ <~ print MsgCompleted ;;
  _ <~ print (MsgSavedTo output_file) ;;
  ret output_file.

(** Lines 36-107: the body of the [try]. *)
Definition attempt (e : env) (url : string) (output_path : option string)
  (use_cookies : bool) (browser : option string) : M (list message) string :=
  output_path <~ (if falsy output_path then lift (getcwd e)
                  else ret (value_or output_path EmptyString)) ;;
  _ <~ lift (makedirs e output_path) ;;
  cookies <~ (if use_cookies then
                let browser :=
                  if falsy browser then get_browser_cookie_path e
                  else value_or browser EmptyString in
                _ <~ print (MsgUsingCookies browser) ;;
                ret (Some browser)
              else ret None) ;;
  let ydl_opts :=
    {| outtmpl := path_join output_path "%(title)s.%(ext)s";
       merge_output_format := "mp4";
       cookiesfrombrowser := cookies |} in
  _ <~ print MsgFetching ;;
  _ <~ lift (ydl_enter e ydl_opts) ;;
  with_exit (ydl_exit e) (session e url output_path).

(** Lines 25-123. *)
Definition download_video (e : env) (url : string)
  (output_path : option string) (use_cookies : bool)
  (browser : option string) : M (list message) string :=
  fun out =>
    match attempt e url output_path use_cookies browser out with
    | (Ok output_file, out') => (Ok output_file, out')
    | (Raise x, out') =>
        if is_exception x
        then (Ok EmptyString, out' ++ [MsgError x; MsgTroubleshooting])
        else (Raise x, out')
    end.

End Download.

(** ** [main] of [download_youtube.py] *)

Module Main.
Import Download.

(** The lines typed are strings of code points below 256; [isspace] and
    [lower_char] are Python's [str.isspace] and [str.lower] on these:
    the white space is 9 to 13, 28 to 32, 133 and 160; the capitals are
    65 to 90 and 192 to 222 without 215, each 32 below its small
    letter. *)
Definition isspace (c : ascii) : bool :=
  let n := N_of_ascii c in
  ((9 <=? n) && (n <=? 13) || (28 <=? n) && (n <=? 32)
   || (n =? 133) || (n =? 160))%N.

Definition lower_char (c : ascii) : ascii :=
  let n := N_of_ascii c in
  if ((65 <=? n) && (n <=? 90) || (192 <=? n) && (n <=? 214)
      || (216 <=? n) && (n <=? 222))%N
  then ascii_of_N (n + 32)
  else c.

(** [s.lower()]. *)
Fixpoint lower (s : string) : string :=
  match s with
  | EmptyString => EmptyString
  | String c s' => String (lower_char c) (lower s')
  end.

Fixpoint lstrip (s : string) : string :=
  match s with
  | EmptyString => EmptyString
  | String c s' => if isspace c then lstrip s' else s
  end.

Fixpoint rstrip (s : string) : string :=
  match s with
  | EmptyString => EmptyString
  | String c s' =>
      match rstrip s' with
      | EmptyString => if isspace c then EmptyString else String c EmptyString
      | r => String c r
      end
  end.

(** [s.strip()]. *)
Definition strip (s : string) : string := rstrip (lstrip s).

(** What [parser.parse_args()] returns. *)
Record args : Type := {
  arg_url : option string;
  arg_output : option string;
  arg_no_cookies : bool;
  arg_browser : option string
}.

(** One call of [download_video]. *)
Record call : Type := {
  call_url : string;
  call_output_path : option string;
  call_use_cookies : bool;
  call_browser : option string
}.

Inductive prompt : Type :=
| AskUrl
| AskPrivate
| AskBrowser
| AskOutput
| AskAnother.

(** What appears on the terminal: the four lines of the banner (lines
    129-132), a prompt of [input], [Goodbye!], the request for a valid
    URL, the seven lines of the browser menu (lines 169-175), and the
    lines of [download_video]. *)
Inductive event : Type :=
| Banner
| Ask (p : prompt)
| Goodbye
| InvalidUrl
| BrowserMenu
| Downloader (m : message).

(** The terminal: the lines still to be typed, what was shown, and the
    calls of [download_video] made so far. *)
Record console : Type := {
  stdin : list string;
  shown : list event;
  calls : list call
}.

(** What ends [main] early: the end of the input, or an exception that
    [download_video] let through. *)
Inductive raised : Type :=
| EOFError
| Propagated (e : exn).

Definition R (A : Type) : Type := console -> (A + raised) * console.

Definition pure {A : Type} (a : A) : R A := fun c => (inl a, c).

Definition bindR {A B : Type} (m : R A) (k : A -> R B) : R B :=
  fun c =>
    match m c with
    | (inl a, c') => k a c'
    | (inr x, c') => (inr x, c')
    end.

Notation "x <-- m ;; k" := (bindR m (fun x => k))
  (at level 61, m at next level, right associativity).

Definition say (e : event) : R unit :=
  fun c => (inl tt, {| stdin := stdin c; shown := shown c ++ [e];
                       calls := calls c |}).

(** [input(prompt)]. *)
Definition input (p : prompt) : R string :=
  fun c =>
    match stdin c with
    | [] => (inr EOFError, {| stdin := []; shown := shown c ++ [Ask p];
                              calls := calls c |})
    | line :: rest =>
        (inl line, {| stdin := rest; shown := shown c ++ [Ask p];
                      calls := calls c |})
    end.

(** A call of [download_video]; [envs n] is what the system and yt-dlp do
    during call number [n].  The value returned is dropped, as [main]
    drops it. *)
Definition run_download (envs : nat -> env) (url : string)
  (output_path : option string) (use_cookies : bool)
  (browser : option string) : R unit :=
  fun c =>
    let '(r, out) :=
      download_video (envs (List.length (calls c))) url output_path
        use_cookies browser [] in
    let c' := {| stdin := stdin c;
                 shown := shown c ++ map Downloader out;
                 calls := calls c ++ [{| call_url := url;
                                         call_output_path := output_path;
                                         call_use_cookies := use_cookies;
                                         call_browser := browser |}] |} in
    match r with
    | Ok _ => (inl tt, c')
    | Raise e => (inr (Propagated e), c')
    end.

(** Lines 181-188: [browsers.get(browser_num, 'chrome')]. *)
Definition browser_of (browser_num : string) : string :=
  if String.eqb browser_num "1" then "chrome"
  else if String.eqb browser_num "2" then "firefox"
  else if String.eqb browser_num "3" then "safari"
  else if String.eqb browser_num "4" then "edge"
  else if String.eqb browser_num "5" then "opera"
  else "chrome".

Inductive flow : Type :=
| Continue
| Break.

(** Lines 154-199: one turn of the interactive loop. *)
Definition turn (envs : nat -> env) : R flow :=
  line <-- input AskUrl ;;
  let url := strip line in
  if String.eqb (lower url) "q" then
    _ <-- say Goodbye ;; pure Break
  else if String.eqb url EmptyString then
    _ <-- say InvalidUrl ;; pure Continue
  else
    line <-- input AskPrivate ;;
    let auth_choice := lower (strip line) in
    choice <--
      (if String.eqb auth_choice "y" then
         _ <-- say BrowserMenu ;;
         line <-- input AskBrowser ;;
         let browser_num := strip line in
         if String.eqb browser_num "6" then pure (false, None)
         else pure (true, Some (browser_of browser_num))
       else pure (true, None)) ;;
    line <-- input AskOutput ;;
    let output_dir := strip line in
    let output_dir :=
      if String.eqb output_dir EmptyString then None else Some output_dir in
    _ <-- run_download envs url output_dir (fst choice) (snd choice) ;;
    line <-- input AskAnother ;;
    if String.eqb (lower (strip line)) "y" then pure Continue
    else _ <-- say Goodbye ;; pure Break.

(** Lines 153-199: [while True], for as many turns as [fuel] allows;
    [None] when the fuel runs out. *)
Fixpoint interactive (envs : nat -> env) (fuel : nat) (c : console)
  : option ((unit + raised) * console) :=
  match fuel with
  | O => None
  | S fuel' =>
      match turn envs c with
      | (inl Continue, c') => interactive envs fuel' c'
      | (inl Break, c') => Some (inl tt, c')
      | (inr x, c') => Some (inr x, c')
      end
  end.

(** Lines 125-199; [a] is what [parser.parse_args()] returned and [typed]
    the lines [input] will read.  Every turn reads a line, so one more
    turn than there are lines is enough. *)
Definition main (envs : nat -> env) (a : args) (typed : list string)
  : option ((unit + raised) * console) :=
  let c := {| stdin := typed; shown := [Banner]; calls := [] |} in
  if negb (falsy (arg_url a)) then
    Some (run_download envs (value_or (arg_url a) EmptyString)
            (arg_output a) (negb (arg_no_cookies a)) (arg_browser a) c)
  else interactive envs (S (List.length typed)) c.

End Main.

(** * Part II: the vocabulary of the properties *)

(** ** Rounding to binary64

    [rne_div N D] is the integer nearest to [N / D], ties to even: with the
    right scaling it is the mantissa [SFdiv] and [SFmul] produce. *)

Module Rounding.

(** The integer nearest to [N / D], ties to even ([0 <= N], [0 < D]). *)
Definition rne_div (N D : Z) : Z :=
  let q := N / D in
  let r := N mod D in
  match 2 * r ?= D with
  | Lt => q
  | Gt => q + 1
  | Eq => if Z.even q then q else q + 1
  end.

(** [mrs] is [N / D] truncated, with the round bit and the sticky bit of
    the part cut off: [rho / D] is that part, the round bit says whether
    it reaches one half, the sticky bit whether it is neither zero nor
    one half. *)
Definition located (mrs : shr_record) (N D : Z) : Prop :=
  0 < D /\ 0 <= shr_m mrs /\
  let rho := N - shr_m mrs * D in
  0 <= rho < D /\
  shr_r mrs = (D <=? 2 * rho) /\
  shr_s mrs = negb ((rho =? 0) || (2 * rho =? D)).

(** The positive double of mantissa [m] in [[2^52, 2^53]] and exponent [e];
    a mantissa rounded up to [2^53] moves to the next binade. *)
Definition renorm (m e : Z) : spec_float :=
  if m =? 2 ^ 53 then S754_finite false (Z.to_pos (2 ^ 52)) (e + 1)
  else S754_finite false (Z.to_pos m) e.

(** The mantissa of the double that holds the integer [n] exactly. *)
Definition canon (n : Z) : Z := n * 2 ^ (53 - Zdigits2 n).

(** The mantissa of the double [16 / 9], that is [(2^56 - 4) / 9]: the
    double lies just below the fraction. *)
Definition mantissa_16_9 : Z := 8006399337547548.

End Rounding.

Module ConvertSpec.
Import Numpy Convert.

(** The dimension rule on integers. *)
Definition floor_geometry (width height : Z) : geometry :=
  if 9 * width <? 16 * height then
    {| new_width := 16 * height / 9; new_height := height;
       h_padding := (16 * height / 9 - width) / 2; v_padding := 0 |}
  else
    {| new_width := width; new_height := 9 * width / 16;
       h_padding := 0; v_padding := (9 * width / 16 - height) / 2 |}.

(** The frame, centred on a black canvas: the composited picture as the
    specification describes it. *)
Definition letterbox (g : geometry) (width height : Z) (frame : ndarray) : ndarray :=
  let blank := repeat black (Z.to_nat (new_width g)) in
  {| nd_rows := new_height g;
     nd_cols := new_width g;
     nd_data :=
       repeat blank (Z.to_nat (v_padding g))
       ++ map (fun row =>
                 repeat black (Z.to_nat (h_padding g))
                 ++ row
                 ++ repeat black (Z.to_nat (new_width g - h_padding g - width)))
              (nd_data frame)
       ++ repeat blank (Z.to_nat (new_height g - v_padding g - height)) |}.

(** A frame as the decoder delivers it for a [rows] by [cols] stream. *)
Definition has_shape (rows cols : Z) (a : ndarray) : Prop :=
  nd_rows a = rows /\ nd_cols a = cols /\
  List.length (nd_data a) = Z.to_nat rows /\
  Forall (fun r => List.length r = Z.to_nat cols) (nd_data a).

(** The pixel in row [i], column [j] (both counted from zero). *)
Definition pixel_at (a : ndarray) (i j : Z) : option pixel :=
  if (i <? 0) || (j <? 0) then None
  else match nth_error (nd_data a) (Z.to_nat i) with
       | Some row => nth_error row (Z.to_nat j)
       | None => None
       end.

(** Row [i], column [j] of the canvas lies in the rectangle of the frame. *)
Definition in_region (g : geometry) (width height i j : Z) : bool :=
  (v_padding g <=? i) && (i <? v_padding g + height)
  && (h_padding g <=? j) && (j <? h_padding g + width).

(** The canvas [c] holds [frame] at the offsets of [g] and black elsewhere. *)
Definition composited (g : geometry) (width height : Z) (frame c : ndarray) : Prop :=
  nd_rows c = new_height g /\ nd_cols c = new_width g /\
  forall i j, 0 <= i < new_height g -> 0 <= j < new_width g ->
    pixel_at c i j =
    if in_region g width height i j
    then pixel_at frame (i - v_padding g) (j - h_padding g)
    else Some black.

(** The writer [o] after [l] more frames were written. *)
Definition add_frames (o : writer) (l : list ndarray) : writer :=
  {| wr_path := wr_path o; wr_fourcc := wr_fourcc o; wr_fps := wr_fps o;
     wr_size := wr_size o; wr_frames := wr_frames o ++ l |}.

(** The parts of the world that only the set-up and the tear-down touch. *)
Definition same_resources (w w' : world) : Prop :=
  cap_released w' = cap_released w /\ out_released w' = out_released w /\
  (sink w = None <-> sink w' = None).

(** The world when the frame loop starts (lines 45-53). *)
Definition started (cap : capture) (output_video : string) (g : geometry)
  (current_ratio new_ratio : spec_float) : world :=
  {| stdout := [MsgConverting;
                MsgOriginal (prop_width cap) (prop_height cap) current_ratio;
                MsgNew (new_width g) (new_height g) new_ratio];
     delivered := [];
     sink := Some {| wr_path := output_video; wr_fourcc := "mp4v";
                     wr_fps := prop_fps cap;
                     wr_size := (new_width g, new_height g);
                     wr_frames := [] |};
     cap_released := 0; out_released := 0 |}.

(** Lines 76-79 after a loop that ended in world [w]. *)
Definition finished (output_video : string) (w : world) : world :=
  {| stdout := stdout w ++ [MsgComplete output_video];
     delivered := delivered w; sink := sink w;
     cap_released := S (cap_released w);
     out_released := S (out_released w) |}.

End ConvertSpec.

Module Samples.
Import Numpy Convert.

(** A one-colour frame, for the concrete runs below. *)
Definition flat_frame (width height : Z) (p : pixel) : ndarray :=
  {| nd_rows := height; nd_cols := width;
     nd_data := repeat (repeat p (Z.to_nat width)) (Z.to_nat height) |}.

(** A 16 by 9 source at 30 frames per second that reports [frame_count]
    frames and delivers [n]. *)
Definition sample_capture (frame_count : Z) (n : nat) : capture :=
  {| cap_opened := true; prop_width := 16; prop_height := 9;
     prop_fps := S754_finite false 8444249301319680 (-48);
     prop_frame_count := frame_count;
     cap_frames := repeat (flat_frame 16 9 (x10, x20, x30)) n |}.

(** A source that failed to open. *)
Definition closed_capture : capture :=
  {| cap_opened := false; prop_width := 0; prop_height := 0;
     prop_fps := S754_zero false; prop_frame_count := 0; cap_frames := [] |}.

End Samples.

Module DownloadSamples.
Import Download.

(** What yt-dlp reports for a two-minute clip. *)
Definition sample_info : info :=
  {| title := Val "clip"%string; duration := Val 125;
     formats := Val [ {| vcodec := Val "avc1"%string; height := Val 1080;
                         filesize := Val 123456789; other_keys := true |};
                      {| vcodec := Val "none"%string; height := Missing;
                         filesize := Val 1000; other_keys := true |} ] |}.

(** A session in which the user interrupts the transfer. *)
Definition interrupted : env :=
  {| getcwd := Ok "/home/user"%string;
     makedirs := fun _ => Ok tt;
     platform_system := "Linux"%string;
     ydl_enter := fun _ => Ok tt;
     extract_info := fun _ => Ok (Some sample_info);
     ydl_download := fun _ => Raise KeyboardInterrupt;
     ydl_exit := Ok tt |}.

End DownloadSamples.

(** ** Vocabulary of the run reports *)

Module RunSpec.
Import Numpy Convert Samples.

(** The frame numbers of a stream of [n] frames after which a progress
    line is due: [100], [200], ... up to [n]. *)
Definition hundreds (n : nat) : list Z :=
  map (fun k => 100 * Z.of_nat k) (seq 1 (n / 100)).

(** [m] is the progress line for frame number [p]. *)
Definition progress_line (frame_count : Z) (m : message) (p : Z) : Prop :=
  exists percentage, m = MsgProgress percentage p frame_count.

(** A frame that numpy cannot broadcast into a [height] by [width] slice:
    an axis that is neither of the length of the slice nor of length one. *)
Definition misshaped (width height : Z) (frame : ndarray) : Prop :=
  (nd_rows frame <> height /\ nd_rows frame <> 1) \/
  (nd_cols frame <> width /\ nd_cols frame <> 1).

(** A 16 by 9 source whose second frame is 20 by 12. *)
Definition mixed_capture : capture :=
  {| cap_opened := true; prop_width := 16; prop_height := 9;
     prop_fps := S754_finite false 8444249301319680 (-48);
     prop_frame_count := 3;
     cap_frames := [flat_frame 16 9 (x10, x20, x30);
                    flat_frame 20 12 (x10, x20, x30);
                    flat_frame 16 9 (x10, x20, x30)] |}.

(** A frame of one colour that tells its number [k] (below 256). *)
Definition numbered_frame (width height : Z) (k : nat) : ndarray :=
  flat_frame width height
    (match Byte.of_nat k with Some b => b | None => x00 end, x20, x30).

(** A 12 by 9 source at 30 frames per second that reports [frame_count]
    frames and delivers [n], numbered from 0: the canvas is 16 by 9,
    with two columns of black on either side. *)
Definition narrow_capture (frame_count : Z) (n : nat) : capture :=
  {| cap_opened := true; prop_width := 12; prop_height := 9;
     prop_fps := S754_finite false 8444249301319680 (-48);
     prop_frame_count := frame_count;
     cap_frames := map (numbered_frame 12 9) (seq 0 n) |}.

(** A source that opens and reports a height of zero. *)
Definition flat_capture : capture :=
  {| cap_opened := true; prop_width := 16; prop_height := 0;
     prop_fps := S754_zero false; prop_frame_count := 0; cap_frames := [] |}.

End RunSpec.

(** ** Vocabulary of the download wrapper *)

Module DownloadSpec.
Import Download DownloadSamples.

(** [v] is the number [num / den], without rounding. *)
Definition exact_quotient (v : spec_float) (num den : Z) : Prop :=
  match v with
  | S754_zero _ => num = 0
  | S754_finite false m e =>
      if e <? 0 then Zpos m * den = num * 2 ^ (- e)
      else Zpos m * 2 ^ e * den = num
  | _ => False
  end.

(** The place, in [B, KB, MB, GB, TB], of the unit of a size of [bytes]
    bytes. *)
Definition size_rank (bytes : Z) : nat :=
  if bytes <? 2 ^ 10 then 0
  else if bytes <? 2 ^ 20 then 1
  else if bytes <? 2 ^ 30 then 2
  else if bytes <? 2 ^ 40 then 3
  else 4.

(** The formats that take part in the choice of line 80: those whose
    [vcodec] is not the string ['none']. *)
Definition is_video (f : format) : bool :=
  match get (vcodec f) None with
  | Some c => negb (String.eqb c "none")
  | None => true
  end.

(** The number a key of a format stands for when it is absent or an int. *)
Definition number (x : field Z) : Z :=
  match x with
  | Val z => z
  | _ => 0
  end.

(** [f] ranks below [g]: a smaller height, or the same height and a
    smaller file size. *)
Definition ranks_below (f g : format) : Prop :=
  number (height f) < number (height g) \/
  number (height f) = number (height g) /\
  number (filesize f) < number (filesize g).

(** Neither key of the format is [None]. *)
Definition keys_are_numbers (f : format) : Prop :=
  height f <> PyNone /\ filesize f <> PyNone.

(** The height of the format is [None]. *)
Definition null_height (f : format) : bool :=
  match height f with
  | PyNone => true
  | _ => false
  end.

(** [e] with another [ydl.download]. *)
Definition with_download (e : env) (d : string -> result unit) : env :=
  {| getcwd := getcwd e; makedirs := makedirs e;
     platform_system := platform_system e; ydl_enter := ydl_enter e;
     extract_info := extract_info e; ydl_download := d;
     ydl_exit := ydl_exit e |}.

(** [e] with another [yt_dlp.YoutubeDL(ydl_opts)]. *)
Definition with_enter (e : env) (enter : options -> result unit) : env :=
  {| getcwd := getcwd e; makedirs := makedirs e;
     platform_system := platform_system e; ydl_enter := enter;
     extract_info := extract_info e; ydl_download := ydl_download e;
     ydl_exit := ydl_exit e |}.

Definition ends_with (s suffix : string) : Prop :=
  exists pre, s = (pre ++ suffix)%string.

(** The browser whose cookies a call asks yt-dlp to read: none without
    cookies; the browser named, when one is; otherwise Safari on macOS
    and Chrome elsewhere. *)
Definition chosen_browser (platform : string) (use_cookies : bool)
  (browser : option string) : option string :=
  if use_cookies then
    match browser with
    | Some (String c b) => Some (String c b)
    | _ => Some (if String.eqb platform "Darwin" then "safari" else "chrome")%string
    end
  else None.

(** Nothing stands in the way of the download: the directory is given,
    or the current one is known; it can be created; yt-dlp accepts the
    options, knows the video, its duration and its formats, of which no
    candidate has a height or a size of [None] or a size of [2^53]
    bytes or more, and downloads it; and leaving the [with] block
    raises nothing.  [dir] is the directory and [i] what yt-dlp knows. *)
Definition everything_works (e : env) (url : string)
  (output_path : option string) (use_cookies : bool)
  (browser : option string) (dir : string) (i : info) : Prop :=
  (falsy output_path = true /\ getcwd e = Ok dir \/
   falsy output_path = false /\ output_path = Some dir) /\
  makedirs e dir = Ok tt /\
  ydl_enter e
    {| outtmpl := path_join dir "%(title)s.%(ext)s";
       merge_output_format := "mp4";
       cookiesfrombrowser :=
         chosen_browser (platform_system e) use_cookies browser |} = Ok tt /\
  extract_info e url = Ok (Some i) /\
  (exists d, get (duration i) None = Some d) /\
  (exists fs, get (formats i) (Some []) = Some fs /\
     Forall (fun f => is_video f = true ->
               keys_are_numbers f /\ 0 <= number (filesize f) < 2 ^ 53) fs) /\
  ydl_download e url = Ok tt /\
  ydl_exit e = Ok tt.

(** A session in which everything works. *)
Definition online : env :=
  {| getcwd := Ok "/home/user"%string;
     makedirs := fun _ => Ok tt;
     platform_system := "Linux"%string;
     ydl_enter := fun _ => Ok tt;
     extract_info := fun _ => Ok (Some sample_info);
     ydl_download := fun _ => Ok tt;
     ydl_exit := Ok tt |}.

(** What yt-dlp reports for a live stream: no duration. *)
Definition live_info : info :=
  {| title := Val "live"%string; duration := PyNone;
     formats := Val [ {| vcodec := Val "avc1"%string; height := Val 720;
                         filesize := Missing; other_keys := true |} ] |}.

Definition live : env :=
  {| getcwd := Ok "/home/user"%string;
     makedirs := fun _ => Ok tt;
     platform_system := "Linux"%string;
     ydl_enter := fun _ => Ok tt;
     extract_info := fun _ => Ok (Some live_info);
     ydl_download := fun _ => Ok tt;
     ydl_exit := Ok tt |}.

(** A yt-dlp that can read the cookies of Chrome only. *)
Definition chrome_only (o : options) : result unit :=
  match cookiesfrombrowser o with
  | Some b => if String.eqb b "chrome" then Ok tt else Raise DownloadError
  | None => Raise DownloadError
  end.

(** Four formats: the third is the first of the two best. *)
Definition sample_formats : list format :=
  [ {| vcodec := Val "avc1"%string; height := Val 720;
       filesize := Val 100; other_keys := true |};
    {| vcodec := Val "none"%string; height := Missing;
       filesize := Val 1000; other_keys := true |};
    {| vcodec := Val "vp9"%string; height := Val 1080;
       filesize := Missing; other_keys := true |};
    {| vcodec := Val "avc1"%string; height := Val 1080;
       filesize := Val 0; other_keys := true |} ].

(** Two video formats, one with a height of [None]. *)
Definition null_format : format :=
  {| vcodec := Val "avc1"%string; height := PyNone;
     filesize := Missing; other_keys := true |}.

Definition sized_format : format :=
  {| vcodec := Val "avc1"%string; height := Val 720;
     filesize := Missing; other_keys := true |}.

End DownloadSpec.

(** ** Vocabulary of [main] *)

Module MainSpec.
Import Download Main.

(** The browsers of the menu. *)
Definition menu_browsers : list string :=
  ["chrome"; "firefox"; "safari"; "edge"; "opera"]%string.

(** A call as the interactive loop makes it: the URL is a stripped line
    that is neither empty nor [q]; the directory is [None] or not empty;
    without cookies no browser is named; a browser named is one of the
    menu. *)
Definition interactive_call (k : call) : Prop :=
  (exists line, call_url k = strip line) /\
  call_url k <> EmptyString /\
  lower (call_url k) <> "q"%string /\
  call_output_path k <> Some EmptyString /\
  (call_use_cookies k = false -> call_browser k = None) /\
  (forall b, call_browser k = Some b -> In b menu_browsers).

(** What one turn of the loop, started on the terminal [c], leaves
    behind when it ends as [r] on the terminal [c']. *)
Record turn_effect (c : console) (r : flow + raised) (c' : console) : Prop := {
  te_stdin : (List.length (stdin c') <= List.length (stdin c))%nat;
  te_continue : r = inl Continue ->
                (List.length (stdin c') < List.length (stdin c))%nat;
  te_shown : exists more, shown c' = shown c ++ more;
  te_break : r = inl Break -> exists pre, shown c' = pre ++ [Goodbye];
  te_calls : calls c' = calls c \/
             exists k, calls c' = calls c ++ [k] /\ interactive_call k;
  te_eof : r = inr EOFError -> stdin c' = [];
  te_raise : forall e, r = inr (Propagated e) -> is_exception e = false
}.

(** The script started without arguments. *)
Definition no_arguments : args :=
  {| arg_url := None; arg_output := None; arg_no_cookies := false;
     arg_browser := None |}.

(** The script started with a URL, a directory and [--no-cookies]. *)
Definition url_arguments : args :=
  {| arg_url := Some "https://youtu.be/x"%string;
     arg_output := Some "/tmp"%string; arg_no_cookies := true;
     arg_browser := None |}.

End MainSpec.

(** * Part III: the properties *)

Import Numpy Convert Rounding ConvertSpec Samples.

(** ** Binary64 arithmetic *)

(** Settle a comparison on integers that [lia] can decide. *)
Ltac cmp_true c :=
  replace c with true
    by (symmetry; first [apply Z.ltb_lt | apply Z.leb_le | apply Z.eqb_eq]; lia).

Ltac cmp_false c :=
  replace c with false
    by (symmetry; first [apply Z.ltb_ge | apply Z.leb_gt | apply Z.eqb_neq]; lia).

Lemma digits2_pos_size p : digits2_pos p = Pos.size p.
Proof. induction p; simpl; congruence. Qed.

Lemma Zdigits2_bounds m : 0 < m ->
  2 ^ (Zdigits2 m - 1) <= m < 2 ^ Zdigits2 m.
Proof.
  destruct m as [|p|p]; try lia. intros _. simpl Zdigits2.
  rewrite digits2_pos_size.
  pose proof (Pos.size_gt p) as Hgt. pose proof (Pos.size_le p) as Hle.
  split.
  - assert (H : 2 ^ Zpos (Pos.size p) <= 2 * Zpos p).
    { change (2 ^ Zpos (Pos.size p)) with (Zpos 2 ^ Zpos (Pos.size p)).
      rewrite <- Pos2Z.inj_pow. change (2 * Zpos p) with (Zpos (p~0)).
      apply Pos2Z.pos_le_pos. exact Hle. }
    replace (Zpos (Pos.size p)) with (Z.succ (Zpos (Pos.size p) - 1)) in H by lia.
    rewrite Z.pow_succ_r in H by lia. lia.
  - change (2 ^ Zpos (Pos.size p)) with (Zpos 2 ^ Zpos (Pos.size p)).
    rewrite <- Pos2Z.inj_pow. apply Pos2Z.pos_lt_pos. exact Hgt.
Qed.

Lemma Zdigits2_unique m d : 0 < m -> 2 ^ (d - 1) <= m < 2 ^ d -> Zdigits2 m = d.
Proof.
  intros Hm [Hlo Hhi].
  pose proof (Zdigits2_bounds m Hm) as [Hlo' Hhi'].
  assert (Hd : 0 < d).
  { destruct (Z.ltb_spec 0 d) as [|Hle]; auto.
    destruct (Z.eq_dec d 0) as [-> | Hne]; [simpl in Hhi; lia|].
    rewrite Z.pow_neg_r in Hhi by lia. lia. }
  assert (Hd' : 0 < Zdigits2 m).
  { destruct m; simpl; lia. }
  destruct (Z.lt_trichotomy (Zdigits2 m) d) as [H | [H | H]]; auto.
  - assert (2 ^ Zdigits2 m <= 2 ^ (d - 1)) by (apply Z.pow_le_mono_r; lia). lia.
  - assert (2 ^ d <= 2 ^ (Zdigits2 m - 1)) by (apply Z.pow_le_mono_r; lia). lia.
Qed.

(** One step of the right shift halves the scale and keeps the bits right. *)
Lemma shr_1_located mrs N D : located mrs N D -> located (shr_1 mrs) N (2 * D).
Proof.
  destruct mrs as [m r s]. intros H.
  assert (Hcases : shr_1 {| shr_m := m; shr_r := r; shr_s := s |} =
          {| shr_m := Z.div2 m; shr_r := Z.odd m; shr_s := r || s |}).
  { destruct H as (_ & Hm & _). simpl in Hm.
    destruct m as [|[p|p|]|p]; try lia; reflexivity. }
  rewrite Z.div2_div in Hcases. rewrite Hcases. clear Hcases.
  revert H. unfold located. cbn [shr_m shr_r shr_s].
  intros (HD & Hm & Hrho & Hr & Hs).
  pose proof (Z.div_mod m 2 ltac:(lia)) as Hdm.
  pose proof (Z.mod_pos_bound m 2 ltac:(lia)) as Hmb.
  rewrite Zodd_mod.
  assert (Hq : 0 <= m / 2) by (apply Z.div_pos; lia).
  split; [lia|]. split; [lia|].
  destruct (Z.eqb_spec (m mod 2) 1) as [H1 | H1].
  - split; [nia|]. split.
    + symmetry. apply Z.leb_le. nia.
    + subst r s. 
      destruct (Z.leb_spec D (2 * (N - m * D))); destruct (Z.eqb_spec (N - m * D) 0);
      destruct (Z.eqb_spec (2 * (N - m * D)) D);
      destruct (Z.eqb_spec (N - m / 2 * (2 * D)) 0);
      destruct (Z.eqb_spec (2 * (N - m / 2 * (2 * D))) (2 * D)); simpl; try reflexivity; try nia.
  - split; [nia|]. split.
    + symmetry. apply Z.leb_gt. nia.
    + subst r s. 
      destruct (Z.leb_spec D (2 * (N - m * D))); destruct (Z.eqb_spec (N - m * D) 0);
      destruct (Z.eqb_spec (2 * (N - m * D)) D);
      destruct (Z.eqb_spec (N - m / 2 * (2 * D)) 0);
      destruct (Z.eqb_spec (2 * (N - m / 2 * (2 * D))) (2 * D)); simpl; try reflexivity; try nia.
Qed.

Lemma iter_pos_iter {A} (f : A -> A) p x : iter_pos f p x = Pos.iter f x p.
Proof.
  revert x. induction p; intros x; simpl.
  - rewrite !IHp. rewrite !Pos.iter_swap. reflexivity.
  - rewrite !IHp. reflexivity.
  - reflexivity.
Qed.

Lemma shr_iter_located p mrs N D :
  located mrs N D -> located (iter_pos shr_1 p mrs) N (2 ^ Zpos p * D).
Proof.
  intros H. rewrite iter_pos_iter.
  induction p using Pos.peano_ind.
  - simpl. apply shr_1_located in H. exact H.
  - rewrite Pos.iter_succ. rewrite Pos2Z.inj_succ, Z.pow_succ_r by lia.
    apply shr_1_located in IHp. rewrite <- Z.mul_assoc. exact IHp.
Qed.

Lemma located_div mrs N D : located mrs N D -> shr_m mrs = N / D.
Proof.
  intros (HD & Hm & Hrho & _).
  apply Z.div_unique with (r := N - shr_m mrs * D); lia.
Qed.

(** Rounding on the round and sticky bits is rounding the quotient. *)
Lemma located_rne mrs N D :
  located mrs N D ->
  round_nearest_even (shr_m mrs) (loc_of_shr_record mrs) = rne_div N D.
Proof.
  intros H. pose proof (located_div _ _ _ H) as Hq.
  destruct H as (HD & Hm & Hrho & Hr & Hs).
  unfold rne_div.
  assert (Hmod : N mod D = N - shr_m mrs * D).
  { symmetry. apply Z.mod_unique with (q := shr_m mrs); lia. }
  rewrite Hmod, <- Hq. cbv zeta in Hrho, Hr, Hs.
  destruct mrs as [m r s]; cbn [shr_m shr_r shr_s] in *.
  set (rho := N - m * D) in *.
  destruct (Z.compare_spec (2 * rho) D) as [He | Hl | Hg].
  - assert (Hr' : r = true) by (rewrite Hr; apply Z.leb_le; lia).
    assert (Hs' : s = false).
    { rewrite Hs. cmp_true (2 * rho =? D).
      apply negb_false_iff, orb_true_r. }
    rewrite Hr', Hs'. reflexivity.
  - assert (Hr' : r = false) by (rewrite Hr; apply Z.leb_gt; lia).
    rewrite Hr'. destruct s; reflexivity.
  - assert (Hr' : r = true) by (rewrite Hr; apply Z.leb_le; lia).
    assert (Hs' : s = true).
    { rewrite Hs. cmp_false (2 * rho =? D).
      cmp_false (rho =? 0). reflexivity. }
    rewrite Hr', Hs'. reflexivity.
Qed.

Lemma located_exact m : 0 <= m -> located (shr_record_of_loc m loc_Exact) m 1.
Proof.
  intros Hm. unfold located; cbn [shr_m shr_r shr_s shr_record_of_loc].
  repeat split; lia.
Qed.

(** The location [SFdiv] attaches to its integer quotient. *)
Lemma located_new_location N D :
  0 <= N -> 0 < D ->
  located (shr_record_of_loc (N / D) (new_location D (N mod D))) N D.
Proof.
  intros HN HD.
  pose proof (Z.div_mod N D ltac:(lia)) as Hdm.
  pose proof (Z.mod_pos_bound N D HD) as Hmb.
  assert (Hq : 0 <= N / D) by (apply Z.div_pos; lia).
  assert (Hrho : N - N / D * D = N mod D) by lia.
  unfold new_location, new_location_even, new_location_odd.
  destruct (Z.even D) eqn:Hev.
  - destruct (Z.eqb_spec (N mod D) 0) as [H0 | H0].
    + unfold located; cbn [shr_m shr_r shr_s shr_record_of_loc].
      rewrite Hrho. repeat split; lia.
    + destruct (Z.compare_spec (2 * (N mod D)) D) as [He | Hl | Hg];
        unfold located; cbn [shr_m shr_r shr_s shr_record_of_loc];
        rewrite Hrho; repeat split; lia.
  - assert (Hodd : D mod 2 = 1).
    { rewrite Zeven_mod in Hev. pose proof (Z.mod_pos_bound D 2 ltac:(lia)). lia. }
    assert (Hne : 2 * (N mod D) <> D).
    { intros He. rewrite <- He in Hodd. rewrite Z.mul_comm, Z.mod_mul in Hodd; lia. }
    destruct (Z.eqb_spec (N mod D) 0) as [H0 | H0].
    + unfold located; cbn [shr_m shr_r shr_s shr_record_of_loc].
      rewrite Hrho. repeat split; lia.
    + destruct (Z.compare_spec (2 * (N mod D) + 1) D) as [He | Hl | Hg];
        unfold located; cbn [shr_m shr_r shr_s shr_record_of_loc];
        rewrite Hrho; repeat split; lia.
Qed.

Lemma rne_div_range N D : 0 < D -> N / D <= rne_div N D <= N / D + 1.
Proof.
  intros HD. unfold rne_div.
  destruct (2 * (N mod D) ?= D); try destruct (Z.even (N / D)); lia.
Qed.

Lemma fexp_normal e : -1074 <= e - 53 -> fexp 53 1024 e = e - 53.
Proof. intros H. unfold fexp, emin. lia. Qed.

Lemma shr_located mrs e n N D :
  located mrs N D -> 0 <= n ->
  located (fst (shr mrs e n)) N (2 ^ n * D) /\ snd (shr mrs e n) = e + n.
Proof.
  intros H Hn. destruct n as [|p|p]; try lia; simpl shr; cbn [fst snd].
  - split; [|lia]. rewrite Z.pow_0_r, Z.mul_1_l. exact H.
  - split; [|reflexivity]. apply shr_iter_located. exact H.
Qed.

(** The rounding step of every operation: a truncated mantissa of [53 + n]
    bits, in the normal range, becomes the nearest 53-bit mantissa. *)
Lemma binary_round_aux_rne mx ex lx N D n :
  located (shr_record_of_loc mx lx) N D ->
  0 <= n -> 2 ^ (52 + n) <= mx < 2 ^ (53 + n) ->
  -1074 <= ex + n -> ex + n + 1 <= 971 ->
  binary_round_aux 53 1024 false mx ex lx = renorm (rne_div N (2 ^ n * D)) (ex + n).
Proof.
  intros Hloc Hn Hmx Hlo Hhi.
  assert (Hpos : 0 < mx).
  { assert (0 < 2 ^ (52 + n)) by (apply Z.pow_pos_nonneg; lia). lia. }
  assert (Hdig : Zdigits2 mx = 53 + n).
  { apply Zdigits2_unique; auto. replace (53 + n - 1) with (52 + n) by lia. exact Hmx. }
  unfold binary_round_aux, shr_fexp.
  rewrite Hdig, fexp_normal by lia.
  replace (53 + n + ex - 53 - ex) with n by lia.
  destruct (shr_located _ ex n _ _ Hloc Hn) as [Hloc1 He1].
  destruct (shr (shr_record_of_loc mx lx) ex n) as [mrs1 e1]. cbn [fst snd] in Hloc1, He1.
  subst e1. rewrite (located_rne _ _ _ Hloc1).
  assert (HD : 0 < D) by (destruct Hloc as (HD & _); exact HD).
  assert (H2n : 0 < 2 ^ n) by (apply Z.pow_pos_nonneg; lia).
  assert (Hq : 2 ^ 52 <= N / (2 ^ n * D) < 2 ^ 53).
  { destruct Hloc as (_ & _ & Hrho & _). cbv zeta in Hrho.
    assert (Hsm : shr_m (shr_record_of_loc mx lx) = mx).
    { destruct lx as [|[]]; reflexivity. }
    rewrite Hsm in Hrho.
    rewrite !Z.pow_add_r in Hmx by lia.
    split.
    - apply Z.div_le_lower_bound; nia.
    - apply Z.div_lt_upper_bound; nia. }
  pose proof (rne_div_range N (2 ^ n * D) ltac:(nia)) as Hr.
  set (mr := rne_div N (2 ^ n * D)) in *.
  unfold renorm.
  destruct (Z.eqb_spec mr (2 ^ 53)) as [Heq | Hne].
  - rewrite Heq. change (Zdigits2 (2 ^ 53)) with 54.
    rewrite fexp_normal by lia.
    replace (54 + (ex + n) - 53 - (ex + n)) with 1 by lia.
    cbn [shr shr_record_of_loc iter_pos shr_1 shr_m].
    change (2 ^ 53) with 9007199254740992. cbn [shr_1 shr_m].
    cmp_true (ex + n + 1 <=? 1024 - 53).
    reflexivity.
  - assert (Hdig2 : Zdigits2 mr = 53).
    { apply Zdigits2_unique; lia. }
    rewrite Hdig2, fexp_normal by lia.
    replace (53 + (ex + n) - 53 - (ex + n)) with 0 by lia.
    cbn [shr shr_record_of_loc shr_m].
    destruct mr as [|p|p] eqn:Emr; try lia.
    cmp_true (ex + n <=? 1024 - 53).
    reflexivity.
Qed.

Lemma rne_div_1 N : rne_div N 1 = N.
Proof.
  unfold rne_div. rewrite Z.mod_1_r, Z.div_1_r. reflexivity.
Qed.

Lemma renorm_small m e : 0 < m < 2 ^ 53 -> renorm m e = S754_finite false (Z.to_pos m) e.
Proof.
  intros H. unfold renorm. destruct (Z.eqb_spec m (2 ^ 53)); [lia | reflexivity].
Qed.

Lemma iter_xO_pow p k : Zpos (Pos.iter xO p k) = Zpos p * 2 ^ Zpos k.
Proof.
  induction k using Pos.peano_ind.
  - simpl. lia.
  - rewrite Pos.iter_succ, Pos2Z.inj_xO, IHk, Pos2Z.inj_succ, Z.pow_succ_r by lia. lia.
Qed.

Lemma canon_range n : 0 < n < 2 ^ 53 -> 2 ^ 52 <= canon n < 2 ^ 53.
Proof.
  intros Hn. unfold canon.
  pose proof (Zdigits2_bounds n ltac:(lia)) as [Hlo Hhi].
  assert (Hd : 0 < Zdigits2 n) by (destruct n; simpl; lia).
  assert (Hd53 : Zdigits2 n <= 53).
  { destruct (Z.leb_spec (Zdigits2 n) 53); auto.
    assert (2 ^ 53 <= 2 ^ (Zdigits2 n - 1)) by (apply Z.pow_le_mono_r; lia). lia. }
  assert (E52 : 2 ^ 52 = 2 ^ (Zdigits2 n - 1) * 2 ^ (53 - Zdigits2 n)).
  { rewrite <- Z.pow_add_r by lia. f_equal. lia. }
  assert (E53 : 2 ^ 53 = 2 ^ (Zdigits2 n) * 2 ^ (53 - Zdigits2 n)).
  { rewrite <- Z.pow_add_r by lia. f_equal. lia. }
  assert (0 < 2 ^ (53 - Zdigits2 n)) by (apply Z.pow_pos_nonneg; lia).
  rewrite E52, E53. split; nia.
Qed.

(** Integers below [2^53] convert exactly. *)
Lemma binary_normalize_int n :
  0 < n < 2 ^ 53 ->
  binary_normalize 53 1024 n 0 false =
  S754_finite false (Z.to_pos (canon n)) (Zdigits2 n - 53).
Proof.
  intros Hn. pose proof (canon_range n Hn) as Hc.
  pose proof (Zdigits2_bounds n ltac:(lia)) as [Hlo Hhi].
  assert (Hd : 0 < Zdigits2 n) by (destruct n; simpl; lia).
  assert (Hd53 : Zdigits2 n <= 53).
  { destruct (Z.leb_spec (Zdigits2 n) 53); auto.
    assert (2 ^ 53 <= 2 ^ (Zdigits2 n - 1)) by (apply Z.pow_le_mono_r; lia). lia. }
  destruct n as [|p|p]; try lia.
  unfold binary_normalize, binary_round.
  change (Zpos (digits2_pos p)) with (Zdigits2 (Zpos p)).
  rewrite fexp_normal by lia. rewrite Z.add_0_r.
  assert (Hal : shl_align p 0 (Zdigits2 (Zpos p) - 53) =
                (Z.to_pos (canon (Zpos p)), Zdigits2 (Zpos p) - 53)).
  { unfold shl_align, canon. rewrite Z.sub_0_r.
    destruct (Zdigits2 (Zpos p) - 53) as [|q|q] eqn:E; try lia.
    - replace (53 - Zdigits2 (Zpos p)) with 0 by lia.
      rewrite Z.pow_0_r, Z.mul_1_r. reflexivity.
    - replace (53 - Zdigits2 (Zpos p)) with (Zpos q) by lia.
      rewrite <- iter_xO_pow. reflexivity. }
  rewrite Hal.
  rewrite (binary_round_aux_rne _ _ _ (canon (Zpos p)) 1 0).
  - rewrite Z.pow_0_r, Z.mul_1_l, rne_div_1, Z.add_0_r.
    apply renorm_small. lia.
  - rewrite Z2Pos.id by lia. apply located_exact. lia.
  - lia.
  - rewrite Z2Pos.id by lia. rewrite !Z.add_0_r. exact Hc.
  - lia.
  - lia.
Qed.

(** Division of two positive normal doubles. *)
Lemma SFdiv_canonical m1 e1 m2 e2 :
  2 ^ 52 <= Zpos m1 < 2 ^ 53 -> 2 ^ 52 <= Zpos m2 < 2 ^ 53 ->
  -1074 <= e1 - e2 - 53 -> e1 - e2 <= 1022 ->
  let n := if Zpos m1 <? Zpos m2 then 0 else 1 in
  SFdiv 53 1024 (S754_finite false m1 e1) (S754_finite false m2 e2) =
  renorm (rne_div (Zpos m1 * 2 ^ 53) (2 ^ n * Zpos m2)) (e1 - e2 - 53 + n).
Proof.
  intros H1 H2 Hlo Hhi n.
  unfold SFdiv, SFdiv_core_binary.
  rewrite (Zdigits2_unique (Zpos m1) 53), (Zdigits2_unique (Zpos m2) 53) by lia.
  rewrite fexp_normal by lia.
  replace (Z.min (53 + e1 - (53 + e2) - 53) (e1 - e2)) with (e1 - e2 - 53) by lia.
  replace (e1 - e2 - (e1 - e2 - 53)) with 53 by lia.
  cbv iota. rewrite Z.shiftl_mul_pow2 by lia.
  set (N := Zpos m1 * 2 ^ 53).
  change (Z.div_eucl N (Zpos m2)) with (Z.div_eucl N (Zpos m2)).
  assert (Hde : Z.div_eucl N (Zpos m2) = (N / Zpos m2, N mod Zpos m2)).
  { unfold Z.div, Z.modulo. destruct (Z.div_eucl N (Zpos m2)); reflexivity. }
  rewrite Hde. cbn [xorb].
  apply binary_round_aux_rne.
  - apply located_new_location; subst N; lia.
  - subst n. destruct (Zpos m1 <? Zpos m2); lia.
  - subst n N. destruct (Z.ltb_spec (Zpos m1) (Zpos m2)).
    + rewrite Z.add_0_r. split.
      * apply Z.div_le_lower_bound; lia.
      * apply Z.div_lt_upper_bound; lia.
    + change (52 + 1) with 53. change (53 + 1) with 54. split.
      * apply Z.div_le_lower_bound; lia.
      * apply Z.div_lt_upper_bound; lia.
  - subst n. destruct (Zpos m1 <? Zpos m2); lia.
  - subst n. destruct (Zpos m1 <? Zpos m2); lia.
Qed.

(** Multiplication of two positive normal doubles. *)
Lemma SFmul_canonical m1 e1 m2 e2 :
  2 ^ 52 <= Zpos m1 < 2 ^ 53 -> 2 ^ 52 <= Zpos m2 < 2 ^ 53 ->
  -1074 <= e1 + e2 + 52 -> e1 + e2 + 54 <= 971 ->
  let n := if Zpos m1 * Zpos m2 <? 2 ^ 105 then 52 else 53 in
  SFmul 53 1024 (S754_finite false m1 e1) (S754_finite false m2 e2) =
  renorm (rne_div (Zpos m1 * Zpos m2) (2 ^ n)) (e1 + e2 + n).
Proof.
  intros H1 H2 Hlo Hhi n.
  unfold SFmul. cbn [xorb]. rewrite Pos2Z.inj_mul.
  rewrite (binary_round_aux_rne _ _ _ (Zpos m1 * Zpos m2) 1 n).
  - rewrite Z.mul_1_r. reflexivity.
  - apply located_exact. lia.
  - subst n. destruct (Zpos m1 * Zpos m2 <? 2 ^ 105); lia.
  - subst n. destruct (Z.ltb_spec (Zpos m1 * Zpos m2) (2 ^ 105)).
    + change (52 + 52) with 104. change (53 + 52) with 105. split; [|lia].
      change (2 ^ 104) with (2 ^ 52 * 2 ^ 52). nia.
    + change (52 + 53) with 105. change (53 + 53) with 106. split; [lia|].
      change (2 ^ 106) with (2 ^ 53 * 2 ^ 53). nia.
  - subst n. destruct (Zpos m1 * Zpos m2 <? 2 ^ 105); lia.
  - subst n. destruct (Zpos m1 * Zpos m2 <? 2 ^ 105); lia.
Qed.

(** Rounding is monotone against integers, and keeps an even integer at
    half a unit below. *)
Lemma rne_div_lower c N D : 0 < D -> c * D <= N -> c <= rne_div N D.
Proof.
  intros HD H. pose proof (rne_div_range N D HD).
  assert (c <= N / D) by (apply Z.div_le_lower_bound; lia). lia.
Qed.

Lemma rne_div_upper c N D : 0 < D -> N <= c * D -> rne_div N D <= c.
Proof.
  intros HD H. unfold rne_div.
  pose proof (Z.div_mod N D ltac:(lia)) as Hdm.
  pose proof (Z.mod_pos_bound N D HD) as Hmb.
  assert (Hq : N / D <= c) by (apply Z.div_le_upper_bound; lia).
  destruct (Z.eq_dec (N / D) c) as [E | E].
  - assert (N mod D = 0) by nia.
    replace (2 * (N mod D) ?= D) with Lt by (symmetry; apply Z.compare_lt_iff; lia). lia.
  - destruct (2 * (N mod D) ?= D); try destruct (Z.even (N / D)); lia.
Qed.

Lemma rne_div_lower_half c N D :
  0 < D -> Z.even c = true -> (2 * c - 1) * D <= 2 * N -> c <= rne_div N D.
Proof.
  intros HD Hev H. unfold rne_div.
  pose proof (Z.div_mod N D ltac:(lia)) as Hdm.
  pose proof (Z.mod_pos_bound N D HD) as Hmb.
  assert (Hc : c <= N / D + 1) by nia.
  destruct (Z.eq_dec c (N / D + 1)) as [E | E].
  - assert (HDr : D <= 2 * (N mod D)) by nia.
    destruct (Z.compare_spec (2 * (N mod D)) D); try lia.
    destruct (Z.even (N / D)) eqn:Eq; try lia.
    rewrite E in Hev. rewrite Z.even_add in Hev. rewrite Eq in Hev. discriminate.
  - destruct (2 * (N mod D) ?= D); try destruct (Z.even (N / D)); lia.
Qed.

(** Truncation of a double with a negative exponent. *)
Lemma to_int_renorm m e :
  2 ^ 52 <= m <= 2 ^ 53 -> e < 0 ->
  PyFloat.to_int (renorm m e) = Ok (m / 2 ^ (- e)).
Proof.
  intros Hm He. unfold renorm.
  destruct (Z.eqb_spec m (2 ^ 53)) as [E | E].
  - subst m. unfold PyFloat.to_int.
    destruct (e + 1) as [|p|p] eqn:E1; try lia.
    + replace (- e) with 1 by lia. reflexivity.
    + f_equal. replace (- e) with (1 + Zpos p) by lia.
      rewrite Z.pow_add_r by lia. rewrite <- Z.div_div by lia. reflexivity.
  - unfold PyFloat.to_int. destruct e as [|p|p]; try lia.
    rewrite Z2Pos.id by lia. reflexivity.
Qed.

Lemma target_ratio_value :
  target_ratio = Ok (S754_finite false (Z.to_pos mantissa_16_9) (-52)).
Proof. vm_compute. reflexivity. Qed.

Lemma SFltb_finite_pos a ea b eb :
  SFltb (S754_finite false a ea) (S754_finite false b eb) =
  (ea <? eb) || ((ea =? eb) && (Zpos a <? Zpos b)).
Proof.
  unfold SFltb, SFcompare.
  destruct (Z.compare_spec ea eb); destruct (Z.ltb_spec ea eb);
    destruct (Z.eqb_spec ea eb); try lia; reflexivity.
Qed.

Lemma ltb_renorm m e :
  2 ^ 52 <= m <= 2 ^ 53 ->
  PyFloat.ltb (renorm m e) (S754_finite false (Z.to_pos mantissa_16_9) (-52)) =
  (e <? -52) || ((e =? -52) && (m <? mantissa_16_9)).
Proof.
  intros Hm. unfold renorm, PyFloat.ltb.
  assert (HT : 2 ^ 52 < mantissa_16_9 < 2 ^ 53) by (unfold mantissa_16_9; lia).
  destruct (Z.eqb_spec m (2 ^ 53)) as [E | E];
    rewrite SFltb_finite_pos, !Z2Pos.id by lia.
  - destruct (Z.ltb_spec (e + 1) (-52)); destruct (Z.eqb_spec (e + 1) (-52));
      destruct (Z.ltb_spec (2 ^ 52) mantissa_16_9); destruct (Z.ltb_spec e (-52));
      destruct (Z.eqb_spec e (-52)); destruct (Z.ltb_spec m mantissa_16_9);
      cbn [orb andb]; try reflexivity; lia.
  - reflexivity.
Qed.

Lemma of_int_small n :
  0 < n < 2 ^ 53 ->
  PyFloat.of_int n = Ok (S754_finite false (Z.to_pos (canon n)) (Zdigits2 n - 53)).
Proof.
  intros Hn. unfold PyFloat.of_int, PyFloat.prec, PyFloat.emax.
  rewrite binary_normalize_int by exact Hn. reflexivity.
Qed.

(** ** The three float computations of the dimension rule *)

Lemma Zdigits2_small n : 0 < n < 2 ^ 31 -> 1 <= Zdigits2 n <= 31.
Proof.
  intros Hn. pose proof (Zdigits2_bounds n ltac:(lia)) as [Hlo Hhi].
  assert (Hd : 0 < Zdigits2 n) by (destruct n; simpl; lia).
  split; [lia|].
  destruct (Z.leb_spec (Zdigits2 n) 31); auto.
  assert (2 ^ 31 <= 2 ^ (Zdigits2 n - 1)) by (apply Z.pow_le_mono_r; lia). lia.
Qed.

Lemma pow2_split a b : 0 <= a <= b -> 2 ^ b = 2 ^ a * 2 ^ (b - a) /\ 1 <= 2 ^ (b - a).
Proof.
  intros H. split.
  - rewrite <- Z.pow_add_r by lia. f_equal. lia.
  - assert (0 < 2 ^ (b - a)) by (apply Z.pow_pos_nonneg; lia). lia.
Qed.

Lemma pow2_ge a k : 0 <= k <= a -> 2 ^ k <= 2 ^ a.
Proof. intros H. apply Z.pow_le_mono_r; lia. Qed.

(** [int(w / target_ratio)] is the integer quotient [9w / 16]. *)
Lemma div_target_trunc w :
  0 < w < 2 ^ 31 ->
  (y <- PyFloat.int_div_float w (S754_finite false (Z.to_pos mantissa_16_9) (-52)) ;;
   PyFloat.to_int y) = Ok (9 * w / 16).
Proof.
  intros Hw.
  pose proof (Zdigits2_small w Hw) as Hd.
  pose proof (canon_range w ltac:(lia)) as Hc.
  unfold PyFloat.int_div_float. rewrite of_int_small by lia.
  cbn [bind PyFloat.is_zero]. unfold PyFloat.prec, PyFloat.emax.
  assert (HT : 2 ^ 52 < mantissa_16_9 < 2 ^ 53) by (unfold mantissa_16_9; lia).
  rewrite SFdiv_canonical; rewrite ?Z2Pos.id; try lia.
  set (d := Zdigits2 w) in *.
  assert (HA : canon w = w * 2 ^ (53 - d)) by reflexivity.
  set (A := 2 ^ (53 - d)) in *.
  assert (HA22 : 2 ^ 22 <= A) by (apply pow2_ge; lia).
  set (F := 9 * w / 16).
  assert (HF : 16 * F <= 9 * w <= 16 * F + 15).
  { pose proof (Z.div_mod (9 * w) 16 ltac:(lia)).
    pose proof (Z.mod_pos_bound (9 * w) 16 ltac:(lia)). subst F. lia. }
  assert (H9T : 9 * mantissa_16_9 = 2 ^ 56 - 4) by reflexivity.
  assert (Hlow : F * mantissa_16_9 <= w * 2 ^ 52) by lia.
  assert (Hupp : 2 ^ 48 <= (F + 1) * mantissa_16_9 - w * 2 ^ 52) by lia.
  rewrite HA in *.
  destruct (Z.ltb_spec (w * A) mantissa_16_9) as [Hn | Hn].
  - (* one-bit quotient shift: n = 0 *)
    set (mr := rne_div (w * A * 2 ^ 53) (2 ^ 0 * mantissa_16_9)).
    assert (HK : 2 ^ (- (d - 53 - -52 - 53 + 0)) = 2 * A).
    { subst A. replace (- (d - 53 - -52 - 53 + 0)) with (1 + (53 - d)) by lia.
      rewrite Z.pow_add_r by lia. reflexivity. }
    assert (Hlo : F * (2 * A) <= mr).
    { apply rne_div_lower; [lia|]. rewrite Z.pow_0_r. nia. }
    assert (Hhi : mr <= (F + 1) * (2 * A) - 1).
    { apply rne_div_upper; [lia|]. rewrite Z.pow_0_r. nia. }
    rewrite to_int_renorm; try lia.
    + f_equal. rewrite HK. symmetry.
      apply Z.div_unique with (r := mr - F * (2 * A)); lia.
    + split.
      * apply rne_div_lower; [lia|]. rewrite Z.pow_0_r. nia.
      * apply rne_div_upper; [lia|]. rewrite Z.pow_0_r. nia.
  - set (mr := rne_div (w * A * 2 ^ 53) (2 ^ 1 * mantissa_16_9)).
    assert (HK : 2 ^ (- (d - 53 - -52 - 53 + 1)) = A).
    { subst A. f_equal. lia. }
    assert (Hlo : F * A <= mr).
    { apply rne_div_lower; [lia|]. rewrite Z.pow_1_r. nia. }
    assert (Hhi : mr <= (F + 1) * A - 1).
    { apply rne_div_upper; [lia|]. rewrite Z.pow_1_r. nia. }
    rewrite to_int_renorm; try lia.
    + f_equal. rewrite HK. symmetry.
      apply Z.div_unique with (r := mr - F * A); lia.
    + split.
      * apply rne_div_lower; [lia|]. rewrite Z.pow_1_r. nia.
      * apply rne_div_upper; [lia|]. rewrite Z.pow_1_r. nia.
Qed.

(** [int(h * target_ratio)] is the integer quotient [16h / 9]. *)
Lemma mul_target_trunc h :
  0 < h < 2 ^ 31 ->
  (x <- PyFloat.int_mul_float h (S754_finite false (Z.to_pos mantissa_16_9) (-52)) ;;
   PyFloat.to_int x) = Ok (16 * h / 9).
Proof.
  intros Hh.
  pose proof (Zdigits2_small h Hh) as Hd.
  pose proof (canon_range h ltac:(lia)) as Hc.
  unfold PyFloat.int_mul_float. rewrite of_int_small by lia.
  cbn [bind]. unfold PyFloat.prec, PyFloat.emax.
  assert (HT : 2 ^ 52 < mantissa_16_9 < 2 ^ 53) by (unfold mantissa_16_9; lia).
  rewrite SFmul_canonical; rewrite ?Z2Pos.id; try lia.
  set (d := Zdigits2 h) in *.
  assert (HB : canon h = h * (4 * 2 ^ (51 - d))).
  { unfold canon. fold d. f_equal. replace (53 - d) with (2 + (51 - d)) by lia.
    rewrite Z.pow_add_r by lia. reflexivity. }
  set (B := 2 ^ (51 - d)) in *.
  assert (HB20 : 2 ^ 20 <= B) by (apply pow2_ge; lia).
  set (F := 16 * h / 9).
  assert (HF : 9 * F <= 16 * h <= 9 * F + 8).
  { pose proof (Z.div_mod (16 * h) 9 ltac:(lia)).
    pose proof (Z.mod_pos_bound (16 * h) 9 ltac:(lia)). subst F. lia. }
  assert (H9T : 9 * mantissa_16_9 = 2 ^ 56 - 4) by reflexivity.
  assert (Hupp : 2 ^ 48 <= (F + 1) * 2 ^ 52 - h * mantissa_16_9) by lia.
  rewrite HB in *.
  assert (Hev : forall k, Z.even (F * (2 * k)) = true).
  { intros k. replace (F * (2 * k)) with (2 * (F * k)) by lia. apply Z.even_even. }
  destruct (Z.ltb_spec (h * (4 * B) * mantissa_16_9) (2 ^ 105)) as [Hn | Hn].
  - (* product below 2^105: shift by 52, K = 4B *)
    set (mr := rne_div (h * (4 * B) * mantissa_16_9) (2 ^ 52)).
    assert (HK : 2 ^ (- (d - 53 + -52 + 52)) = 4 * B).
    { subst B. replace (- (d - 53 + -52 + 52)) with (2 + (51 - d)) by lia.
      rewrite Z.pow_add_r by lia. reflexivity. }
    assert (Hlo : F * (4 * B) <= mr).
    { replace (4 * B) with (2 * (2 * B)) by lia.
      apply rne_div_lower_half; [lia | apply Hev |].
      destruct (Z.eq_dec (16 * h) (9 * F)) as [E9 | E9].
      - assert (HX : h * (4 * B) <= 9 * 2 ^ 49) by (unfold mantissa_16_9 in Hn; lia).
        assert (HFB : 16 * (h * B) = 9 * (F * B)) by nia.
        unfold mantissa_16_9. lia.
      - assert (HFT : F * 2 ^ 52 <= h * mantissa_16_9) by lia.
        assert (HFTB : F * 2 ^ 52 * B <= h * mantissa_16_9 * B) by nia. lia. }
    assert (Hhi : mr <= (F + 1) * (4 * B) - 1).
    { apply rne_div_upper; [lia|]. nia. }
    rewrite to_int_renorm; try lia.
    + f_equal. rewrite HK. symmetry.
      apply Z.div_unique with (r := mr - F * (4 * B)); lia.
    + split.
      * apply rne_div_lower; [lia|]. nia.
      * apply rne_div_upper; [lia|]. nia.
  - set (mr := rne_div (h * (4 * B) * mantissa_16_9) (2 ^ 53)).
    assert (HK : 2 ^ (- (d - 53 + -52 + 53)) = 2 * B).
    { subst B. replace (- (d - 53 + -52 + 53)) with (1 + (51 - d)) by lia.
      rewrite Z.pow_add_r by lia. reflexivity. }
    assert (Hlo : F * (2 * B) <= mr).
    { apply rne_div_lower_half; [lia | apply Hev |].
      destruct (Z.eq_dec (16 * h) (9 * F)) as [E9 | E9].
      - assert (HX : h * (4 * B) < 2 ^ 53) by lia.
        assert (HFB : 16 * (h * B) = 9 * (F * B)) by nia.
        unfold mantissa_16_9. lia.
      - assert (HFT : F * 2 ^ 52 <= h * mantissa_16_9) by lia.
        assert (HFTB : F * 2 ^ 52 * B <= h * mantissa_16_9 * B) by nia. lia. }
    assert (Hhi : mr <= (F + 1) * (2 * B) - 1).
    { apply rne_div_upper; [lia|]. nia. }
    rewrite to_int_renorm; try lia.
    + f_equal. rewrite HK. symmetry.
      apply Z.div_unique with (r := mr - F * (2 * B)); lia.
    + split.
      * apply rne_div_lower; [lia|]. nia.
      * apply rne_div_upper; [lia|]. nia.
Qed.

Lemma SFdiv_canonical_range m1 m2 :
  2 ^ 52 <= m1 < 2 ^ 53 -> 2 ^ 52 <= m2 < 2 ^ 53 ->
  let n := if m1 <? m2 then 0 else 1 in
  2 ^ 52 <= rne_div (m1 * 2 ^ 53) (2 ^ n * m2) <= 2 ^ 53.
Proof.
  intros H1 H2 n. subst n.
  destruct (Z.ltb_spec m1 m2); split;
    (apply rne_div_lower || apply rne_div_upper); lia.
Qed.

(** [w / h < 16 / 9] on doubles decides [9w < 16h] on the integers. *)
Lemma ratio_lt_target w h :
  0 < w < 2 ^ 31 -> 0 < h < 2 ^ 31 ->
  (r <- PyFloat.int_truediv w h ;;
   Ok (PyFloat.ltb r (S754_finite false (Z.to_pos mantissa_16_9) (-52)))) =
  Ok (9 * w <? 16 * h).
Proof.
  intros Hw Hh.
  pose proof (Zdigits2_small w Hw) as Hdw.
  pose proof (Zdigits2_small h Hh) as Hdh.
  pose proof (canon_range w ltac:(lia)) as Hcw.
  pose proof (canon_range h ltac:(lia)) as Hch.
  unfold PyFloat.int_truediv.
  cmp_false (h =? 0).
  rewrite !of_int_small by lia. cbn [bind].
  unfold PyFloat.prec, PyFloat.emax.
  rewrite SFdiv_canonical; rewrite ?Z2Pos.id; try lia.
  pose proof (SFdiv_canonical_range (canon w) (canon h) Hcw Hch) as Hmr.
  cbv zeta in Hmr. rewrite ltb_renorm by exact Hmr. f_equal.
  set (dw := Zdigits2 w) in *. set (dh := Zdigits2 h) in *.
  assert (HA : canon w = w * 2 ^ (53 - dw)) by reflexivity.
  assert (HB : canon h = h * 2 ^ (53 - dh)) by reflexivity.
  assert (HT : mantissa_16_9 = 8006399337547548) by reflexivity.
  assert (HApos : 0 < 2 ^ (53 - dw)) by (apply Z.pow_pos_nonneg; lia).
  assert (HBpos : 0 < 2 ^ (53 - dh)) by (apply Z.pow_pos_nonneg; lia).
  rewrite HA, HB in *. clear HA HB.
  destruct (Z.lt_trichotomy dw dh) as [Hlt | [Heq | Hgt]].
  - (* fewer bits in the width: the quotient is below one *)
    destruct (pow2_split (53 - dh) (53 - dw) ltac:(lia)) as [HAB HP].
    assert (HP2 : 2 ^ 1 <= 2 ^ (53 - dw - (53 - dh))) by (apply pow2_ge; lia).
    set (A := 2 ^ (53 - dw)) in *. set (B := 2 ^ (53 - dh)) in *.
    set (P := 2 ^ (53 - dw - (53 - dh))) in *.
    assert (Hwh : w < h) by nia.
    cmp_true (9 * w <? 16 * h).
    destruct (w * A <? h * B);
      match goal with |- (?e <? -52) || _ = true =>
        cmp_true (e <? -52) end;
      reflexivity.
  - rewrite Heq in *.
    set (A := 2 ^ (53 - dh)) in *.
    destruct (Z.ltb_spec (w * A) (h * A)) as [Hn | Hn].
    + assert (Hwh : w < h) by nia.
      cmp_true (9 * w <? 16 * h).
      cmp_true (dh - 53 - (dh - 53) - 53 + 0 <? -52).
      reflexivity.
    + cmp_false (dh - 53 - (dh - 53) - 53 + 1 <? -52).
      cmp_true (dh - 53 - (dh - 53) - 53 + 1 =? -52).
      cbn [orb andb]. rewrite Z.pow_1_r.
      destruct (Z.ltb_spec (9 * w) (16 * h)) as [Hr | Hr].
      * apply Z.ltb_lt.
        assert (rne_div (w * A * 2 ^ 53) (2 * (h * A)) <= mantissa_16_9 - 1); [|lia].
        apply rne_div_upper; [lia|].
        assert (w * 2 ^ 52 <= (mantissa_16_9 - 1) * h) by lia. nia.
      * apply Z.ltb_ge. apply rne_div_lower; [lia|].
        assert (mantissa_16_9 * h <= w * 2 ^ 52) by lia. nia.
  - destruct (pow2_split (53 - dw) (53 - dh) ltac:(lia)) as [HAB HP].
    assert (HP2 : 2 ^ 1 <= 2 ^ (53 - dh - (53 - dw))) by (apply pow2_ge; lia).
    destruct (Z.eq_dec dw (dh + 1)) as [H1 | H1].
    + assert (HP1 : 2 ^ (53 - dh - (53 - dw)) = 2).
      { replace (53 - dh - (53 - dw)) with 1 by lia. reflexivity. }
      rewrite HP1 in HAB. rewrite HAB in *.
      set (A := 2 ^ (53 - dw)) in *.
      destruct (Z.ltb_spec (w * A) (h * (A * 2))) as [Hn | Hn].
      * cmp_false (dw - 53 - (dh - 53) - 53 + 0 <? -52).
        cmp_true (dw - 53 - (dh - 53) - 53 + 0 =? -52).
        cbn [orb andb]. rewrite Z.pow_0_r.
        destruct (Z.ltb_spec (9 * w) (16 * h)) as [Hr | Hr].
        -- apply Z.ltb_lt.
           assert (rne_div (w * A * 2 ^ 53) (1 * (h * (A * 2))) <= mantissa_16_9 - 1); [|lia].
           apply rne_div_upper; [lia|].
           assert (w * 2 ^ 52 <= (mantissa_16_9 - 1) * h) by lia. nia.
        -- apply Z.ltb_ge. apply rne_div_lower; [lia|].
           assert (mantissa_16_9 * h <= w * 2 ^ 52) by lia. nia.
      * assert (Hwh : 2 * h <= w) by nia.
        cmp_false (9 * w <? 16 * h).
        cmp_false (dw - 53 - (dh - 53) - 53 + 1 <? -52).
        cmp_false (dw - 53 - (dh - 53) - 53 + 1 =? -52).
        reflexivity.
    + assert (HP4 : 2 ^ 2 <= 2 ^ (53 - dh - (53 - dw))) by (apply pow2_ge; lia).
      set (A := 2 ^ (53 - dw)) in *. set (B := 2 ^ (53 - dh)) in *.
      set (P := 2 ^ (53 - dh - (53 - dw))) in *.
      assert (Hwh : 2 * h <= w) by nia.
      cmp_false (9 * w <? 16 * h).
      destruct (w * A <? h * B);
        match goal with |- (?e <? -52) || ((?e =? -52) && _) = false =>
          cmp_false (e <? -52);
          cmp_false (e =? -52) end;
        reflexivity.
Qed.

(** ** The dimension rule *)

Lemma bind_Ok_inv {A B} (r : result A) (k : A -> result B) (b : B) :
  bind r k = Ok b -> exists a, r = Ok a /\ k a = Ok b.
Proof. destruct r; simpl; intros H; [eauto | discriminate]. Qed.

Lemma Ok_inj {A} (a b : A) : Ok a = Ok b -> a = b.
Proof. intros H. congruence. Qed.

(** On frame sizes below [2^31] the floats of lines 27-42 compute
    [floor_geometry], an expression on integers only. *)
Lemma target_geometry_floor width height :
  0 < width < 2 ^ 31 -> 0 < height < 2 ^ 31 ->
  target_geometry width height = Ok (floor_geometry width height).
Proof.
  intros Hw Hh. unfold target_geometry.
  pose proof (ratio_lt_target width height Hw Hh) as Hlt.
  apply bind_Ok_inv in Hlt. destruct Hlt as (cr & Hcr & Hb).
  apply Ok_inj in Hb.
  rewrite Hcr, target_ratio_value. cbn [bind]. unfold new_dimensions.
  rewrite Hb. unfold floor_geometry.
  destruct (9 * width <? 16 * height).
  - pose proof (mul_target_trunc height Hh) as Hm.
    apply bind_Ok_inv in Hm. destruct Hm as (x & Hx & Hi).
    rewrite Hx. cbn [bind]. rewrite Hi. reflexivity.
  - pose proof (div_target_trunc width Hw) as Hd.
    apply bind_Ok_inv in Hd. destruct Hd as (y & Hy & Hi).
    rewrite Hy. cbn [bind]. rewrite Hi. reflexivity.
Qed.

Lemma floor_geometry_grows width height :
  0 < width -> 0 < height ->
  let g := floor_geometry width height in
  width <= new_width g /\ height <= new_height g /\
  0 <= h_padding g /\ 0 <= v_padding g /\
  h_padding g + width <= new_width g /\ v_padding g + height <= new_height g.
Proof.
  intros Hw Hh. unfold floor_geometry.
  destruct (Z.ltb_spec (9 * width) (16 * height)) as [Hr | Hr];
    cbn [new_width new_height h_padding v_padding].
  - assert (Hq : width <= 16 * height / 9) by (apply Z.div_le_lower_bound; lia).
    pose proof (Z.div_mod (16 * height / 9 - width) 2 ltac:(lia)).
    pose proof (Z.mod_pos_bound (16 * height / 9 - width) 2 ltac:(lia)).
    assert (0 <= (16 * height / 9 - width) / 2) by (apply Z.div_pos; lia).
    lia.
  - assert (Hq : height <= 9 * width / 16) by (apply Z.div_le_lower_bound; lia).
    pose proof (Z.div_mod (9 * width / 16 - height) 2 ltac:(lia)).
    pose proof (Z.mod_pos_bound (9 * width / 16 - height) 2 ltac:(lia)).
    assert (0 <= (9 * width / 16 - height) / 2) by (apply Z.div_pos; lia).
    lia.
Qed.

Lemma floor_geometry_exact width height :
  0 < height -> 9 * width = 16 * height ->
  floor_geometry width height =
  {| new_width := width; new_height := height; h_padding := 0; v_padding := 0 |}.
Proof.
  intros Hh E. unfold floor_geometry.
  cmp_false (9 * width <? 16 * height).
  assert (Hq : 9 * width / 16 = height).
  { rewrite E, Z.mul_comm. apply Z.div_mul. lia. }
  rewrite Hq. replace (height - height) with 0 by lia. reflexivity.
Qed.

(** The 1000 by 1000 source does not get the rounded width 1778 and the
    padding 389 (the code truncates: 1777 and 388). *)
Lemma geometry_1000_1000_not_rounded :
  ~ (exists g, target_geometry 1000 1000 = Ok g /\
               new_width g = 1778 /\ h_padding g = 389).
Proof.
  intros (g & Hg & Hnw & _).
  assert (E : target_geometry 1000 1000 =
              Ok {| new_width := 1777; new_height := 1000;
                    h_padding := 388; v_padding := 0 |})
    by (vm_compute; reflexivity).
  rewrite E in Hg. apply Ok_inj in Hg. subst g. cbn in Hnw. discriminate.
Qed.

(** C1 (amended): for a source of [width] by [height], both positive and
    below [2^31], the compositor takes the narrow branch exactly when
    [width / height < 16 / 9], that is [9 * width < 16 * height]; there
    [new_width] is [height * 16 / 9] truncated to an integer,
    [new_height = height], [h_padding = (new_width - width) // 2] and
    [v_padding = 0]; otherwise [new_width = width], [new_height] is
    [width * 9 / 16] truncated, [v_padding = (new_height - height) // 2]
    and [h_padding = 0]. *)
Theorem dimension_rule width height :
  0 < width < 2 ^ 31 -> 0 < height < 2 ^ 31 ->
  target_geometry width height =
  Ok (if 9 * width <? 16 * height then
        {| new_width := 16 * height / 9; new_height := height;
           h_padding := (16 * height / 9 - width) / 2; v_padding := 0 |}
      else
        {| new_width := width; new_height := 9 * width / 16;
           h_padding := 0; v_padding := (9 * width / 16 - height) / 2 |}).
Proof. exact (target_geometry_floor width height). Qed.

Lemma dimension_rule_1000_1000 :
  (0 < 1000 < 2 ^ 31 /\ 0 < 1000 < 2 ^ 31) /\
  target_geometry 1000 1000 =
  Ok {| new_width := 1777; new_height := 1000; h_padding := 388; v_padding := 0 |}.
Proof.
  split; [lia|]. rewrite (dimension_rule 1000 1000) by lia. reflexivity.
Defined.

Example dimension_rule_640_480 :
  target_geometry 640 480 =
  Ok {| new_width := 853; new_height := 480; h_padding := 106; v_padding := 0 |}.
Proof. rewrite target_geometry_floor by lia. reflexivity. Qed.

Example dimension_rule_1920_1080 :
  target_geometry 1920 1080 =
  Ok {| new_width := 1920; new_height := 1080; h_padding := 0; v_padding := 0 |}.
Proof. rewrite target_geometry_floor by lia. reflexivity. Qed.

(** C2: the output is at least as large as the source on both axes and
    both paddings are non-negative: bars are added, nothing is cropped. *)
Theorem bars_only width height :
  0 < width < 2 ^ 31 -> 0 < height < 2 ^ 31 ->
  exists g, target_geometry width height = Ok g /\
    width <= new_width g /\ height <= new_height g /\
    0 <= h_padding g /\ 0 <= v_padding g.
Proof.
  intros Hw Hh. exists (floor_geometry width height).
  split; [apply target_geometry_floor; assumption|].
  pose proof (floor_geometry_grows width height ltac:(lia) ltac:(lia)) as H.
  cbv zeta in H. tauto.
Qed.

Lemma bars_only_640_480 :
  (0 < 640 < 2 ^ 31 /\ 0 < 480 < 2 ^ 31) /\
  exists g, target_geometry 640 480 = Ok g /\
    640 <= new_width g /\ 480 <= new_height g /\
    0 <= h_padding g /\ 0 <= v_padding g.
Proof. split; [lia|]. apply (bars_only 640 480); lia. Defined.

(** ** Compositing one frame *)

Lemma firstn_repeat {A} (x : A) n m : (n <= m)%nat -> firstn n (repeat x m) = repeat x n.
Proof.
  revert m. induction n; intros m H; [reflexivity|].
  destruct m; [lia|]. simpl. f_equal. apply IHn. lia.
Qed.

Lemma skipn_repeat {A} (x : A) n m : skipn n (repeat x m) = repeat x (m - n).
Proof.
  revert m. induction n; intros m; simpl.
  - rewrite Nat.sub_0_r. reflexivity.
  - destruct m; [reflexivity|]. simpl. apply IHn.
Qed.

Lemma overwrite_rows_repeat c0 nc drow src :
  overwrite_rows c0 nc (repeat drow (List.length src)) src =
  map (fun srow => firstn c0 drow ++ srow ++ skipn (c0 + nc) drow) src.
Proof.
  induction src as [|s src IH]; [reflexivity|].
  simpl. f_equal. exact IH.
Qed.

Lemma stretch_same {A} n (l : list A) : stretch n n l = l.
Proof. unfold stretch. rewrite Z.eqb_refl. reflexivity. Qed.

Lemma map_stretch_same n (l : list (list pixel)) : map (stretch n n) l = l.
Proof.
  induction l as [|r l IH]; [reflexivity|]. simpl. rewrite stretch_same, IH. reflexivity.
Qed.

Lemma adjust_inside i len : 0 <= i <= len -> adjust i len = i.
Proof. intros H. unfold adjust. destruct (Z.ltb_spec i 0); lia. Qed.

Lemma slice_length_inside a n len :
  0 <= a -> 0 <= n -> a + n <= len -> slice_length a (a + n) len = n.
Proof.
  intros Ha Hn Hlen. unfold slice_length. rewrite !adjust_inside by lia. lia.
Qed.

(** When the offsets leave room for the frame, lines 62-65 produce the
    letterboxed frame. *)
Lemma composite_letterbox g width height frame :
  0 <= width -> 0 <= height ->
  0 <= h_padding g -> 0 <= v_padding g ->
  h_padding g + width <= new_width g ->
  v_padding g + height <= new_height g ->
  has_shape height width frame ->
  composite g width height frame = Ok (letterbox g width height frame).
Proof.
  intros Hw Hh Hhp Hvp Hfw Hfh (Hr & Hc & Hlen & Hrows).
  unfold composite, zeros.
  replace ((new_height g <? 0) || (new_width g <? 0)) with false
    by (symmetry; apply orb_false_iff; split; apply Z.ltb_ge; lia).
  cbn [bind]. unfold assign. cbn [nd_rows nd_cols nd_data].
  rewrite !slice_length_inside, !adjust_inside by lia.
  rewrite Hr, Hc. unfold broadcastable. rewrite !Z.eqb_refl. cbn [orb andb].
  rewrite map_stretch_same, stretch_same.
  unfold letterbox. f_equal. f_equal.
  set (blank := repeat black (Z.to_nat (new_width g))).
  rewrite firstn_repeat by lia. f_equal. f_equal.
  - rewrite skipn_repeat, firstn_repeat by lia.
    rewrite <- Hlen, overwrite_rows_repeat.
    apply map_ext. intros row. subst blank.
    rewrite firstn_repeat, skipn_repeat by lia.
    do 3 f_equal. lia.
  - rewrite skipn_repeat. f_equal. lia.
Qed.

(** Without padding the letterboxed frame is the frame. *)
Lemma letterbox_identity width height frame :
  has_shape height width frame ->
  letterbox {| new_width := width; new_height := height;
               h_padding := 0; v_padding := 0 |} width height frame = frame.
Proof.
  intros (Hr & Hc & Hlen & Hrows). unfold letterbox.
  cbn [new_width new_height h_padding v_padding].
  replace (width - 0 - width) with 0 by lia.
  replace (height - 0 - height) with 0 by lia.
  cbn [Z.to_nat repeat app]. rewrite app_nil_r.
  destruct frame as [r c d]. cbn [nd_rows nd_cols nd_data] in *. subst r c. f_equal.
  clear Hlen Hrows. induction d as [|row d IH]; [reflexivity|].
  simpl. rewrite app_nil_r. f_equal. exact IH.
Qed.

Lemma padded_row_pixel (row : list pixel) hp w nw j :
  0 <= hp -> 0 <= w -> hp + w <= nw -> List.length row = Z.to_nat w ->
  0 <= j < nw ->
  nth_error (repeat black (Z.to_nat hp) ++ row ++ repeat black (Z.to_nat (nw - hp - w)))
            (Z.to_nat j) =
  if (hp <=? j) && (j <? hp + w) then nth_error row (Z.to_nat (j - hp))
  else Some black.
Proof.
  intros Hhp Hw Hfit Hlen Hj.
  destruct (Z.leb_spec hp j) as [H1 | H1]; cbn [andb].
  - rewrite nth_error_app2 by (rewrite repeat_length; lia).
    rewrite repeat_length.
    replace (Z.to_nat j - Z.to_nat hp)%nat with (Z.to_nat (j - hp)) by lia.
    destruct (Z.ltb_spec j (hp + w)) as [H2 | H2].
    + apply nth_error_app1. lia.
    + rewrite nth_error_app2 by lia. apply nth_error_repeat. lia.
  - rewrite nth_error_app1 by (rewrite repeat_length; lia).
    apply nth_error_repeat. lia.
Qed.

(** The letterboxed frame, pixel by pixel. *)
Lemma letterbox_pixel g width height frame i j :
  0 <= width -> 0 <= height ->
  0 <= h_padding g -> 0 <= v_padding g ->
  h_padding g + width <= new_width g ->
  v_padding g + height <= new_height g ->
  has_shape height width frame ->
  0 <= i < new_height g -> 0 <= j < new_width g ->
  pixel_at (letterbox g width height frame) i j =
  if in_region g width height i j
  then pixel_at frame (i - v_padding g) (j - h_padding g)
  else Some black.
Proof.
  intros Hw Hh Hhp Hvp Hfw Hfh (Hr & Hc & Hlen & Hrows) Hi Hj.
  unfold pixel_at at 1, in_region, letterbox. cbn [nd_data].
  replace ((i <? 0) || (j <? 0)) with false
    by (symmetry; apply orb_false_iff; split; apply Z.ltb_ge; lia).
  set (blank := repeat black (Z.to_nat (new_width g))).
  assert (Hblank : nth_error blank (Z.to_nat j) = Some black).
  { apply nth_error_repeat. lia. }
  destruct (Z.leb_spec (v_padding g) i) as [H1 | H1]; cbn [andb].
  - rewrite nth_error_app2 by (rewrite repeat_length; lia).
    rewrite repeat_length.
    replace (Z.to_nat i - Z.to_nat (v_padding g))%nat
      with (Z.to_nat (i - v_padding g)) by lia.
    destruct (Z.ltb_spec i (v_padding g + height)) as [H2 | H2]; cbn [andb].
    + rewrite nth_error_app1 by (rewrite length_map; lia).
      rewrite nth_error_map.
      destruct (nth_error (nd_data frame) (Z.to_nat (i - v_padding g)))
        as [row|] eqn:Erow.
      * cbn [option_map].
        assert (Hrow : List.length row = Z.to_nat width).
        { rewrite Forall_forall in Hrows. apply Hrows.
          eapply nth_error_In. exact Erow. }
        rewrite (padded_row_pixel row _ width (new_width g)) by lia.
        destruct ((h_padding g <=? j) && (j <? h_padding g + width)) eqn:Ein;
          [|reflexivity].
        unfold pixel_at. rewrite Erow.
        replace ((i - v_padding g <? 0) || (j - h_padding g <? 0)) with false;
          [reflexivity|].
        symmetry; apply orb_false_iff; split; apply Z.ltb_ge; lia.
      * apply nth_error_None in Erow. lia.
    + rewrite nth_error_app2 by (rewrite length_map; lia).
      rewrite length_map, nth_error_repeat by lia. exact Hblank.
  - rewrite nth_error_app1 by (rewrite repeat_length; lia).
    rewrite nth_error_repeat by lia. exact Hblank.
Qed.

Lemma letterbox_composited g width height frame :
  0 <= width -> 0 <= height ->
  0 <= h_padding g -> 0 <= v_padding g ->
  h_padding g + width <= new_width g ->
  v_padding g + height <= new_height g ->
  has_shape height width frame ->
  composited g width height frame (letterbox g width height frame).
Proof.
  intros Hw Hh Hhp Hvp Hfw Hfh Hs. split; [reflexivity|]. split; [reflexivity|].
  intros i j Hi Hj. apply letterbox_pixel; assumption.
Qed.

Lemma composite_in_range width height frame :
  0 < width < 2 ^ 31 -> 0 < height < 2 ^ 31 ->
  has_shape height width frame ->
  composite (floor_geometry width height) width height frame =
  Ok (letterbox (floor_geometry width height) width height frame).
Proof.
  intros Hw Hh Hs.
  pose proof (floor_geometry_grows width height ltac:(lia) ltac:(lia)) as H.
  cbv zeta in H. apply composite_letterbox; try lia. exact Hs.
Qed.

Lemma letterbox_in_range width height frame :
  0 < width < 2 ^ 31 -> 0 < height < 2 ^ 31 ->
  has_shape height width frame ->
  composited (floor_geometry width height) width height frame
    (letterbox (floor_geometry width height) width height frame).
Proof.
  intros Hw Hh Hs.
  pose proof (floor_geometry_grows width height ltac:(lia) ltac:(lia)) as H.
  cbv zeta in H. apply letterbox_composited; try lia. exact Hs.
Qed.

(** C9: the slice the frame is copied into lies inside the canvas and has
    exactly the shape of the frame, so the assignment does not raise. *)
Theorem copy_in_bounds width height :
  0 < width < 2 ^ 31 -> 0 < height < 2 ^ 31 ->
  exists g, target_geometry width height = Ok g /\
    v_padding g + height <= new_height g /\
    h_padding g + width <= new_width g /\
    slice_length (v_padding g) (v_padding g + height) (new_height g) = height /\
    slice_length (h_padding g) (h_padding g + width) (new_width g) = width /\
    forall frame, has_shape height width frame ->
      exists canvas, composite g width height frame = Ok canvas.
Proof.
  intros Hw Hh. exists (floor_geometry width height).
  split; [apply target_geometry_floor; assumption|].
  pose proof (floor_geometry_grows width height ltac:(lia) ltac:(lia)) as H.
  cbv zeta in H. destruct H as (G1 & G2 & G3 & G4 & G5 & G6).
  repeat split; try lia.
  - apply slice_length_inside; lia.
  - apply slice_length_inside; lia.
  - intros frame Hs. eexists. apply composite_letterbox; try lia. exact Hs.
Qed.

Lemma copy_in_bounds_1000_1000 :
  (0 < 1000 < 2 ^ 31 /\ 0 < 1000 < 2 ^ 31) /\
  exists g, target_geometry 1000 1000 = Ok g /\
    v_padding g + 1000 <= new_height g /\
    h_padding g + 1000 <= new_width g /\
    slice_length (v_padding g) (v_padding g + 1000) (new_height g) = 1000 /\
    slice_length (h_padding g) (h_padding g + 1000) (new_width g) = 1000 /\
    forall frame, has_shape 1000 1000 frame ->
      exists canvas, composite g 1000 1000 frame = Ok canvas.
Proof. split; [lia|]. apply (copy_in_bounds 1000 1000); lia. Defined.

(** ** The frame loop *)

Lemma same_resources_refl w : same_resources w w.
Proof. unfold same_resources. tauto. Qed.

Lemma same_resources_trans w1 w2 w3 :
  same_resources w1 w2 -> same_resources w2 w3 -> same_resources w1 w3.
Proof. unfold same_resources. intros (A1 & A2 & A3) (B1 & B2 & B3). intuition congruence. Qed.

Lemma progress_keeps processed frame_count w :
  let rw := progress processed frame_count w in
  delivered (snd rw) = delivered w /\ sink (snd rw) = sink w /\
  cap_released (snd rw) = cap_released w /\ out_released (snd rw) = out_released w.
Proof.
  unfold progress. destruct (processed mod 100 =? 0); [|cbn; tauto].
  unfold bindM, lift.
  destruct (PyFloat.int_truediv processed frame_count) as [q|e]; [|cbn; tauto].
  destruct (PyFloat.float_mul_int q 100) as [p|e]; cbn; tauto.
Qed.

(** One iteration. *)
Lemma frame_loop_cons g width height frame_count f rest processed w :
  frame_loop g width height frame_count (f :: rest) processed w =
  match composite g width height f with
  | Raise e => (Raise e, snd (cap_deliver f w))
  | Ok canvas =>
      match progress (processed + 1) frame_count
              (snd (out_write canvas (snd (cap_deliver f w)))) with
      | (Ok _, w2) =>
          frame_loop g width height frame_count rest (processed + 1) w2
      | (Raise e, w2) => (Raise e, w2)
      end
  end.
Proof.
  cbn [frame_loop]. unfold bindM, lift. cbn [cap_deliver out_write snd].
  destruct (composite g width height f); reflexivity.
Qed.

(** The loop constructs no writer and releases nothing. *)
Lemma frame_loop_resources g width height frame_count frames :
  forall processed w,
  same_resources w (snd (frame_loop g width height frame_count frames processed w)).
Proof.
  induction frames as [|f rest IH]; intros processed w.
  - apply same_resources_refl.
  - rewrite frame_loop_cons.
    destruct (composite g width height f) as [canvas|e].
    + match goal with |- context [progress ?p ?c ?w1] =>
        pose proof (progress_keeps p c w1) as Hp;
        destruct (progress p c w1) as [[u|e] w2] end.
      all: cbn [snd fst cap_deliver out_write delivered sink
                cap_released out_released] in Hp;
        destruct Hp as (H1 & H2 & H3 & H4).
      * eapply same_resources_trans; [|apply IH].
        unfold same_resources. rewrite H2, H3, H4.
        destruct (sink w); intuition congruence.
      * cbn [snd]. unfold same_resources. rewrite H2, H3, H4.
        destruct (sink w); intuition congruence.
    + unfold same_resources; cbn. tauto.
Qed.

(** When every frame composites, the loop has written, when it stops, the
    letterboxed image of exactly the frames it has read. *)
Lemma frame_loop_frames g width height frame_count frames :
  (forall f, In f frames ->
     composite g width height f = Ok (letterbox g width height f)) ->
  forall processed w o, sink w = Some o ->
  exists k, (k <= List.length frames)%nat /\
    delivered (snd (frame_loop g width height frame_count frames processed w)) =
      delivered w ++ firstn k frames /\
    sink (snd (frame_loop g width height frame_count frames processed w)) =
      Some (add_frames o (map (letterbox g width height) (firstn k frames))) /\
    (fst (frame_loop g width height frame_count frames processed w) = Ok tt ->
     k = List.length frames).
Proof.
  induction frames as [|f rest IH]; intros Hcomp processed w o Ho.
  - exists 0%nat. cbn. rewrite !app_nil_r. unfold add_frames. rewrite app_nil_r.
    destruct o; cbn in *. repeat split; auto.
  - rewrite frame_loop_cons.
    rewrite (Hcomp f) by (left; reflexivity).
    match goal with |- context [progress ?p ?c ?w1] =>
      pose proof (progress_keeps p c w1) as Hp;
      destruct (progress p c w1) as [[u|e] w2] end.
    all: cbn [snd fst cap_deliver out_write delivered sink
              cap_released out_released] in Hp;
      destruct Hp as (H1 & H2 & H3 & H4); rewrite Ho in H2.
    + destruct (IH (fun f' Hin => Hcomp f' (or_intror Hin)) (processed + 1) w2 _ H2)
        as (k & Hk & Hd & Hs & Hr).
      exists (S k). cbn [List.length firstn map]. split; [lia|].
      rewrite Hd, Hs, H1.
      unfold add_frames; cbn [wr_path wr_fourcc wr_fps wr_size wr_frames].
      rewrite <- !app_assoc. cbn [app]. repeat split; auto.
    + exists 1%nat. cbn [List.length firstn map fst snd]. split; [lia|].
      rewrite H1, H2. repeat split; auto. discriminate.
Qed.

Lemma int_truediv_small a b :
  0 < a < 2 ^ 53 -> 0 < b < 2 ^ 53 ->
  exists q, PyFloat.int_truediv a b = Ok q.
Proof.
  intros Ha Hb. unfold PyFloat.int_truediv.
  cmp_false (b =? 0).
  rewrite !of_int_small by lia. cbn [bind]. eauto.
Qed.

Lemma progress_ok processed frame_count w :
  0 < processed < 2 ^ 53 -> 0 < frame_count < 2 ^ 53 ->
  fst (progress processed frame_count w) = Ok tt.
Proof.
  intros Hp Hc. unfold progress.
  destruct (processed mod 100 =? 0); [|reflexivity].
  destruct (int_truediv_small processed frame_count Hp Hc) as (q & Hq).
  unfold bindM, lift. rewrite Hq.
  unfold PyFloat.float_mul_int. rewrite of_int_small by lia. reflexivity.
Qed.

(** With a positive frame count the progress report cannot raise. *)
Lemma frame_loop_completes g width height frame_count frames :
  0 < frame_count < 2 ^ 53 ->
  (forall f, In f frames ->
     composite g width height f = Ok (letterbox g width height f)) ->
  forall processed w,
  0 <= processed -> processed + Z.of_nat (List.length frames) < 2 ^ 53 ->
  fst (frame_loop g width height frame_count frames processed w) = Ok tt.
Proof.
  intros Hc. induction frames as [|f rest IH]; intros Hcomp processed w Hp Hlen.
  - reflexivity.
  - rewrite frame_loop_cons. rewrite (Hcomp f) by (left; reflexivity).
    cbn [List.length] in Hlen.
    match goal with |- context [progress ?p ?c ?w1] =>
      pose proof (progress_ok p c w1 ltac:(lia) Hc) as Hok;
      destruct (progress p c w1) as [[u|e] w2] end;
      cbn [fst] in Hok; [|discriminate].
    apply IH; [|lia|lia].
    intros f' Hin. apply Hcomp. right. exact Hin.
Qed.

(** ** Whole runs *)

Lemma Forall2_map_r {A B} (R : A -> B -> Prop) (f : A -> B) l :
  (forall x, In x l -> R x (f x)) -> Forall2 R l (map f l).
Proof.
  induction l as [|x l IH]; intros H; cbn; constructor.
  - apply H. left. reflexivity.
  - apply IH. intros y Hy. apply H. right. exact Hy.
Qed.

Lemma In_firstn {A} (x : A) k l : In x (firstn k l) -> In x l.
Proof.
  intros H. rewrite <- (firstn_skipn k l). apply in_or_app. left. exact H.
Qed.

Lemma Forall_firstn {A} (P : A -> Prop) k l : Forall P l -> Forall P (firstn k l).
Proof.
  rewrite !Forall_forall. intros H x Hx. apply H. eapply In_firstn. exact Hx.
Qed.

Lemma map_letterbox_identity width height l :
  Forall (has_shape height width) l ->
  map (letterbox {| new_width := width; new_height := height;
                    h_padding := 0; v_padding := 0 |} width height) l = l.
Proof.
  induction 1 as [|f l Hf _ IH]; [reflexivity|].
  cbn [map]. rewrite letterbox_identity by exact Hf. rewrite IH. reflexivity.
Qed.

Lemma bindM_Ok_inv {S A B} (m : M S A) (k : A -> M S B) s b s' :
  bindM m k s = (Ok b, s') ->
  exists a s1, m s = (Ok a, s1) /\ k a s1 = (Ok b, s').
Proof.
  unfold bindM. destruct (m s) as [[a|e] s1]; intros H; [eauto | discriminate].
Qed.

(** Peels the statements of a run that returned, first to last. *)
Ltac unbind H :=
  repeat (apply bindM_Ok_inv in H;
          let a := fresh "a" in
          let s := fresh "s" in
          let H' := fresh "H" in
          destruct H as (a & s & H' & H)).

(** A source that opened, with a frame size OpenCV can report. *)
Section OpenedSource.

Variable cap : capture.
Variables input_video output_video : string.

Hypothesis Hopen : cap_opened cap = true.
Hypothesis Hwidth : 0 < prop_width cap < 2 ^ 31.
Hypothesis Hheight : 0 < prop_height cap < 2 ^ 31.

(** The run is the set-up, the frame loop and, when the loop returns, the
    tear-down. *)
Lemma convert_opened :
  exists current_ratio new_ratio,
    convert_to_16_9 cap input_video output_video initial =
    match frame_loop (floor_geometry (prop_width cap) (prop_height cap))
            (prop_width cap) (prop_height cap) (prop_frame_count cap)
            (cap_frames cap) 0
            (started cap output_video
               (floor_geometry (prop_width cap) (prop_height cap))
               current_ratio new_ratio) with
    | (Ok _, w) => (Ok tt, finished output_video w)
    | (Raise e, w) => (Raise e, w)
    end.
Proof.
  set (g := floor_geometry (prop_width cap) (prop_height cap)).
  pose proof (target_geometry_floor _ _ Hwidth Hheight) as Hg. fold g in Hg.
  unfold target_geometry in Hg.
  apply bind_Ok_inv in Hg. destruct Hg as (cr & Hcr & Hg).
  apply bind_Ok_inv in Hg. destruct Hg as (tr & Htr & Hg).
  pose proof (floor_geometry_grows (prop_width cap) (prop_height cap)
                ltac:(lia) ltac:(lia)) as Hgrow.
  fold g in Hgrow. cbv zeta in Hgrow.
  assert (Hnw : new_width g < 2 ^ 53 /\ new_height g < 2 ^ 53).
  { subst g. unfold floor_geometry.
    destruct (9 * prop_width cap <? 16 * prop_height cap);
      cbn [new_width new_height]; split; try lia;
      apply Z.div_lt_upper_bound; lia. }
  destruct (int_truediv_small (new_width g) (new_height g)) as (nr & Hnr);
    [lia|lia|].
  exists cr, nr.
  unfold convert_to_16_9. rewrite Hopen. cbn [negb].
  unfold bindM at 1. unfold lift at 1. rewrite Hcr.
  unfold bindM at 1. unfold lift at 1. rewrite Htr.
  unfold bindM at 1. unfold lift at 1. rewrite Hg.
  unfold bindM at 1. cbn [out_open].
  unfold bindM at 1. cbn [print].
  unfold bindM at 1. cbn [print].
  unfold bindM at 1. unfold lift at 1. rewrite Hnr.
  unfold bindM at 1. cbn [print].
  cbn [stdout delivered sink cap_released out_released initial app].
  unfold bindM at 1. unfold started.
  match goal with |- context [frame_loop ?a ?b ?c ?d ?e ?f ?w0] =>
    destruct (frame_loop a b c d e f w0) as [[u|e'] w1] end; [|reflexivity].
  unfold bindM, cap_release, out_release, print, finished.
  cbn [stdout delivered sink cap_released out_released]. destruct u. reflexivity.
Qed.

Hypothesis Hshape :
  Forall (has_shape (prop_height cap) (prop_width cap)) (cap_frames cap).

(** What the loop has read and written when it stops, however it stops. *)
Lemma loop_outcome current_ratio new_ratio :
  let g := floor_geometry (prop_width cap) (prop_height cap) in
  let rw := frame_loop g (prop_width cap) (prop_height cap)
              (prop_frame_count cap) (cap_frames cap) 0
              (started cap output_video g current_ratio new_ratio) in
  exists k,
    delivered (snd rw) = firstn k (cap_frames cap) /\
    sink (snd rw) =
      Some {| wr_path := output_video; wr_fourcc := "mp4v";
              wr_fps := prop_fps cap;
              wr_size := (new_width g, new_height g);
              wr_frames := map (letterbox g (prop_width cap) (prop_height cap))
                             (firstn k (cap_frames cap)) |} /\
    (fst rw = Ok tt -> k = List.length (cap_frames cap)).
Proof.
  cbv zeta.
  set (g := floor_geometry (prop_width cap) (prop_height cap)).
  assert (Hcomp : forall f, In f (cap_frames cap) ->
            composite g (prop_width cap) (prop_height cap) f =
            Ok (letterbox g (prop_width cap) (prop_height cap) f)).
  { intros f Hf. rewrite Forall_forall in Hshape.
    apply composite_in_range; auto. }
  destruct (frame_loop_frames g _ _ (prop_frame_count cap) _ Hcomp 0
              (started cap output_video g current_ratio new_ratio) _ eq_refl)
    as (k & Hk & Hd & Hs & Hr).
  exists k. rewrite Hd, Hs. repeat split; auto.
Qed.

(** With a positive reported frame count the claim about the frames
    holds, and in full: the run returns, and the writer holds, for every
    frame of the stream and in the order of the stream, a canvas of the
    new size with the frame at [(v_padding, h_padding)] and black
    everywhere else. *)
Lemma whole_stream_composited :
  0 < prop_frame_count cap < 2 ^ 53 ->
  Z.of_nat (List.length (cap_frames cap)) < 2 ^ 53 ->
  exists g o,
    target_geometry (prop_width cap) (prop_height cap) = Ok g /\
    fst (convert_to_16_9 cap input_video output_video initial) = Ok tt /\
    delivered (snd (convert_to_16_9 cap input_video output_video initial)) =
      cap_frames cap /\
    sink (snd (convert_to_16_9 cap input_video output_video initial)) = Some o /\
    wr_size o = (new_width g, new_height g) /\
    wr_frames o =
      map (letterbox g (prop_width cap) (prop_height cap)) (cap_frames cap) /\
    Forall2 (composited g (prop_width cap) (prop_height cap))
      (cap_frames cap) (wr_frames o).
Proof.
  intros Hc Hlen.
  set (g := floor_geometry (prop_width cap) (prop_height cap)).
  destruct convert_opened as (cr & nr & Hrun). fold g in Hrun.
  destruct (loop_outcome cr nr) as (k & Hd & Hs & Hr).
  cbv zeta in Hd, Hs, Hr. fold g in Hd, Hs, Hr.
  assert (Hok : fst (frame_loop g (prop_width cap) (prop_height cap)
                       (prop_frame_count cap) (cap_frames cap) 0
                       (started cap output_video g cr nr)) = Ok tt).
  { apply frame_loop_completes; try lia.
    intros f Hf. rewrite Forall_forall in Hshape.
    apply composite_in_range; auto. }
  rewrite Hrun. clear Hrun.
  destruct (frame_loop g (prop_width cap) (prop_height cap)
              (prop_frame_count cap) (cap_frames cap) 0
              (started cap output_video g cr nr)) as [[u|e] w1];
    cbn [fst snd] in *; [|discriminate].
  specialize (Hr Hok). subst k. rewrite firstn_all in Hd, Hs.
  exists g. eexists.
  split; [apply target_geometry_floor; assumption|].
  split; [destruct u; reflexivity|].
  cbn [finished delivered sink].
  split; [exact Hd|]. split; [exact Hs|].
  cbn [wr_size wr_frames]. split; [reflexivity|]. split; [reflexivity|].
  apply Forall2_map_r. intros f Hf. rewrite Forall_forall in Hshape.
  apply letterbox_in_range; auto.
Qed.

(** With a positive reported frame count a source that is 16:9 already
    comes out as it went in: the size is kept, nothing is padded, and
    the frames written are the frames of the stream. *)
Lemma whole_16_9_stream_copied :
  9 * prop_width cap = 16 * prop_height cap ->
  0 < prop_frame_count cap < 2 ^ 53 ->
  Z.of_nat (List.length (cap_frames cap)) < 2 ^ 53 ->
  target_geometry (prop_width cap) (prop_height cap) =
    Ok {| new_width := prop_width cap; new_height := prop_height cap;
          h_padding := 0; v_padding := 0 |} /\
  fst (convert_to_16_9 cap input_video output_video initial) = Ok tt /\
  exists o,
    sink (snd (convert_to_16_9 cap input_video output_video initial)) = Some o /\
    wr_size o = (prop_width cap, prop_height cap) /\
    wr_frames o = cap_frames cap.
Proof.
  intros E Hc Hlen.
  pose proof (floor_geometry_exact _ _ (proj1 Hheight) E) as Hg.
  destruct (whole_stream_composited Hc Hlen)
    as (g & o & Hgeo & Hret & Hd & Hs & Hsize & Hfr & _).
  rewrite target_geometry_floor in Hgeo by assumption.
  apply Ok_inj in Hgeo. rewrite Hg in Hgeo. subst g.
  split; [rewrite target_geometry_floor by assumption; rewrite Hg; reflexivity|].
  split; [exact Hret|].
  exists o. split; [exact Hs|]. split; [exact Hsize|].
  rewrite Hfr. apply map_letterbox_identity. exact Hshape.
Qed.

(** X5: with a positive reported frame count the run returns, whatever
    the count is: it has read the whole stream and written as many
    frames as it read. *)
Lemma conversion_completes :
  0 < prop_frame_count cap < 2 ^ 53 ->
  Z.of_nat (List.length (cap_frames cap)) < 2 ^ 53 ->
  fst (convert_to_16_9 cap input_video output_video initial) = Ok tt /\
  delivered (snd (convert_to_16_9 cap input_video output_video initial))
    = cap_frames cap /\
  option_map (fun o => List.length (wr_frames o))
    (sink (snd (convert_to_16_9 cap input_video output_video initial)))
    = Some (List.length (cap_frames cap)).
Proof.
  intros Hc Hlen.
  set (g := floor_geometry (prop_width cap) (prop_height cap)).
  destruct convert_opened as (cr & nr & Hrun). fold g in Hrun.
  destruct (loop_outcome cr nr) as (k & Hd & Hs & Hr).
  cbv zeta in Hd, Hs, Hr. fold g in Hd, Hs, Hr.
  assert (Hok : fst (frame_loop g (prop_width cap) (prop_height cap)
                       (prop_frame_count cap) (cap_frames cap) 0
                       (started cap output_video g cr nr)) = Ok tt).
  { apply frame_loop_completes; try lia.
    intros f Hf. rewrite Forall_forall in Hshape.
    apply composite_in_range; auto. }
  rewrite Hrun. clear Hrun.
  destruct (frame_loop g (prop_width cap) (prop_height cap)
              (prop_frame_count cap) (cap_frames cap) 0
              (started cap output_video g cr nr)) as [[u|e] w1];
    cbn [fst snd] in *; [|discriminate].
  specialize (Hr Hok). subst k. rewrite firstn_all in Hd, Hs.
  cbn [finished delivered sink]. rewrite Hd, Hs.
  cbn [option_map wr_frames]. rewrite length_map. auto.
Qed.

End OpenedSource.

(** C7: when the source cannot be opened the function prints the error
    and returns: no writer is constructed, no frame is read or written. *)
Theorem open_failure_writes_nothing cap input_video output_video :
  cap_opened cap = false ->
  convert_to_16_9 cap input_video output_video initial =
  (Ok tt, {| stdout := [MsgOpenError input_video]; delivered := [];
             sink := None; cap_released := 0; out_released := 0 |}).
Proof.
  intros Hclosed. unfold convert_to_16_9. rewrite Hclosed. reflexivity.
Qed.

Lemma open_failure_writes_nothing_sample :
  cap_opened closed_capture = false /\
  convert_to_16_9 closed_capture "in.mp4" "out.mp4" initial =
  (Ok tt, {| stdout := [MsgOpenError "in.mp4"]; delivered := [];
             sink := None; cap_released := 0; out_released := 0 |}).
Proof.
  split; [reflexivity|].
  apply (open_failure_writes_nothing closed_capture "in.mp4" "out.mp4").
  reflexivity.
Defined.

(** On the open-failure path no [release] is called. *)
Lemma open_failure_releases_nothing :
  ~ (cap_released (snd (convert_to_16_9 closed_capture "in.mp4" "out.mp4" initial))
       = 1%nat /\
     out_released (snd (convert_to_16_9 closed_capture "in.mp4" "out.mp4" initial))
       = 1%nat).
Proof. cbn. intros [H _]. discriminate. Qed.

(** A loop that returns has read every frame it was given. *)
Lemma frame_loop_returns_all g width height frame_count frames :
  forall processed w,
  fst (frame_loop g width height frame_count frames processed w) = Ok tt ->
  delivered (snd (frame_loop g width height frame_count frames processed w)) =
    delivered w ++ frames.
Proof.
  induction frames as [|f rest IH]; intros processed w.
  - intros _. cbn. rewrite app_nil_r. reflexivity.
  - rewrite frame_loop_cons.
    destruct (composite g width height f) as [canvas|e]; [|discriminate].
    match goal with |- context [progress ?p ?c ?w1] =>
      pose proof (progress_keeps p c w1) as Hp;
      destruct (progress p c w1) as [[u|e] w2] end; [|discriminate].
    cbn [snd fst cap_deliver out_write delivered sink
         cap_released out_released] in Hp.
    destruct Hp as (H1 & _). intros Hok. rewrite (IH _ _ Hok), H1.
    rewrite <- app_assoc. reflexivity.
Qed.

(** A run on a source that opened: what it leaves when it returns and
    when it raises. *)
Lemma opened_run cap input_video output_video :
  cap_opened cap = true ->
  match convert_to_16_9 cap input_video output_video initial with
  | (Ok _, w) =>
      delivered w = cap_frames cap /\ sink w <> None /\
      cap_released w = 1%nat /\ out_released w = 1%nat
  | (Raise _, w) => cap_released w = 0%nat /\ out_released w = 0%nat
  end.
Proof.
  intros Hopen. unfold convert_to_16_9. rewrite Hopen. cbn [negb].
  unfold bindM at 1. unfold lift at 1.
  destruct (PyFloat.int_truediv (prop_width cap) (prop_height cap))
    as [cr|e]; [|cbn; auto].
  unfold bindM at 1. unfold lift at 1.
  destruct target_ratio as [tr|e]; [|cbn; auto].
  unfold bindM at 1. unfold lift at 1.
  destruct (new_dimensions (prop_width cap) (prop_height cap) cr tr)
    as [g|e]; [|cbn; auto].
  unfold bindM at 1. cbn [out_open].
  unfold bindM at 1. cbn [print].
  unfold bindM at 1. cbn [print].
  unfold bindM at 1. unfold lift at 1.
  destruct (PyFloat.int_truediv (new_width g) (new_height g))
    as [nr|e]; [|cbn; auto].
  unfold bindM at 1. cbn [print].
  cbn [stdout delivered sink cap_released out_released initial app].
  unfold bindM at 1.
  match goal with |- context [frame_loop ?g ?wd ?ht ?fc ?fr ?p ?w0] =>
    pose proof (frame_loop_resources g wd ht fc fr p w0) as Hres;
    pose proof (frame_loop_returns_all g wd ht fc fr p w0) as Hall;
    destruct (frame_loop g wd ht fc fr p w0) as [[u|e] w1]
  end;
    unfold same_resources in Hres;
    cbn [fst snd sink cap_released out_released delivered app] in Hres, Hall;
    destruct Hres as (R1 & R2 & R3).
  - unfold bindM, cap_release, out_release, print.
    cbn [fst snd stdout delivered sink cap_released out_released].
    rewrite R1, R2. destruct u. specialize (Hall eq_refl).
    repeat split; auto.
    intros Hnone. apply R3 in Hnone. discriminate.
  - auto.
Qed.

(** C8 (amended): when the source opens, the capture and the writer are
    released only once the frame loop has run to its end.  On a run that
    returns, the whole stream has been read, the writer exists, and each
    has been released exactly once; on a run that an exception ends, in
    the set-up or inside the loop, neither has been released.  When the
    source does not open the function returns with no writer
    constructed and no release called. *)
Theorem released_once_after_loop cap input_video output_video :
  let rw := convert_to_16_9 cap input_video output_video initial in
  if cap_opened cap then
    match fst rw with
    | Ok _ =>
        delivered (snd rw) = cap_frames cap /\
        sink (snd rw) <> None /\
        cap_released (snd rw) = 1%nat /\ out_released (snd rw) = 1%nat
    | Raise _ =>
        cap_released (snd rw) = 0%nat /\ out_released (snd rw) = 0%nat
    end
  else
    fst rw = Ok tt /\ sink (snd rw) = None /\
    cap_released (snd rw) = 0%nat /\ out_released (snd rw) = 0%nat.
Proof.
  cbv zeta. destruct (cap_opened cap) eqn:Hopen.
  - pose proof (opened_run cap input_video output_video Hopen) as H.
    destruct (convert_to_16_9 cap input_video output_video initial)
      as [[u|e] w]; exact H.
  - unfold convert_to_16_9. rewrite Hopen. cbn. repeat split; reflexivity.
Qed.

Example released_once_sample :
  let rw := convert_to_16_9 (sample_capture 2 2) "in.mp4" "out.mp4" initial in
  fst rw = Ok tt /\ cap_released (snd rw) = 1%nat /\ out_released (snd rw) = 1%nat.
Proof. vm_compute. repeat split; reflexivity. Qed.

(** C4 (the code fails it): with a reported frame count of zero and a
    stream of 101 frames, the loop ends in [ZeroDivisionError] after the
    100th frame: 100 frames are written, one is never read, and nothing
    is released. *)
Theorem zero_frame_count_truncates :
  let cap := sample_capture 0 101 in
  let rw := convert_to_16_9 cap "in.mp4" "out.mp4" initial in
  fst rw = Raise ZeroDivisionError /\
  List.length (cap_frames cap) = 101%nat /\
  List.length (delivered (snd rw)) = 100%nat /\
  option_map (fun o => List.length (wr_frames o)) (sink (snd rw)) = Some 100%nat /\
  cap_released (snd rw) = 0%nat /\ out_released (snd rw) = 0%nat.
Proof. vm_compute. repeat split; reflexivity. Qed.

(** C5 (the code fails it): with a reported frame count of zero the
    progress computation after the 100th frame raises
    [ZeroDivisionError]; with 99 frames, or with a non-zero count smaller
    than the stream, the run returns. *)
Theorem zero_frame_count_raises :
  fst (convert_to_16_9 (sample_capture 0 100) "in.mp4" "out.mp4" initial)
    = Raise ZeroDivisionError /\
  fst (convert_to_16_9 (sample_capture 0 99) "in.mp4" "out.mp4" initial)
    = Ok tt /\
  fst (convert_to_16_9 (sample_capture 50 100) "in.mp4" "out.mp4" initial)
    = Ok tt.
Proof. vm_compute. repeat split; reflexivity. Qed.

(** ** More about the runs of the compositor *)

Import RunSpec.

(** X1: the bars lie on one axis only and the picture is centred between
    them: the bar after the picture is as large as the bar before it, or
    one pixel larger. *)
Theorem bars_centred width height :
  0 < width < 2 ^ 31 -> 0 < height < 2 ^ 31 ->
  exists g, target_geometry width height = Ok g /\
    (new_width g = width \/ new_height g = height) /\
    h_padding g <= new_width g - width - h_padding g <= h_padding g + 1 /\
    v_padding g <= new_height g - height - v_padding g <= v_padding g + 1.
Proof.
  intros Hw Hh. exists (floor_geometry width height).
  split; [apply target_geometry_floor; assumption|].
  unfold floor_geometry.
  destruct (Z.ltb_spec (9 * width) (16 * height)) as [Hn|Hn];
    cbn [new_width new_height h_padding v_padding].
  - split; [right; reflexivity|].
    assert (width <= 16 * height / 9) by (apply Z.div_le_lower_bound; lia).
    split; [|lia].
    pose proof (Z.div_mod (16 * height / 9 - width) 2 ltac:(lia)).
    pose proof (Z.mod_pos_bound (16 * height / 9 - width) 2 ltac:(lia)). lia.
  - split; [left; reflexivity|].
    assert (height <= 9 * width / 16) by (apply Z.div_le_lower_bound; lia).
    split; [lia|].
    pose proof (Z.div_mod (9 * width / 16 - height) 2 ltac:(lia)).
    pose proof (Z.mod_pos_bound (9 * width / 16 - height) 2 ltac:(lia)). lia.
Qed.

Lemma bars_centred_640_480 :
  (0 < 640 < 2 ^ 31 /\ 0 < 480 < 2 ^ 31) /\
  exists g, target_geometry 640 480 = Ok g /\
    (new_width g = 640 \/ new_height g = 480) /\
    h_padding g <= new_width g - 640 - h_padding g <= h_padding g + 1 /\
    v_padding g <= new_height g - 480 - v_padding g <= v_padding g + 1.
Proof. split; [lia|]. apply (bars_centred 640 480); lia. Defined.


(** The rule leaves the size it produced as it is. *)
Lemma floor_geometry_fixed width height :
  0 < width -> 0 < height ->
  let g := floor_geometry width height in
  floor_geometry (new_width g) (new_height g) =
  {| new_width := new_width g; new_height := new_height g;
     h_padding := 0; v_padding := 0 |}.
Proof.
  intros Hw Hh. cbv zeta. unfold floor_geometry.
  destruct (Z.ltb_spec (9 * width) (16 * height)) as [Hn|Hn];
    cbn [new_width new_height h_padding v_padding].
  - pose proof (Z.div_mod (16 * height) 9 ltac:(lia)) as Hd.
    pose proof (Z.mod_pos_bound (16 * height) 9 ltac:(lia)) as Hm.
    destruct (Z.ltb_spec (9 * (16 * height / 9)) (16 * height)) as [Hs|Hs].
    + rewrite Z.sub_diag. reflexivity.
    + assert (E : 9 * (16 * height / 9) = 16 * height) by lia.
      assert (E2 : 9 * (16 * height / 9) / 16 = height).
      { rewrite E. rewrite Z.mul_comm. apply Z.div_mul. lia. }
      rewrite E2, Z.sub_diag. reflexivity.
  - pose proof (Z.div_mod (9 * width) 16 ltac:(lia)) as Hd.
    pose proof (Z.mod_pos_bound (9 * width) 16 ltac:(lia)) as Hm.
    destruct (Z.ltb_spec (9 * width) (16 * (9 * width / 16))) as [Hs|Hs]; [lia|].
    rewrite Z.sub_diag. reflexivity.
Qed.

Lemma floor_geometry_bounds width height :
  0 < width < 2 ^ 30 -> 0 < height < 2 ^ 30 ->
  let g := floor_geometry width height in
  0 < new_width g < 2 ^ 31 /\ 0 < new_height g < 2 ^ 31.
Proof.
  intros Hw Hh.
  pose proof (floor_geometry_grows width height ltac:(lia) ltac:(lia)) as Hg.
  cbv zeta in *. destruct Hg as (G1 & G2 & _).
  split; (split; [lia|]).
  - unfold floor_geometry. destruct (9 * width <? 16 * height);
      cbn [new_width]; [apply Z.div_lt_upper_bound; lia | lia].
  - unfold floor_geometry. destruct (9 * width <? 16 * height);
      cbn [new_height]; [lia | apply Z.div_lt_upper_bound; lia].
Qed.

(** X2: converting the output of a conversion changes nothing.  For a
    source that has the size the rule gave for some [width] by [height]
    picture, whose frames have that size and which reports a positive
    frame count, the rule gives that size again with no padding, the
    run returns, and the frames written are the frames of the stream,
    all of them and in their order. *)
Theorem second_pass_identity width height g cap input_video output_video :
  0 < width < 2 ^ 30 -> 0 < height < 2 ^ 30 ->
  target_geometry width height = Ok g ->
  cap_opened cap = true ->
  prop_width cap = new_width g -> prop_height cap = new_height g ->
  Forall (has_shape (prop_height cap) (prop_width cap)) (cap_frames cap) ->
  0 < prop_frame_count cap < 2 ^ 53 ->
  Z.of_nat (List.length (cap_frames cap)) < 2 ^ 53 ->
  target_geometry (prop_width cap) (prop_height cap) =
    Ok {| new_width := prop_width cap; new_height := prop_height cap;
          h_padding := 0; v_padding := 0 |} /\
  fst (convert_to_16_9 cap input_video output_video initial) = Ok tt /\
  exists o,
    sink (snd (convert_to_16_9 cap input_video output_video initial)) = Some o /\
    wr_size o = (prop_width cap, prop_height cap) /\
    wr_frames o = cap_frames cap.
Proof.
  intros Hw Hh Hg Hopen Ewidth Eheight Hshape Hc Hlen.
  rewrite target_geometry_floor in Hg by lia. apply Ok_inj in Hg. subst g.
  pose proof (floor_geometry_bounds width height Hw Hh) as [Bw Bh].
  pose proof (floor_geometry_fixed width height ltac:(lia) ltac:(lia)) as Hfix.
  cbv zeta in Bw, Bh, Hfix.
  rewrite <- Ewidth in Bw. rewrite <- Eheight in Bh.
  rewrite <- Ewidth, <- Eheight in Hfix.
  destruct (whole_stream_composited cap input_video output_video
              Hopen Bw Bh Hshape Hc Hlen)
    as (g2 & o & Hgeo & Hret & _ & Hs & Hsize & Hfr & _).
  rewrite target_geometry_floor in Hgeo by assumption.
  apply Ok_inj in Hgeo. rewrite Hfix in Hgeo. subst g2.
  split; [rewrite target_geometry_floor by assumption; rewrite Hfix; reflexivity|].
  split; [exact Hret|].
  exists o. split; [exact Hs|]. split; [exact Hsize|].
  rewrite Hfr. apply map_letterbox_identity. exact Hshape.
Qed.

Lemma second_pass_identity_sample :
  let g := {| new_width := 16; new_height := 9; h_padding := 3; v_padding := 0 |} in
  let cap := sample_capture 2 2 in
  (0 < 9 < 2 ^ 30 /\ target_geometry 9 9 = Ok g /\
   cap_opened cap = true /\
   prop_width cap = new_width g /\ prop_height cap = new_height g /\
   Forall (has_shape (prop_height cap) (prop_width cap)) (cap_frames cap) /\
   0 < prop_frame_count cap < 2 ^ 53 /\
   Z.of_nat (List.length (cap_frames cap)) < 2 ^ 53) /\
  target_geometry (prop_width cap) (prop_height cap) =
    Ok {| new_width := prop_width cap; new_height := prop_height cap;
          h_padding := 0; v_padding := 0 |} /\
  fst (convert_to_16_9 cap "in.mp4" "out.mp4" initial) = Ok tt /\
  exists o,
    sink (snd (convert_to_16_9 cap "in.mp4" "out.mp4" initial)) = Some o /\
    wr_size o = (prop_width cap, prop_height cap) /\
    wr_frames o = cap_frames cap.
Proof.
  cbv zeta.
  assert (Hg : target_geometry 9 9 =
               Ok {| new_width := 16; new_height := 9;
                     h_padding := 3; v_padding := 0 |}).
  { rewrite target_geometry_floor by lia. reflexivity. }
  assert (Hshape : Forall (has_shape 9 16) (cap_frames (sample_capture 2 2))).
  { repeat constructor. }
  split.
  - repeat split; try reflexivity; try (cbn; lia); assumption.
  - apply (second_pass_identity 9 9
             {| new_width := 16; new_height := 9; h_padding := 3; v_padding := 0 |}
             (sample_capture 2 2) "in.mp4" "out.mp4");
      try reflexivity; try (cbn; lia); assumption.
Defined.

(** X3: a source that opens and reports a height of zero ends the run in
    [ZeroDivisionError] at line 27, before the writer is constructed:
    nothing is printed, read, written or released. *)
Theorem zero_height_aborts cap input_video output_video :
  cap_opened cap = true -> prop_height cap = 0 ->
  convert_to_16_9 cap input_video output_video initial =
  (Raise ZeroDivisionError, initial).
Proof.
  intros Hopen Hzero. unfold convert_to_16_9. rewrite Hopen, Hzero. reflexivity.
Qed.

Lemma zero_height_aborts_sample :
  (cap_opened flat_capture = true /\ prop_height flat_capture = 0) /\
  convert_to_16_9 flat_capture "in.mp4" "out.mp4" initial =
  (Raise ZeroDivisionError, initial).
Proof.
  split; [split; reflexivity|].
  apply (zero_height_aborts flat_capture "in.mp4" "out.mp4"); reflexivity.
Defined.


(** Lines 72-74 for a frame count that is not zero. *)
Lemma progress_spec p fc w :
  0 < p < 2 ^ 53 -> 0 < fc < 2 ^ 53 ->
  exists body,
    progress p fc w =
      (Ok tt, {| stdout := stdout w ++ body; delivered := delivered w;
                 sink := sink w; cap_released := cap_released w;
                 out_released := out_released w |}) /\
    if p mod 100 =? 0 then exists percentage, body = [MsgProgress percentage p fc]
    else body = [].
Proof.
  intros Hp Hc. unfold progress.
  destruct (p mod 100 =? 0).
  - destruct (int_truediv_small p fc Hp Hc) as (q & Hq).
    unfold bindM, lift. rewrite Hq.
    unfold PyFloat.float_mul_int. rewrite of_int_small by lia. cbn [bind].
    eexists. split; [reflexivity|]. eexists. reflexivity.
  - exists []. rewrite app_nil_r. destruct w. split; reflexivity.
Qed.

Lemma shifted_seq p n :
  map (fun k => p + Z.of_nat k) (seq 2 n) =
  map (fun k => p + 1 + Z.of_nat k) (seq 1 n).
Proof.
  rewrite <- (seq_shift n 1), map_map. apply map_ext. intros k. lia.
Qed.

(** The lines the loop prints: one for every hundredth frame. *)
Lemma frame_loop_stdout g width height fc frames :
  0 < fc < 2 ^ 53 ->
  (forall f, In f frames ->
     composite g width height f = Ok (letterbox g width height f)) ->
  forall processed w,
  0 <= processed -> processed + Z.of_nat (List.length frames) < 2 ^ 53 ->
  exists body,
    stdout (snd (frame_loop g width height fc frames processed w)) =
      stdout w ++ body /\
    Forall2 (progress_line fc) body
      (filter (fun p => p mod 100 =? 0)
         (map (fun k => processed + Z.of_nat k) (seq 1 (List.length frames)))).
Proof.
  intros Hc. induction frames as [|f rest IH]; intros Hcomp processed w Hp Hlen.
  - exists []. cbn. rewrite app_nil_r. split; [reflexivity|constructor].
  - rewrite frame_loop_cons. rewrite (Hcomp f) by (left; reflexivity).
    cbn [List.length] in Hlen.
    match goal with |- context [progress ?p ?c ?w1] =>
      destruct (progress_spec p c w1 ltac:(lia) Hc) as (b1 & Hpr & Hb1);
      rewrite Hpr end.
    match goal with |- context [frame_loop _ _ _ _ _ _ ?w2] =>
      destruct (IH (fun f' Hin => Hcomp f' (or_intror Hin)) (processed + 1) w2
                  ltac:(lia) ltac:(lia)) as (b2 & Hout & Hb2)
    end.
    exists (b1 ++ b2). rewrite Hout.
    cbn [stdout snd cap_deliver out_write]. rewrite app_assoc.
    split; [reflexivity|].
    cbn [List.length seq map filter]. rewrite shifted_seq.
    replace (processed + Z.of_nat 1) with (processed + 1) by lia.
    destruct ((processed + 1) mod 100 =? 0).
    + destruct Hb1 as (pct & ->). cbn [app]. constructor; [|exact Hb2].
      exists pct. reflexivity.
    + subst b1. exact Hb2.
Qed.

Lemma hundreds_filter n :
  filter (fun p => p mod 100 =? 0) (map (fun k => 0 + Z.of_nat k) (seq 1 n)) =
  hundreds n.
Proof.
  unfold hundreds. induction n as [|n IH]; [reflexivity|].
  rewrite seq_S, map_app, filter_app, IH. cbn [map filter].
  replace (0 + Z.of_nat (1 + n)) with (Z.of_nat (S n)) by lia.
  destruct (Z.eqb_spec (Z.of_nat (S n) mod 100) 0) as [E|E].
  - assert (Hq : (S n / 100 = S (n / 100))%nat).
    { pose proof (Nat.div_mod_eq (S n) 100). pose proof (Nat.div_mod_eq n 100).
      pose proof (Nat.mod_upper_bound (S n) 100 ltac:(lia)).
      pose proof (Nat.mod_upper_bound n 100 ltac:(lia)).
      assert ((S n mod 100 = 0)%nat).
      { apply Nat2Z.inj. rewrite Nat2Z.inj_mod. exact E. }
      lia. }
    rewrite Hq, seq_S, map_app. cbn [map]. f_equal. f_equal.
    pose proof (Z.div_mod (Z.of_nat (S n)) 100 ltac:(lia)) as Hd.
    replace (1 + n / 100)%nat with (S n / 100)%nat by lia.
    rewrite Nat2Z.inj_div. change (Z.of_nat 100) with 100. lia.
  - assert (Hq : (S n / 100 = n / 100)%nat).
    { pose proof (Nat.div_mod_eq (S n) 100). pose proof (Nat.div_mod_eq n 100).
      pose proof (Nat.mod_upper_bound (S n) 100 ltac:(lia)).
      pose proof (Nat.mod_upper_bound n 100 ltac:(lia)).
      assert ((S n mod 100 <> 0)%nat).
      { intros H3. apply E. change 100 with (Z.of_nat 100).
        rewrite <- Nat2Z.inj_mod. rewrite H3. reflexivity. }
      lia. }
    rewrite Hq, app_nil_r. reflexivity.
Qed.

(** X6: a run that reports a positive frame count prints the three lines
    of the header, then one progress line after every hundredth frame
    (frames 100, 200, ... in this order, each with the reported count),
    then the closing line, and nothing else. *)
Theorem progress_every_hundred cap input_video output_video :
  cap_opened cap = true ->
  0 < prop_width cap < 2 ^ 31 -> 0 < prop_height cap < 2 ^ 31 ->
  Forall (has_shape (prop_height cap) (prop_width cap)) (cap_frames cap) ->
  0 < prop_frame_count cap < 2 ^ 53 ->
  Z.of_nat (List.length (cap_frames cap)) < 2 ^ 53 ->
  exists g current_ratio new_ratio body,
    target_geometry (prop_width cap) (prop_height cap) = Ok g /\
    stdout (snd (convert_to_16_9 cap input_video output_video initial)) =
      [MsgConverting;
       MsgOriginal (prop_width cap) (prop_height cap) current_ratio;
       MsgNew (new_width g) (new_height g) new_ratio]
      ++ body ++ [MsgComplete output_video] /\
    Forall2 (progress_line (prop_frame_count cap)) body
      (hundreds (List.length (cap_frames cap))).
Proof.
  intros Hopen Hwidth Hheight Hshape Hc Hlen.
  set (g := floor_geometry (prop_width cap) (prop_height cap)).
  destruct (convert_opened cap input_video output_video Hopen Hwidth Hheight)
    as (cr & nr & Hrun). fold g in Hrun.
  assert (Hcomp : forall f, In f (cap_frames cap) ->
            composite g (prop_width cap) (prop_height cap) f =
            Ok (letterbox g (prop_width cap) (prop_height cap) f)).
  { intros f Hf. rewrite Forall_forall in Hshape.
    apply composite_in_range; auto. }
  pose proof (frame_loop_completes g _ _ _ _ Hc Hcomp 0
                (started cap output_video g cr nr) ltac:(lia) ltac:(lia)) as Hok.
  destruct (frame_loop_stdout g _ _ _ _ Hc Hcomp 0
              (started cap output_video g cr nr) ltac:(lia) ltac:(lia))
    as (body & Hout & Hbody).
  rewrite hundreds_filter in Hbody.
  exists g, cr, nr, body.
  split; [apply target_geometry_floor; assumption|].
  split; [|exact Hbody].
  rewrite Hrun. clear Hrun.
  destruct (frame_loop g (prop_width cap) (prop_height cap)
              (prop_frame_count cap) (cap_frames cap) 0
              (started cap output_video g cr nr)) as [[u|e] w1];
    cbn [fst snd] in *; [|discriminate].
  cbn [finished stdout]. rewrite Hout. cbn [started stdout].
  rewrite <- app_assoc. reflexivity.
Qed.

Lemma sample_frames_shape frame_count n :
  Forall (has_shape 9 16) (cap_frames (sample_capture frame_count n)).
Proof.
  cbn [sample_capture cap_frames]. apply Forall_forall. intros f Hf.
  apply repeat_spec in Hf. subst f. repeat constructor.
Qed.

Lemma progress_every_hundred_sample :
  let cap := sample_capture 250 250 in
  (cap_opened cap = true /\
   0 < prop_width cap < 2 ^ 31 /\ 0 < prop_height cap < 2 ^ 31 /\
   Forall (has_shape (prop_height cap) (prop_width cap)) (cap_frames cap) /\
   0 < prop_frame_count cap < 2 ^ 53 /\
   Z.of_nat (List.length (cap_frames cap)) < 2 ^ 53) /\
  exists g current_ratio new_ratio body,
    target_geometry (prop_width cap) (prop_height cap) = Ok g /\
    stdout (snd (convert_to_16_9 cap "in.mp4" "out.mp4" initial)) =
      [MsgConverting;
       MsgOriginal (prop_width cap) (prop_height cap) current_ratio;
       MsgNew (new_width g) (new_height g) new_ratio]
      ++ body ++ [MsgComplete "out.mp4"] /\
    Forall2 (progress_line (prop_frame_count cap)) body
      (hundreds (List.length (cap_frames cap))).
Proof.
  cbv zeta.
  assert (Hlen : Z.of_nat (List.length (cap_frames (sample_capture 250 250))) < 2 ^ 53).
  { cbn [sample_capture cap_frames]. rewrite repeat_length. lia. }
  split.
  - repeat split; try reflexivity; try exact Hlen.
    apply sample_frames_shape.
  - apply (progress_every_hundred (sample_capture 250 250) "in.mp4" "out.mp4");
      try reflexivity; try (cbn; lia); try exact Hlen.
    apply sample_frames_shape.
Defined.


(** Line 65 on a frame of another size: numpy refuses the assignment. *)
Lemma composite_misshaped width height frame :
  0 < width < 2 ^ 31 -> 0 < height < 2 ^ 31 ->
  misshaped width height frame ->
  composite (floor_geometry width height) width height frame = Raise ValueError.
Proof.
  intros Hw Hh Hbad.
  pose proof (floor_geometry_grows width height ltac:(lia) ltac:(lia)) as Hg.
  cbv zeta in Hg. destruct Hg as (G1 & G2 & G3 & G4 & G5 & G6).
  set (g := floor_geometry width height) in *.
  unfold composite, zeros.
  replace ((new_height g <? 0) || (new_width g <? 0)) with false
    by (symmetry; apply orb_false_intro; apply Z.ltb_ge; lia).
  cbn [bind]. unfold assign. cbn [nd_rows nd_cols nd_data].
  rewrite !slice_length_inside by lia.
  unfold broadcastable.
  destruct Hbad as [[R1 R2] | [C1 C2]].
  - replace (nd_rows frame =? height) with false
      by (symmetry; apply Z.eqb_neq; exact R1).
    replace (nd_rows frame =? 1) with false
      by (symmetry; apply Z.eqb_neq; exact R2).
    reflexivity.
  - replace (nd_cols frame =? width) with false
      by (symmetry; apply Z.eqb_neq; exact C1).
    replace (nd_cols frame =? 1) with false
      by (symmetry; apply Z.eqb_neq; exact C2).
    rewrite andb_false_r. reflexivity.
Qed.

(** The loop up to a frame that cannot be composited. *)
Lemma frame_loop_stops g width height fc good bad rest e :
  0 < fc < 2 ^ 53 ->
  (forall f, In f good ->
     composite g width height f = Ok (letterbox g width height f)) ->
  composite g width height bad = Raise e ->
  forall processed w o, sink w = Some o ->
  0 <= processed -> processed + Z.of_nat (List.length good) < 2 ^ 53 ->
  let rw := frame_loop g width height fc (good ++ bad :: rest) processed w in
  fst rw = Raise e /\
  delivered (snd rw) = delivered w ++ good ++ [bad] /\
  sink (snd rw) = Some (add_frames o (map (letterbox g width height) good)) /\
  cap_released (snd rw) = cap_released w /\
  out_released (snd rw) = out_released w.
Proof.
  intros Hc Hcomp Hbad. cbv zeta.
  induction good as [|f good IH]; intros processed w o Ho Hp Hlen.
  - cbn [app]. rewrite frame_loop_cons, Hbad. cbn [fst snd cap_deliver map].
    cbn [delivered sink cap_released out_released].
    unfold add_frames. rewrite app_nil_r. destruct o; cbn in *.
    repeat split; auto.
  - cbn [app]. rewrite frame_loop_cons.
    rewrite (Hcomp f) by (left; reflexivity).
    cbn [List.length] in Hlen.
    match goal with |- context [progress ?p ?c ?w1] =>
      destruct (progress_spec p c w1 ltac:(lia) Hc) as (b1 & Hpr & _);
      rewrite Hpr end.
    match goal with |- context [frame_loop _ _ _ _ _ _ ?w2] =>
      destruct (IH (fun f' Hin => Hcomp f' (or_intror Hin)) (processed + 1) w2
                  (add_frames o [letterbox g width height f]))
        as (I1 & I2 & I3 & I4 & I5)
    end.
    + cbn [sink snd cap_deliver out_write]. rewrite Ho. reflexivity.
    + lia.
    + lia.
    + rewrite I1, I2, I3, I4, I5.
      cbn [delivered sink cap_released out_released snd cap_deliver out_write].
      unfold add_frames. cbn [wr_path wr_fourcc wr_fps wr_size wr_frames map].
      rewrite <- !app_assoc. cbn [app]. repeat split; reflexivity.
Qed.

(** X7: for a source that reports a positive frame count and delivers
    frames of the reported size followed by a frame of another size
    (one that cannot be broadcast to it), the run ends in [ValueError]
    at that frame: the frames before it were written, composited, in
    order; the frame itself was read and not written; nothing after it
    is read, and neither [release] is called. *)
Theorem misshaped_frame_stops_run cap input_video output_video good bad rest :
  cap_opened cap = true ->
  0 < prop_width cap < 2 ^ 31 -> 0 < prop_height cap < 2 ^ 31 ->
  0 < prop_frame_count cap < 2 ^ 53 ->
  cap_frames cap = good ++ bad :: rest ->
  Z.of_nat (List.length good) < 2 ^ 53 ->
  Forall (has_shape (prop_height cap) (prop_width cap)) good ->
  misshaped (prop_width cap) (prop_height cap) bad ->
  let rw := convert_to_16_9 cap input_video output_video initial in
  fst rw = Raise ValueError /\
  delivered (snd rw) = good ++ [bad] /\
  cap_released (snd rw) = 0%nat /\ out_released (snd rw) = 0%nat /\
  exists g o,
    target_geometry (prop_width cap) (prop_height cap) = Ok g /\
    sink (snd rw) = Some o /\
    Forall2 (composited g (prop_width cap) (prop_height cap)) good (wr_frames o).
Proof.
  intros Hopen Hwidth Hheight Hc Hframes Hlen Hshape Hbad. cbv zeta.
  set (g := floor_geometry (prop_width cap) (prop_height cap)).
  destruct (convert_opened cap input_video output_video Hopen Hwidth Hheight)
    as (cr & nr & Hrun). fold g in Hrun.
  rewrite Hframes in Hrun.
  assert (Hcomp : forall f, In f good ->
            composite g (prop_width cap) (prop_height cap) f =
            Ok (letterbox g (prop_width cap) (prop_height cap) f)).
  { intros f Hf. rewrite Forall_forall in Hshape.
    apply composite_in_range; auto. }
  pose proof (frame_loop_stops g _ _ _ good bad rest ValueError Hc Hcomp
                (composite_misshaped _ _ _ Hwidth Hheight Hbad) 0
                (started cap output_video g cr nr) _ eq_refl
                ltac:(lia) ltac:(lia)) as Hloop.
  cbv zeta in Hloop. destruct Hloop as (L1 & L2 & L3 & L4 & L5).
  rewrite Hrun. clear Hrun.
  destruct (frame_loop g (prop_width cap) (prop_height cap)
              (prop_frame_count cap) (good ++ bad :: rest) 0
              (started cap output_video g cr nr)) as [[u|e] w1];
    cbn [fst snd] in *; [discriminate|].
  split; [exact L1|]. split; [exact L2|]. split; [exact L4|]. split; [exact L5|].
  exists g. eexists. split; [apply target_geometry_floor; assumption|].
  split; [exact L3|].
  cbn [add_frames wr_frames app].
  apply Forall2_map_r. intros f Hf. rewrite Forall_forall in Hshape.
  apply letterbox_in_range; auto.
Qed.

Lemma misshaped_frame_stops_run_sample :
  let cap := mixed_capture in
  let good := [flat_frame 16 9 (x10, x20, x30)] in
  let bad := flat_frame 20 12 (x10, x20, x30) in
  let rest := [flat_frame 16 9 (x10, x20, x30)] in
  let rw := convert_to_16_9 cap "in.mp4" "out.mp4" initial in
  (cap_opened cap = true /\
   0 < prop_width cap < 2 ^ 31 /\ 0 < prop_height cap < 2 ^ 31 /\
   0 < prop_frame_count cap < 2 ^ 53 /\
   cap_frames cap = good ++ bad :: rest /\
   Z.of_nat (List.length good) < 2 ^ 53 /\
   Forall (has_shape (prop_height cap) (prop_width cap)) good /\
   misshaped (prop_width cap) (prop_height cap) bad) /\
  fst rw = Raise ValueError /\
  delivered (snd rw) = good ++ [bad] /\
  cap_released (snd rw) = 0%nat /\ out_released (snd rw) = 0%nat /\
  exists g o,
    target_geometry (prop_width cap) (prop_height cap) = Ok g /\
    sink (snd rw) = Some o /\
    Forall2 (composited g (prop_width cap) (prop_height cap)) good (wr_frames o).
Proof.
  cbv zeta.
  assert (Hshape : Forall (has_shape 9 16) [flat_frame 16 9 (x10, x20, x30)]).
  { repeat constructor. }
  assert (Hbad : misshaped 16 9 (flat_frame 20 12 (x10, x20, x30))).
  { left. cbn. split; discriminate. }
  split.
  - repeat split; try reflexivity; try (cbn; lia); try exact Hshape.
    exact Hbad.
  - apply (misshaped_frame_stops_run mixed_capture "in.mp4" "out.mp4"
             [flat_frame 16 9 (x10, x20, x30)]
             (flat_frame 20 12 (x10, x20, x30))
             [flat_frame 16 9 (x10, x20, x30)]);
      try reflexivity; try (cbn; lia); try exact Hshape.
    exact Hbad.
Defined.


(** The writer of the loop is the writer it started with, with more frames. *)
Lemma frame_loop_sink g width height fc frames :
  forall processed w o, sink w = Some o ->
  exists l,
    sink (snd (frame_loop g width height fc frames processed w)) =
    Some (add_frames o l).
Proof.
  induction frames as [|f rest IH]; intros processed w o Ho.
  - exists []. cbn. rewrite Ho. unfold add_frames. rewrite app_nil_r.
    destruct o; reflexivity.
  - rewrite frame_loop_cons.
    destruct (composite g width height f) as [canvas|e].
    + match goal with |- context [progress ?p ?c ?w1] =>
        pose proof (progress_keeps p c w1) as Hp;
        destruct (progress p c w1) as [[u|e] w2] end.
      all: cbn [snd fst cap_deliver out_write delivered sink
                cap_released out_released] in Hp;
        destruct Hp as (_ & H2 & _); rewrite Ho in H2.
      * destruct (IH (processed + 1) w2 _ H2) as (l & Hl).
        exists (canvas :: l). rewrite Hl. unfold add_frames.
        cbn [wr_path wr_fourcc wr_fps wr_size wr_frames].
        rewrite <- app_assoc. reflexivity.
      * exists [canvas]. cbn [snd]. rewrite H2. reflexivity.
    + exists []. cbn [snd cap_deliver sink]. rewrite Ho. unfold add_frames.
      rewrite app_nil_r. destruct o; reflexivity.
Qed.

(** X4: whatever the frames are and however the loop ends, the writer is
    constructed once, for the output path, with the codec [mp4v], the
    frame rate of the source and the size the rule gives. *)
Theorem writer_settings cap input_video output_video :
  cap_opened cap = true ->
  0 < prop_width cap < 2 ^ 31 -> 0 < prop_height cap < 2 ^ 31 ->
  exists g o,
    target_geometry (prop_width cap) (prop_height cap) = Ok g /\
    sink (snd (convert_to_16_9 cap input_video output_video initial)) = Some o /\
    wr_path o = output_video /\ wr_fourcc o = "mp4v"%string /\
    wr_fps o = prop_fps cap /\ wr_size o = (new_width g, new_height g).
Proof.
  intros Hopen Hwidth Hheight.
  set (g := floor_geometry (prop_width cap) (prop_height cap)).
  destruct (convert_opened cap input_video output_video Hopen Hwidth Hheight)
    as (cr & nr & Hrun). fold g in Hrun.
  destruct (frame_loop_sink g (prop_width cap) (prop_height cap)
              (prop_frame_count cap) (cap_frames cap) 0
              (started cap output_video g cr nr) _ eq_refl) as (l & Hl).
  rewrite Hrun. clear Hrun.
  destruct (frame_loop g (prop_width cap) (prop_height cap)
              (prop_frame_count cap) (cap_frames cap) 0
              (started cap output_video g cr nr)) as [[u|e] w1];
    cbn [fst snd finished sink] in *;
    exists g; eexists; (split; [apply target_geometry_floor; assumption|]);
    (split; [exact Hl|]); cbn; auto.
Qed.

Lemma writer_settings_sample :
  let cap := sample_capture 2 2 in
  (cap_opened cap = true /\
   0 < prop_width cap < 2 ^ 31 /\ 0 < prop_height cap < 2 ^ 31) /\
  exists g o,
    target_geometry (prop_width cap) (prop_height cap) = Ok g /\
    sink (snd (convert_to_16_9 cap "in.mp4" "out.mp4" initial)) = Some o /\
    wr_path o = "out.mp4"%string /\ wr_fourcc o = "mp4v"%string /\
    wr_fps o = prop_fps cap /\ wr_size o = (new_width g, new_height g).
Proof.
  cbv zeta. split.
  - repeat split; try reflexivity.
  - apply (writer_settings (sample_capture 2 2) "in.mp4" "out.mp4");
      try reflexivity; cbn; lia.
Defined.

Lemma conversion_completes_sample :
  let cap := sample_capture 2 2 in
  (cap_opened cap = true /\
   0 < prop_width cap < 2 ^ 31 /\ 0 < prop_height cap < 2 ^ 31 /\
   Forall (has_shape (prop_height cap) (prop_width cap)) (cap_frames cap) /\
   0 < prop_frame_count cap < 2 ^ 53 /\
   Z.of_nat (List.length (cap_frames cap)) < 2 ^ 53) /\
  fst (convert_to_16_9 cap "in.mp4" "out.mp4" initial) = Ok tt /\
  delivered (snd (convert_to_16_9 cap "in.mp4" "out.mp4" initial))
    = cap_frames cap /\
  option_map (fun o => List.length (wr_frames o))
    (sink (snd (convert_to_16_9 cap "in.mp4" "out.mp4" initial)))
    = Some (List.length (cap_frames cap)).
Proof.
  cbv zeta. split.
  - repeat split; try reflexivity. apply sample_frames_shape.
  - apply (conversion_completes (sample_capture 2 2) "in.mp4" "out.mp4");
      try reflexivity; try (cbn; lia). apply sample_frames_shape.
Defined.

(** ** Frames lost to a frame count of zero *)

(** C3 (the code fails it): a 12 by 9 source that reports a frame count
    of zero and delivers 101 frames.  The canvas is 16 by 9 with the
    picture two columns in; the first 100 frames reach the writer, each
    on its canvas and in order; then line 73 divides by zero, and the
    101st frame is never read and has no emitted frame. *)
Theorem zero_frame_count_drops_frame :
  let cap := narrow_capture 0 101 in
  let g := {| new_width := 16; new_height := 9; h_padding := 2; v_padding := 0 |} in
  let rw := convert_to_16_9 cap "in.mp4" "out.mp4" initial in
  target_geometry (prop_width cap) (prop_height cap) = Ok g /\
  fst rw = Raise ZeroDivisionError /\
  List.length (cap_frames cap) = 101%nat /\
  delivered (snd rw) = firstn 100 (cap_frames cap) /\
  option_map wr_frames (sink (snd rw)) =
    Some (map (letterbox g (prop_width cap) (prop_height cap))
            (firstn 100 (cap_frames cap))).
Proof. vm_compute. repeat split; reflexivity. Qed.

(** C6 (the code fails it): a 16 by 9 source that reports a frame count
    of zero and delivers 101 frames.  The size is kept and nothing is
    padded, but the run is not a no-op on the content: the first 100
    frames are written as they are, then line 73 divides by zero and
    the 101st frame is lost. *)
Theorem zero_frame_count_breaks_no_op :
  let cap := sample_capture 0 101 in
  let rw := convert_to_16_9 cap "in.mp4" "out.mp4" initial in
  9 * prop_width cap = 16 * prop_height cap /\
  target_geometry (prop_width cap) (prop_height cap) =
    Ok {| new_width := prop_width cap; new_height := prop_height cap;
          h_padding := 0; v_padding := 0 |} /\
  fst rw = Raise ZeroDivisionError /\
  List.length (cap_frames cap) = 101%nat /\
  option_map wr_frames (sink (snd rw)) = Some (firstn 100 (cap_frames cap)).
Proof. vm_compute. repeat split; reflexivity. Qed.

(** ** The download wrapper *)

Import Download DownloadSamples.

Lemma with_exit_Ok_inv {A} exit (body : M (list message) A) out a out' :
  with_exit exit body out = (Ok a, out') -> body out = (Ok a, out').
Proof.
  unfold with_exit. destruct (body out) as [r o]. destruct exit; congruence.
Qed.

Lemma lift_Ok_inv {S A} (r : result A) (s s' : S) a :
  lift r s = (Ok a, s') -> r = Ok a /\ s' = s.
Proof. unfold lift. intros H. split; congruence. Qed.

Lemma ret_Ok_inv {S A} (x a : A) (s s' : S) :
  ret x s = (Ok a, s') -> x = a /\ s' = s.
Proof. unfold ret. intros H. split; congruence. Qed.

Lemma session_returns e url dir out output_file out' :
  session e url dir out = (Ok output_file, out') ->
  exists i, extract_info e url = Ok (Some i) /\
    output_file = path_join dir (str_of (get (title i) (Some "video"%string)) ++ ".mp4").
Proof.
  unfold session. intros H.
  apply bindM_Ok_inv in H. destruct H as (oi & s1 & Hi & H).
  apply lift_Ok_inv in Hi. destruct Hi as [Hi _].
  apply bindM_Ok_inv in H. destruct H as (i & s2 & Hsome & H).
  apply lift_Ok_inv in Hsome. destruct Hsome as [Hsome _].
  destruct oi as [i'|]; [|discriminate]. apply Ok_inj in Hsome. subst i'.
  exists i. split; [exact Hi|].
  unbind H.
  apply ret_Ok_inv in H. destruct H as [H _]. symmetry. exact H.
Qed.

Lemma attempt_returns e url output_path use_cookies browser out output_file out' :
  attempt e url output_path use_cookies browser out = (Ok output_file, out') ->
  exists dir i,
    (falsy output_path = false /\ output_path = Some dir \/
     falsy output_path = true /\ getcwd e = Ok dir) /\
    extract_info e url = Ok (Some i) /\
    output_file = path_join dir (str_of (get (title i) (Some "video"%string)) ++ ".mp4").
Proof.
  unfold attempt. intros H.
  apply bindM_Ok_inv in H. destruct H as (dir & s1 & Hdir & H).
  assert (Hd : falsy output_path = false /\ output_path = Some dir \/
               falsy output_path = true /\ getcwd e = Ok dir).
  { destruct (falsy output_path) eqn:Hf.
    - right. apply lift_Ok_inv in Hdir. tauto.
    - left. apply ret_Ok_inv in Hdir. destruct Hdir as [<- _].
      destruct output_path; [split; reflexivity | discriminate]. }
  unbind H.
  apply with_exit_Ok_inv in H. apply session_returns in H.
  destruct H as (i & Hi & Hf). exists dir, i. tauto.
Qed.


(** ** [format_size] *)

Import DownloadSpec.

Lemma rne_div_exact c D : 0 < D -> rne_div (c * D) D = c.
Proof.
  intros HD. unfold rne_div. rewrite Z.div_mul, Z.mod_mul by lia.
  replace (2 * 0 ?= D) with Lt by (symmetry; apply Z.compare_lt_iff; lia).
  reflexivity.
Qed.

Lemma div_kilo m e :
  2 ^ 52 <= Zpos m < 2 ^ 53 -> -1000 <= e <= 900 ->
  SFdiv PyFloat.prec PyFloat.emax (S754_finite false m e) Download.kilo =
  S754_finite false m (e - 10).
Proof.
  intros Hm He. unfold Download.kilo, PyFloat.prec, PyFloat.emax.
  rewrite SFdiv_canonical by lia.
  replace (Z.pos m <? 4503599627370496) with false
    by (symmetry; apply Z.ltb_ge; lia).
  change (2 ^ 1 * 4503599627370496) with (2 ^ 53).
  rewrite rne_div_exact by lia.
  rewrite renorm_small by lia. rewrite Pos2Z.id. f_equal. lia.
Qed.

Lemma ltb_kilo m e :
  2 ^ 52 <= Zpos m < 2 ^ 53 ->
  SFltb (S754_finite false m e) Download.kilo = (e <? -42).
Proof.
  intros Hm. unfold Download.kilo. rewrite SFltb_finite_pos.
  replace (Z.pos m <? 4503599627370496) with false
    by (symmetry; apply Z.ltb_ge; lia).
  rewrite andb_false_r, orb_false_r. reflexivity.
Qed.

Lemma digits_below n k :
  0 < n -> 0 <= k -> (n < 2 ^ k <-> Zdigits2 n <= k).
Proof.
  intros Hn Hk. pose proof (Zdigits2_bounds n Hn) as [Hlo Hhi].
  assert (Hd : 0 < Zdigits2 n) by (destruct n; simpl; lia).
  split; intros H.
  - destruct (Z.leb_spec (Zdigits2 n) k); auto.
    assert (2 ^ k <= 2 ^ (Zdigits2 n - 1)) by (apply Z.pow_le_mono_r; lia). lia.
  - assert (2 ^ Zdigits2 n <= 2 ^ k) by (apply Z.pow_le_mono_r; lia). lia.
Qed.

Lemma canon_exact n k :
  0 < n < 2 ^ 53 -> 0 <= k ->
  exact_quotient (S754_finite false (Z.to_pos (canon n)) (Zdigits2 n - 53 - 10 * k))
    n (1024 ^ k).
Proof.
  intros Hn Hk. pose proof (canon_range n Hn) as Hc.
  pose proof (proj1 (digits_below n 53 ltac:(lia) ltac:(lia)) ltac:(lia)) as Hd.
  assert (Hd0 : 0 < Zdigits2 n) by (destruct n; simpl; lia).
  unfold exact_quotient.
  destruct (Z.ltb_spec (Zdigits2 n - 53 - 10 * k) 0) as [Hneg | Hnn].
  - rewrite Z2Pos.id by lia. unfold canon.
    replace (- (Zdigits2 n - 53 - 10 * k)) with ((53 - Zdigits2 n) + 10 * k) by lia.
    rewrite Z.pow_add_r by lia.
    replace (1024 ^ k) with (2 ^ (10 * k)).
    + lia.
    + rewrite Z.pow_mul_r by lia. reflexivity.
  - assert (k = 0) by lia. assert (Zdigits2 n = 53) by lia. subst k.
    rewrite Z2Pos.id by lia. unfold canon.
    replace (Zdigits2 n - 53 - 10 * 0) with 0 by lia.
    replace (53 - Zdigits2 n) with 0 by lia. simpl. lia.
Qed.

(** X8: for a size below [2^53] bytes [format_size] picks the unit by the
    powers of 1024 ([B] below [2^10], [KB] below [2^20], [MB] below
    [2^30], [GB] below [2^40], [TB] from there on), and the number it
    formats is the size divided by that power of 1024, exactly: the
    repeated division loses nothing. *)
Theorem format_size_exact bytes :
  0 <= bytes < 2 ^ 53 ->
  exists v,
    Download.format_size bytes =
      Ok (v, nth (size_rank bytes) ["B"; "KB"; "MB"; "GB"; "TB"]%string EmptyString) /\
    exact_quotient v bytes (1024 ^ Z.of_nat (size_rank bytes)).
Proof.
  intros Hb. unfold Download.format_size, size_rank.
  destruct (Z.ltb_spec bytes 1024) as [H10 | H10].
  - replace (bytes <? 2 ^ 10) with true by (symmetry; apply Z.ltb_lt; lia).
    destruct (Z.eq_dec bytes 0) as [-> | Hnz].
    + eexists. split; [reflexivity|]. reflexivity.
    + rewrite of_int_small by lia. cbn [bind nth]. eexists. split; [reflexivity|].
      pose proof (canon_exact bytes 0 ltac:(lia) ltac:(lia)) as H.
      replace (Zdigits2 bytes - 53 - 10 * 0) with (Zdigits2 bytes - 53) in H by lia.
      exact H.
  - replace (bytes <? 2 ^ 10) with false by (symmetry; apply Z.ltb_ge; lia).
    pose proof (canon_range bytes ltac:(lia)) as Hc.
    assert (Hd0 : 0 < Zdigits2 bytes) by (destruct bytes; simpl; lia).
    pose proof (proj1 (digits_below bytes 53 ltac:(lia) ltac:(lia)) ltac:(lia)) as Hd53.
    unfold PyFloat.int_truediv.
    replace (1024 =? 0) with false by reflexivity.
    rewrite of_int_small by lia.
    replace (PyFloat.of_int 1024) with (Ok Download.kilo) by reflexivity.
    cbn [bind]. rewrite div_kilo by (rewrite ?Z2Pos.id; lia).
    cbn [Download.format_size_units].
    rewrite ltb_kilo by (rewrite Z2Pos.id; lia).
    pose proof (digits_below bytes 20 ltac:(lia) ltac:(lia)) as D20.
    pose proof (digits_below bytes 30 ltac:(lia) ltac:(lia)) as D30.
    pose proof (digits_below bytes 40 ltac:(lia) ltac:(lia)) as D40.
    destruct (Z.ltb_spec bytes (2 ^ 20)) as [H20 | H20].
    { replace (Zdigits2 bytes - 53 - 10 <? -42) with true
        by (symmetry; apply Z.ltb_lt; lia).
      eexists. split; [reflexivity|].
      apply (canon_exact bytes 1); lia. }
    replace (Zdigits2 bytes - 53 - 10 <? -42) with false
      by (symmetry; apply Z.ltb_ge; lia).
    rewrite div_kilo by (rewrite ?Z2Pos.id; lia).
    rewrite ltb_kilo by (rewrite Z2Pos.id; lia).
    destruct (Z.ltb_spec bytes (2 ^ 30)) as [H30 | H30].
    { replace (Zdigits2 bytes - 53 - 10 - 10 <? -42) with true
        by (symmetry; apply Z.ltb_lt; lia).
      eexists. split; [reflexivity|].
      replace (Zdigits2 bytes - 53 - 10 - 10) with (Zdigits2 bytes - 53 - 10 * 2) by lia.
      apply (canon_exact bytes 2); lia. }
    replace (Zdigits2 bytes - 53 - 10 - 10 <? -42) with false
      by (symmetry; apply Z.ltb_ge; lia).
    rewrite div_kilo by (rewrite ?Z2Pos.id; lia).
    rewrite ltb_kilo by (rewrite Z2Pos.id; lia).
    destruct (Z.ltb_spec bytes (2 ^ 40)) as [H40 | H40].
    { replace (Zdigits2 bytes - 53 - 10 - 10 - 10 <? -42) with true
        by (symmetry; apply Z.ltb_lt; lia).
      eexists. split; [reflexivity|].
      replace (Zdigits2 bytes - 53 - 10 - 10 - 10) with (Zdigits2 bytes - 53 - 10 * 3) by lia.
      apply (canon_exact bytes 3); lia. }
    replace (Zdigits2 bytes - 53 - 10 - 10 - 10 <? -42) with false
      by (symmetry; apply Z.ltb_ge; lia).
    rewrite div_kilo by (rewrite ?Z2Pos.id; lia).
    eexists. split; [reflexivity|].
    replace (Zdigits2 bytes - 53 - 10 - 10 - 10 - 10) with (Zdigits2 bytes - 53 - 10 * 4) by lia.
    apply (canon_exact bytes 4); lia.
Qed.

Lemma format_size_exact_sample :
  0 <= 123456789 < 2 ^ 53 /\
  exists v,
    Download.format_size 123456789 =
      Ok (v, nth (size_rank 123456789) ["B"; "KB"; "MB"; "GB"; "TB"]%string
               EmptyString) /\
    exact_quotient v 123456789 (1024 ^ Z.of_nat (size_rank 123456789)).
Proof. split; [lia|]. apply (format_size_exact 123456789). lia. Defined.

(** ** The choice of the best format *)

Lemma quality_key_numbers f :
  keys_are_numbers f ->
  quality_key f = (Some (number (height f)), Some (number (filesize f))).
Proof.
  intros [Hh Hs]. unfold quality_key.
  destruct (height f), (filesize f); cbn; congruence.
Qed.

Lemma pair_gt_numbers f g :
  keys_are_numbers f -> keys_are_numbers g ->
  exists b, pair_gt (quality_key f) (quality_key g) = Ok b /\
    (b = true <-> ranks_below g f).
Proof.
  intros Hf Hg. rewrite !quality_key_numbers by assumption.
  unfold pair_gt, ranks_below. cbn [fst snd value_eqb value_gt].
  destruct (Z.eqb_spec (number (height f)) (number (height g))) as [Eh|Nh].
  - destruct (Z.eqb_spec (number (filesize f)) (number (filesize g))) as [Es|Ns].
    + exists false. split; [reflexivity|]. split; [discriminate|]. lia.
    + eexists. split; [reflexivity|]. rewrite Z.ltb_lt. lia.
  - eexists. split; [reflexivity|]. rewrite Z.ltb_lt. lia.
Qed.

(** The scan of [max]: the result is the first format of [best :: l] that
    no other one outranks. *)
Lemma max_from_numbers l :
  forall best, keys_are_numbers best -> Forall keys_are_numbers l ->
  exists pre b post,
    best :: l = pre ++ b :: post /\ max_from best l = Ok b /\
    Forall (fun f => ranks_below f b) pre /\
    Forall (fun f => ~ ranks_below b f) post.
Proof.
  induction l as [|f l IH]; intros best Hb Hl.
  - exists [], best, []. cbn. repeat split; constructor.
  - inversion Hl as [|? ? Hf Hl']; subst.
    destruct (pair_gt_numbers f best Hf Hb) as (gt & Hgt & Hiff).
    cbn [max_from]. rewrite Hgt. cbn [bind].
    destruct gt.
    + destruct (IH f Hf Hl') as (pre & b & post & Hsplit & Hmax & Hpre & Hpost).
      assert (Hbf : ranks_below best f) by (apply Hiff; reflexivity).
      exists (best :: pre), b, post. rewrite Hsplit. split; [reflexivity|].
      split; [exact Hmax|]. split; [|exact Hpost].
      constructor; [|exact Hpre].
      (* best < f <= b *)
      assert (Hfb : f = b \/ ranks_below f b).
      { destruct pre as [|p pre'].
        - cbn in Hsplit. injection Hsplit as -> _. left; reflexivity.
        - cbn in Hsplit. injection Hsplit as <- _.
          inversion Hpre; subst. right. assumption. }
      destruct Hfb as [<- | Hfb]; [exact Hbf|].
      unfold ranks_below in *. lia.
    + destruct (IH best Hb Hl') as (pre & b & post & Hsplit & Hmax & Hpre & Hpost).
      assert (Hnf : ~ ranks_below best f).
      { intros H. apply Hiff in H. discriminate. }
      destruct pre as [|p pre'].
      * cbn in Hsplit. injection Hsplit as <- <-.
        exists [], best, (f :: l). cbn [app]. repeat split; auto.
      * cbn in Hsplit. injection Hsplit as <- Hl2.
        exists (best :: f :: pre'), b, post. cbn [app].
        split; [rewrite Hl2; reflexivity|]. split; [exact Hmax|]. split; [|exact Hpost].
        inversion Hpre as [|? ? Hbb Hpre']; subst.
        constructor; [exact Hbb|]. constructor; [|exact Hpre'].
        unfold ranks_below in *. lia.
Qed.

(** X9: when no candidate has a height or a file size of [None],
    [best_format] never raises: it returns [None] when no format has a
    video codec, and otherwise the first of the candidates that no
    other one outranks, by height and then by file size, an absent key
    counting as zero. *)
Theorem best_format_first_maximal l :
  Forall (fun f => is_video f = true -> keys_are_numbers f) l ->
  match filter is_video l with
  | [] => best_format l = Ok None
  | _ :: _ =>
      exists pre b post,
        filter is_video l = pre ++ b :: post /\
        best_format l = Ok (Some b) /\
        Forall (fun f => ranks_below f b) pre /\
        Forall (fun f => ~ ranks_below b f) post
  end.
Proof.
  intros Hl. unfold best_format. fold is_video.
  assert (Hc : Forall keys_are_numbers (filter is_video l)).
  { rewrite Forall_forall in *. intros f Hf. apply filter_In in Hf.
    destruct Hf as [Hin Hv]. auto. }
  destruct (filter is_video l) as [|c cs]; [reflexivity|].
  inversion Hc as [|? ? Hc0 Hcs]; subst.
  destruct (max_from_numbers cs c Hc0 Hcs) as (pre & b & post & Hsplit & Hmax & Hpre & Hpost).
  exists pre, b, post. rewrite Hmax. cbn [bind]. auto.
Qed.

Lemma best_format_first_maximal_sample :
  Forall (fun f => is_video f = true -> keys_are_numbers f) sample_formats /\
  match filter is_video sample_formats with
  | [] => best_format sample_formats = Ok None
  | _ :: _ =>
      exists pre b post,
        filter is_video sample_formats = pre ++ b :: post /\
        best_format sample_formats = Ok (Some b) /\
        Forall (fun f => ranks_below f b) pre /\
        Forall (fun f => ~ ranks_below b f) post
  end.
Proof.
  assert (H : Forall (fun f => is_video f = true -> keys_are_numbers f)
                sample_formats).
  { repeat constructor; cbn; discriminate. }
  split; [exact H|]. apply (best_format_first_maximal sample_formats). exact H.
Defined.


Lemma pair_gt_heights f g b :
  pair_gt (quality_key f) (quality_key g) = Ok b ->
  null_height f = null_height g.
Proof.
  unfold pair_gt, quality_key, null_height. cbn [fst snd].
  destruct (height f), (height g); cbn; try reflexivity; try discriminate.
  all: destruct (filesize f), (filesize g); cbn; try discriminate.
  all: try (destruct (_ =? _); discriminate).
Qed.

Lemma pair_gt_raises a b e : pair_gt a b = Raise e -> e = TypeError.
Proof.
  unfold pair_gt, value_gt. destruct a as [[?|] [?|]], b as [[?|] [?|]]; cbn;
    repeat match goal with |- context [if ?c then _ else _] => destruct c end;
    congruence.
Qed.

Lemma max_from_raises l : forall best e, max_from best l = Raise e -> e = TypeError.
Proof.
  induction l as [|f l IH]; intros best e; cbn [max_from]; [discriminate|].
  destruct (pair_gt (quality_key f) (quality_key best)) as [gt|x] eqn:Hgt; cbn [bind].
  - apply IH.
  - intros H. injection H as <-. eapply pair_gt_raises. exact Hgt.
Qed.

Lemma max_from_heights l :
  forall best b, max_from best l = Ok b ->
  null_height b = null_height best /\
  Forall (fun f => null_height f = null_height best) l.
Proof.
  induction l as [|f l IH]; intros best b; cbn [max_from].
  - intros H. injection H as <-. split; [reflexivity|constructor].
  - destruct (pair_gt (quality_key f) (quality_key best)) as [gt|x] eqn:Hgt;
      cbn [bind]; [|discriminate].
    apply pair_gt_heights in Hgt. intros H. apply IH in H.
    destruct H as [Hb Hl].
    assert (Hn : null_height (if gt then f else best) = null_height best)
      by (destruct gt; congruence).
    rewrite Hn in Hb, Hl. split; [exact Hb|]. constructor; [exact Hgt|exact Hl].
Qed.

(** X10: when one candidate has a height of [None] and another has a
    height that is not [None], the comparison of their keys fails:
    [best_format] raises [TypeError]. *)
Theorem best_format_null_height l f g :
  In f l -> is_video f = true -> height f = PyNone ->
  In g l -> is_video g = true -> height g <> PyNone ->
  best_format l = Raise TypeError.
Proof.
  intros Hf Vf Nf Hg Vg Ng. unfold best_format. fold is_video.
  assert (Hfc : In f (filter is_video l)) by (apply filter_In; auto).
  assert (Hgc : In g (filter is_video l)) by (apply filter_In; auto).
  destruct (filter is_video l) as [|c cs]; [contradiction|].
  destruct (max_from c cs) as [b|e] eqn:Hmax; cbn [bind].
  - exfalso. apply max_from_heights in Hmax. destruct Hmax as [_ Hall].
    rewrite Forall_forall in Hall.
    assert (Hnf : null_height f = null_height c)
      by (destruct Hfc as [<-|H]; [reflexivity|auto]).
    assert (Hng : null_height g = null_height c)
      by (destruct Hgc as [<-|H]; [reflexivity|auto]).
    unfold null_height in Hnf, Hng. rewrite Nf in Hnf.
    destruct (height g); try congruence; destruct (height c); congruence.
  - apply max_from_raises in Hmax. subst e. reflexivity.
Qed.

Lemma best_format_null_height_sample :
  (In null_format [sized_format; null_format] /\
   is_video null_format = true /\ height null_format = PyNone /\
   In sized_format [sized_format; null_format] /\
   is_video sized_format = true /\ height sized_format <> PyNone) /\
  best_format [sized_format; null_format] = Raise TypeError.
Proof.
  assert (Hn : In null_format [sized_format; null_format])
    by (right; left; reflexivity).
  assert (Hs : In sized_format [sized_format; null_format])
    by (left; reflexivity).
  assert (Hh : height sized_format <> PyNone) by (cbn; discriminate).
  split.
  - repeat split; try reflexivity; assumption.
  - apply (best_format_null_height [sized_format; null_format]
             null_format sized_format); try reflexivity; assumption.
Defined.

(** ** More about [download_video] *)

Lemma print_inv m (out : list message) a out' :
  print m out = (Ok a, out') -> out' = out ++ [m].
Proof. unfold print. congruence. Qed.

Lemma string_app_assoc (a b c : string) : ((a ++ b) ++ c = a ++ b ++ c)%string.
Proof. induction a as [|x a IH]; cbn; [reflexivity|]. rewrite IH. reflexivity. Qed.

Lemma path_join_ends a p : ends_with (path_join a p) p.
Proof.
  unfold path_join, ends_with.
  destruct (String.prefix "/" p).
  - exists EmptyString. reflexivity.
  - destruct (String.eqb a EmptyString || ends_with_slash a).
    + exists a. reflexivity.
    + exists (a ++ "/")%string. rewrite string_app_assoc. reflexivity.
Qed.

Lemma ends_with_app s t u : ends_with s (t ++ u) -> ends_with s u.
Proof.
  intros (pre & ->). exists (pre ++ t)%string. rewrite string_app_assoc. reflexivity.
Qed.

Lemma ends_with_nonempty s c u : ends_with s (String c u) -> s <> EmptyString.
Proof.
  intros (pre & ->). destruct pre; discriminate.
Qed.

(** A session that returns has downloaded, and says so last. *)
Lemma session_success e url dir out output_file out' :
  session e url dir out = (Ok output_file, out') ->
  ydl_download e url = Ok tt /\
  exists pre, out' = pre ++ [MsgCompleted; MsgSavedTo output_file].
Proof.
  unfold session. intros H. unbind H.
  apply ret_Ok_inv in H. destruct H as [<- <-].
  repeat match goal with
         | Hp : print _ _ = (Ok _, _) |- _ => apply print_inv in Hp
         end.
  subst.
  match goal with
  | Hd : lift (ydl_download e url) _ = (Ok ?u, _) |- _ =>
      apply lift_Ok_inv in Hd; destruct Hd as [Hd _]; destruct u
  end.
  split; [assumption|].
  eexists. rewrite <- app_assoc. reflexivity.
Qed.

Lemma download_video_Ok_inv e url output_path use_cookies browser out s out' :
  download_video e url output_path use_cookies browser out = (Ok s, out') ->
  attempt e url output_path use_cookies browser out = (Ok s, out') \/
  exists x pre,
    attempt e url output_path use_cookies browser out = (Raise x, pre) /\
    is_exception x = true /\ s = EmptyString /\
    out' = pre ++ [MsgError x; MsgTroubleshooting].
Proof.
  unfold download_video.
  destruct (attempt e url output_path use_cookies browser out)
    as [[output_file|x] o] eqn:Hrun.
  - intros H. injection H as <- <-. left. reflexivity.
  - destruct (is_exception x) eqn:Hx; [|discriminate].
    intros H. injection H as <- <-. right. exists x, o. auto.
Qed.

(** An attempt that returns ran a session that returned, and left the
    [with] block without an exception. *)
Lemma attempt_session e url output_path use_cookies browser out s out' :
  attempt e url output_path use_cookies browser out = (Ok s, out') ->
  ydl_exit e = Ok tt /\
  exists dir o, session e url dir o = (Ok s, out').
Proof.
  unfold attempt. intros H. unbind H.
  match goal with
  | H : with_exit _ (session e url ?dir) ?o = _ |- _ =>
      assert (Hexit : ydl_exit e = Ok tt);
      [ unfold with_exit in H; destruct (session e url dir o) as [r o1];
        destruct (ydl_exit e) as [[]|]; [reflexivity|discriminate]
      | apply with_exit_Ok_inv in H; eauto ]
  end.
Qed.

(** X11: the string [download_video] returns tells the caller what
    happened.  It is empty exactly when the body of the [try] raised an
    exception that [except Exception] catches, and what is printed then
    ends with the error and the troubleshooting steps.  Otherwise it is
    the string the body returned: it ends in [.mp4], [ydl.download] has
    returned, the [with] block was left without an exception, and the
    last two lines printed are the success line and the path returned. *)
Theorem result_tells_outcome e url output_path use_cookies browser out s out' :
  download_video e url output_path use_cookies browser out = (Ok s, out') ->
  (s = EmptyString /\
   exists x pre,
     attempt e url output_path use_cookies browser out = (Raise x, pre) /\
     is_exception x = true /\
     out' = pre ++ [MsgError x; MsgTroubleshooting]) \/
  (s <> EmptyString /\
   attempt e url output_path use_cookies browser out = (Ok s, out') /\
   ends_with s ".mp4" /\
   ydl_download e url = Ok tt /\ ydl_exit e = Ok tt /\
   exists pre, out' = pre ++ [MsgCompleted; MsgSavedTo s]).
Proof.
  intros H. apply download_video_Ok_inv in H.
  destruct H as [Hrun | (x & pre & Hraise & Hx & -> & ->)].
  - right.
    pose proof (attempt_returns _ _ _ _ _ _ _ _ Hrun) as (dir & i & _ & _ & Hfile).
    assert (Hends : ends_with s ".mp4").
    { rewrite Hfile. eapply ends_with_app. apply path_join_ends. }
    split; [eapply ends_with_nonempty; exact Hends|].
    split; [exact Hrun|].
    split; [exact Hends|].
    apply attempt_session in Hrun. destruct Hrun as (Hexit & dir' & o & Hs).
    apply session_success in Hs. tauto.
  - left. split; [reflexivity|]. exists x, pre. auto.
Qed.

Lemma result_tells_outcome_sample :
  exists s out',
    download_video online "https://youtu.be/x" None true None [] = (Ok s, out') /\
    ((s = EmptyString /\
      exists x pre,
        attempt online "https://youtu.be/x" None true None [] = (Raise x, pre) /\
        is_exception x = true /\
        out' = pre ++ [MsgError x; MsgTroubleshooting]) \/
     (s <> EmptyString /\
      attempt online "https://youtu.be/x" None true None [] = (Ok s, out') /\
      ends_with s ".mp4" /\
      ydl_download online "https://youtu.be/x" = Ok tt /\
      ydl_exit online = Ok tt /\
      exists pre, out' = pre ++ [MsgCompleted; MsgSavedTo s])).
Proof.
  eexists _, _. split; [vm_compute; reflexivity|].
  apply (result_tells_outcome online "https://youtu.be/x" None true None []).
  vm_compute. reflexivity.
Defined.

Lemma bindM_ext {S A B} (m : M S A) (k k' : A -> M S B) s :
  (forall a s1, k a s1 = k' a s1) -> bindM m k s = bindM m k' s.
Proof.
  intros H. unfold bindM. destruct (m s) as [[a|e] s1]; [apply H|reflexivity].
Qed.

(** Without a duration the session stops before the download. *)
Lemma session_no_duration e url dir out i :
  extract_info e url = Ok (Some i) -> get (duration i) None = None ->
  exists x out',
    forall d, session (with_download e d) url dir out = (Raise x, out').
Proof.
  intros Hi Hd. unfold session, with_download. cbn [extract_info ydl_download].
  unfold bindM at 1. unfold lift at 1. rewrite Hi.
  unfold bindM at 1. unfold lift at 1. cbv zeta. rewrite Hd.
  unfold bindM, lift, print, ret.
  destruct (get (formats i) (Some [])) as [fs|]; [|eauto].
  destruct (best_format fs) as [b|x]; eauto.
Qed.

Lemma with_download_same e : with_download e (ydl_download e) = e.
Proof. destruct e. reflexivity. Qed.

(** Two systems that differ in [ydl.download] only, and whose sessions
    agree, make the same attempt. *)
Lemma attempt_with_download e d url output_path use_cookies browser out :
  (forall dir o, session (with_download e d) url dir o = session e url dir o) ->
  attempt (with_download e d) url output_path use_cookies browser out =
  attempt e url output_path use_cookies browser out.
Proof.
  intros Hs. unfold attempt, get_browser_cookie_path.
  cbn [with_download getcwd makedirs platform_system ydl_enter ydl_exit].
  repeat (apply bindM_ext; intros).
  unfold with_exit. change (ydl_exit (with_download e d)) with (ydl_exit e).
  rewrite Hs. reflexivity.
Qed.

(** X12: when yt-dlp reports no duration (the key is absent or [None], as
    for a live stream), line 91 raises before line 99 is reached:
    [ydl.download] plays no part in the run, and no path is returned. *)
Theorem no_duration_no_download e url output_path use_cookies browser out i :
  extract_info e url = Ok (Some i) -> get (duration i) None = None ->
  (forall d,
     download_video (with_download e d) url output_path use_cookies browser out =
     download_video e url output_path use_cookies browser out) /\
  (forall s out',
     download_video e url output_path use_cookies browser out = (Ok s, out') ->
     s = EmptyString).
Proof.
  intros Hi Hd.
  assert (Hraise : forall dir o, exists x o', session e url dir o = (Raise x, o') /\
             forall d, session (with_download e d) url dir o = (Raise x, o')).
  { intros dir o.
    destruct (session_no_duration e url dir o i Hi Hd) as (x & o' & H).
    exists x, o'. split; [|exact H].
    rewrite <- (with_download_same e) at 1. apply H. }
  split.
  - intros d. unfold download_video.
    rewrite attempt_with_download; [reflexivity|].
    intros dir o. destruct (Hraise dir o) as (x & o' & H1 & H2).
    rewrite H1, H2. reflexivity.
  - intros s out' H. apply download_video_Ok_inv in H.
    destruct H as [Hrun | (x & pre & _ & _ & -> & _)]; [|reflexivity].
    apply attempt_session in Hrun. destruct Hrun as (_ & dir & o & Hs).
    destruct (Hraise dir o) as (x & o' & H1 & _). congruence.
Qed.

Lemma no_duration_no_download_sample :
  (extract_info live "https://youtu.be/x" = Ok (Some live_info) /\
   get (duration live_info) None = None) /\
  (forall d,
     download_video (with_download live d) "https://youtu.be/x" None true None [] =
     download_video live "https://youtu.be/x" None true None []) /\
  (forall s out',
     download_video live "https://youtu.be/x" None true None [] = (Ok s, out') ->
     s = EmptyString).
Proof.
  split; [split; reflexivity|].
  apply (no_duration_no_download live "https://youtu.be/x" None true None []
           live_info); reflexivity.
Defined.


Lemma bindM_ext_on {S A B} (m : M S A) (k k' : A -> M S B) s :
  (forall a s1, m s = (Ok a, s1) -> k a s1 = k' a s1) ->
  bindM m k s = bindM m k' s.
Proof.
  intros H. unfold bindM. destruct (m s) as [[a|e] s1]; [apply H|]; reflexivity.
Qed.

(** The options [YoutubeDL] is constructed with. *)
Lemma attempt_with_enter e enter url output_path use_cookies browser out :
  (forall o,
     cookiesfrombrowser o =
       chosen_browser (platform_system e) use_cookies browser ->
     merge_output_format o = "mp4"%string ->
     ends_with (outtmpl o) "%(title)s.%(ext)s" ->
     enter o = ydl_enter e o) ->
  attempt (with_enter e enter) url output_path use_cookies browser out =
  attempt e url output_path use_cookies browser out.
Proof.
  intros He. unfold attempt, get_browser_cookie_path.
  cbn [with_enter getcwd makedirs platform_system ydl_enter ydl_exit].
  apply bindM_ext; intros dir o1.
  apply bindM_ext; intros [] o2.
  apply bindM_ext_on; intros cookies o3 Hc.
  assert (Hcookies : cookies = chosen_browser (platform_system e) use_cookies browser).
  { unfold chosen_browser. destruct use_cookies.
    - unfold bindM, print, ret in Hc. injection Hc as <- _.
      destruct browser as [[|c b]|]; cbn [falsy value_or String.eqb];
        try reflexivity.
      all: destruct (String.eqb (platform_system e) "Windows") eqn:W;
        [|reflexivity].
      all: apply String.eqb_eq in W; rewrite W; reflexivity.
    - unfold ret in Hc. injection Hc as <- _. reflexivity. }
  apply bindM_ext; intros [] o4.
  unfold bindM, lift.
  rewrite He; [reflexivity | exact Hcookies | reflexivity | apply path_join_ends].
Qed.

(** X13: the only options [download_video] constructs [YoutubeDL] with
    merge into [mp4], name the file by title and extension, and take the
    cookies from the chosen browser: none when [use_cookies] is false,
    the browser named when one is, and otherwise Safari on macOS and
    Chrome on every other system.  What yt-dlp would do with any other
    options has no effect on the run. *)
Theorem cookies_as_asked e enter url output_path use_cookies browser out :
  (forall o,
     cookiesfrombrowser o =
       chosen_browser (platform_system e) use_cookies browser ->
     merge_output_format o = "mp4"%string ->
     ends_with (outtmpl o) "%(title)s.%(ext)s" ->
     enter o = ydl_enter e o) ->
  download_video (with_enter e enter) url output_path use_cookies browser out =
  download_video e url output_path use_cookies browser out.
Proof.
  intros He. unfold download_video. rewrite attempt_with_enter by exact He.
  reflexivity.
Qed.

Lemma cookies_as_asked_sample :
  (forall o,
     cookiesfrombrowser o =
       chosen_browser (platform_system online) true None ->
     merge_output_format o = "mp4"%string ->
     ends_with (outtmpl o) "%(title)s.%(ext)s" ->
     chrome_only o = ydl_enter online o) /\
  download_video (with_enter online chrome_only) "https://youtu.be/x" None true
    None [] =
  download_video online "https://youtu.be/x" None true None [].
Proof.
  assert (H : forall o,
            cookiesfrombrowser o =
              chosen_browser (platform_system online) true None ->
            merge_output_format o = "mp4"%string ->
            ends_with (outtmpl o) "%(title)s.%(ext)s" ->
            chrome_only o = ydl_enter online o).
  { intros o Hc _ _. unfold chrome_only. rewrite Hc. reflexivity. }
  split; [exact H|].
  apply (cookies_as_asked online chrome_only "https://youtu.be/x" None true None []).
  exact H.
Defined.







(** The three outcomes, each on a system of its own: everything works;
    the video has no duration; the user interrupts the transfer. *)
Example online_works :
  everything_works online "https://youtu.be/x" None true None
    "/home/user" sample_info.
Proof.
  unfold everything_works. cbn [online getcwd makedirs ydl_enter extract_info
                                 ydl_download ydl_exit falsy].
  split; [left; split; reflexivity|].
  repeat (split; [reflexivity|]).
  split; [exists 125; reflexivity|].
  split; [|split; reflexivity].
  eexists. split; [reflexivity|].
  repeat constructor; cbn; try discriminate; lia.
Qed.

Example download_video_three_outcomes :
  fst (download_video online "https://youtu.be/x" None true None []) =
    Ok "/home/user/clip.mp4"%string /\
  fst (download_video live "https://youtu.be/x" None true None []) =
    Ok EmptyString /\
  fst (download_video interrupted "https://youtu.be/x" None true None []) =
    Raise KeyboardInterrupt.
Proof. vm_compute. repeat split; reflexivity. Qed.

(** ** [main] *)

Import Main MainSpec.

Lemma download_video_raises e url output_path use_cookies browser out x out' :
  download_video e url output_path use_cookies browser out = (Raise x, out') ->
  is_exception x = false.
Proof.
  unfold download_video.
  destruct (attempt e url output_path use_cookies browser out) as [[s|y] o].
  - discriminate.
  - destruct (is_exception y) eqn:Hy; [discriminate|].
    intros H. injection H as <- _. exact Hy.
Qed.

Lemma browser_of_menu n : In (browser_of n) menu_browsers.
Proof.
  unfold browser_of, menu_browsers.
  repeat match goal with |- context [if ?b then _ else _] => destruct b end;
    cbn; auto 10.
Qed.

Ltac turn_done :=
  let H := fresh in
  intros H; injection H as <- <-;
  constructor; cbn [stdin shown calls List.length];
  [ lia
  | try discriminate; intros _; lia
  | rewrite <- ?app_assoc; eexists; reflexivity
  | try discriminate; intros _; eexists; reflexivity
  | try (left; reflexivity)
  | try discriminate; intros _; reflexivity
  | try discriminate ].

(** The turn from the question about the directory on. *)
Lemma after_choice_effect envs url use_cookies browser c r c' :
  (exists line, url = strip line) ->
  url <> EmptyString -> lower url <> "q"%string ->
  (use_cookies = false -> browser = None) ->
  (forall b, browser = Some b -> In b menu_browsers) ->
  (line <-- input AskOutput ;;
   _ <-- run_download envs url
           (if String.eqb (strip line) EmptyString then None
            else Some (strip line)) use_cookies browser ;;
   line0 <-- input AskAnother ;;
   (if String.eqb (lower (strip line0)) "y" then pure Continue
    else _ <-- say Goodbye ;; pure Break)) c = (r, c') ->
  turn_effect c r c'.
Proof.
  intros Hurl Hne Hnq Hcookies Hbrowser.
  destruct c as [sin sh cl].
  unfold bindR at 1. unfold input at 1. cbn [stdin shown calls].
  destruct sin as [|l3 sin]; [turn_done|].
  assert (Hcall : interactive_call
            {| call_url := url;
               call_output_path :=
                 if String.eqb (strip l3) EmptyString then None
                 else Some (strip l3);
               call_use_cookies := use_cookies; call_browser := browser |}).
  { unfold interactive_call.
    cbn [call_url call_output_path call_use_cookies call_browser].
    repeat split; auto.
    destruct (String.eqb (strip l3) EmptyString) eqn:Ho; [discriminate|].
    intros H. injection H as H. apply String.eqb_neq in Ho. contradiction. }
  unfold bindR at 1. unfold run_download at 1. cbn [stdin shown calls].
  destruct (download_video (envs (List.length cl)) url
              (if String.eqb (strip l3) EmptyString then None else Some (strip l3))
              use_cookies browser []) as [[s|x] out] eqn:Hdl.
  - unfold bindR at 1. unfold input at 1. cbn [stdin shown calls].
    destruct sin as [|l4 sin].
    { turn_done. right. eexists. split; [reflexivity|exact Hcall]. }
    destruct (String.eqb (lower (strip l4)) "y");
      unfold bindR, say, pure; cbn [stdin shown calls];
      turn_done; right; eexists; (split; [reflexivity|exact Hcall]).
  - turn_done.
    + right. eexists. split; [reflexivity|exact Hcall].
    + intros e He. injection He as <-. eapply download_video_raises. exact Hdl.
Qed.

Lemma turn_effect_after c c1 r c' :
  calls c1 = calls c ->
  (List.length (stdin c1) < List.length (stdin c))%nat ->
  (exists more, shown c1 = shown c ++ more) ->
  turn_effect c1 r c' -> turn_effect c r c'.
Proof.
  intros Hcalls Hin (more & Hshown) [T1 T2 T3 T4 T5 T6 T7].
  constructor; auto.
  - lia.
  - intros _. lia.
  - destruct T3 as (more' & ->). rewrite Hshown, <- app_assoc. eauto.
  - rewrite <- Hcalls. exact T5.
Qed.

Lemma turn_effect_intro envs c r c' :
  turn envs c = (r, c') -> turn_effect c r c'.
Proof.
  destruct c as [sin sh cl]. unfold turn.
  unfold bindR at 1. unfold input at 1. cbn [stdin shown calls].
  destruct sin as [|l1 sin]; [turn_done|].
  destruct (String.eqb (lower (strip l1)) "q") eqn:Hq.
  { unfold bindR, say, pure. cbn [stdin shown calls]. turn_done. }
  destruct (String.eqb (strip l1) EmptyString) eqn:Hu.
  { unfold bindR, say, pure. cbn [stdin shown calls]. turn_done. }
  apply String.eqb_neq in Hq, Hu.
  unfold bindR at 1. unfold input at 1. cbn [stdin shown calls].
  destruct sin as [|l2 sin]; [turn_done|].
  unfold bindR at 1.
  destruct (String.eqb (lower (strip l2)) "y").
  - unfold bindR at 1. unfold say at 1. cbn [stdin shown calls].
    unfold bindR at 1. unfold input at 1. cbn [stdin shown calls].
    destruct sin as [|l3 sin]; [turn_done|].
    destruct (String.eqb (strip l3) "6"); unfold pure at 1; cbn [fst snd];
      intros H; apply after_choice_effect in H; eauto; try discriminate.
    + eapply turn_effect_after; [ | | | exact H]; cbn [stdin shown calls List.length];
        [reflexivity | lia | rewrite <- !app_assoc; eauto].
    + eapply turn_effect_after; [ | | | exact H]; cbn [stdin shown calls List.length];
        [reflexivity | lia | rewrite <- !app_assoc; eauto].
    + intros b Hb. injection Hb as <-. apply browser_of_menu.
  - unfold pure at 1. cbn [fst snd].
    intros H; apply after_choice_effect in H; eauto; try discriminate.
    eapply turn_effect_after; [ | | | exact H]; cbn [stdin shown calls List.length];
      [reflexivity | lia | rewrite <- !app_assoc; eauto].
Qed.

(** What the interactive loop does to the terminal, with fuel for one
    turn per line of input and one more. *)
Lemma interactive_effect envs fuel :
  forall c, (List.length (stdin c) < fuel)%nat ->
  exists r c',
    interactive envs fuel c = Some (r, c') /\
    (exists more, calls c' = calls c ++ more /\ Forall interactive_call more) /\
    (r = inl tt -> exists pre, shown c' = pre ++ [Goodbye]) /\
    (r = inr EOFError -> stdin c' = []) /\
    (forall e, r = inr (Propagated e) -> is_exception e = false).
Proof.
  induction fuel as [|fuel IH]; intros c Hfuel; [lia|].
  cbn [interactive].
  destruct (turn envs c) as [r1 c1] eqn:Hturn.
  apply turn_effect_intro in Hturn. destruct Hturn as [T1 T2 T3 T4 T5 T6 T7].
  assert (Hcalls : exists more, calls c1 = calls c ++ more /\
                                Forall interactive_call more).
  { destruct T5 as [-> | (k & -> & Hk)].
    - exists []. rewrite app_nil_r. split; [reflexivity|constructor].
    - exists [k]. split; [reflexivity|]. constructor; [exact Hk|constructor]. }
  destruct r1 as [[|]|x].
  - specialize (T2 eq_refl).
    destruct (IH c1 ltac:(lia)) as (r & c' & Hrun & (more' & Hc' & Hm') & I2 & I3 & I4).
    exists r, c'. split; [exact Hrun|]. split; [|auto].
    destruct Hcalls as (more & Hc1 & Hm).
    exists (more ++ more'). rewrite Hc', Hc1, app_assoc. split; [reflexivity|].
    apply Forall_app. auto.
  - exists (inl tt), c1. split; [reflexivity|]. split; [exact Hcalls|].
    split; [intros _; apply T4; reflexivity|]. split; [discriminate|discriminate].
  - exists (inr x), c1. split; [reflexivity|]. split; [exact Hcalls|].
    split; [discriminate|]. split.
    + intros H. injection H as ->. apply T6. reflexivity.
    + intros e H. injection H as ->. apply T7. reflexivity.
Qed.

(** X14: [main] always ends once the typed lines are used up, and in one
    of three ways.  It returns, in interactive mode after printing
    [Goodbye!] last; or [input] raises [EOFError], in interactive mode
    only and with every typed line read; or [download_video] let
    through an exception that [except Exception] does not catch. *)
Theorem main_outcomes envs a typed :
  exists r c,
    main envs a typed = Some (r, c) /\
    match r with
    | inl _ =>
        falsy (arg_url a) = true -> exists pre, shown c = pre ++ [Goodbye]
    | inr EOFError => falsy (arg_url a) = true /\ stdin c = []
    | inr (Propagated e) => is_exception e = false
    end.
Proof.
  unfold main. destruct (falsy (arg_url a)) eqn:Hurl; cbn [negb].
  - destruct (interactive_effect envs (S (List.length typed))
                {| stdin := typed; shown := [Banner]; calls := [] |})
      as (r & c & Hrun & _ & I2 & I3 & I4); [cbn; lia|].
    exists r, c. split; [exact Hrun|].
    destruct r as [[]|[|e]]; auto.
  - unfold run_download. cbn [stdin shown calls List.length].
    destruct (download_video (envs 0%nat) (value_or (arg_url a) EmptyString)
                (arg_output a) (negb (arg_no_cookies a)) (arg_browser a) [])
      as [[s|x] out] eqn:Hdl.
    + eexists _, _. split; [reflexivity|]. discriminate.
    + eexists _, _. split; [reflexivity|]. cbn.
      eapply download_video_raises. exact Hdl.
Qed.

(** X15: in interactive mode every call of [download_video] has a URL
    that is a stripped line, not empty and not [q] in any case; a
    directory that is [None] or not empty; no browser when cookies are
    off; and a browser, when one is named, from the menu. *)
Theorem interactive_calls_wellformed envs a typed r c :
  falsy (arg_url a) = true ->
  main envs a typed = Some (r, c) ->
  Forall interactive_call (calls c).
Proof.
  intros Hurl. unfold main. rewrite Hurl. cbn [negb].
  destruct (interactive_effect envs (S (List.length typed))
              {| stdin := typed; shown := [Banner]; calls := [] |})
    as (r' & c' & Hrun & (more & Hcalls & Hmore) & _); [cbn; lia|].
  rewrite Hrun. intros H. injection H as <- <-.
  rewrite Hcalls. exact Hmore.
Qed.

Lemma interactive_calls_wellformed_sample :
  exists r c,
    falsy (arg_url no_arguments) = true /\
    main (fun _ => online) no_arguments
      ["https://youtu.be/x"; "y"; "2"; "/tmp"; "n"]%string = Some (r, c) /\
    Forall interactive_call (calls c).
Proof.
  eexists _, _. split; [reflexivity|]. split; [vm_compute; reflexivity|].
  apply (interactive_calls_wellformed (fun _ => online) no_arguments
           ["https://youtu.be/x"; "y"; "2"; "/tmp"; "n"]%string (inl tt));
    [reflexivity | vm_compute; reflexivity].
Defined.


(** X16: with a URL on the command line [main] calls [download_video]
    once, with the URL, the directory and the browser of the arguments
    and with cookies unless [--no-cookies] is given; it prompts for
    nothing, reads no line, and ends as that call ends. *)
Theorem cli_single_call envs a typed url :
  arg_url a = Some url -> url <> EmptyString ->
  let run := download_video (envs 0%nat) url (arg_output a)
               (negb (arg_no_cookies a)) (arg_browser a) [] in
  main envs a typed =
  Some (match fst run with
        | Ok _ => inl tt
        | Raise e => inr (Propagated e)
        end,
        {| stdin := typed;
           shown := Banner :: map Downloader (snd run);
           calls := [ {| call_url := url; call_output_path := arg_output a;
                         call_use_cookies := negb (arg_no_cookies a);
                         call_browser := arg_browser a |} ] |}).
Proof.
  intros Hurl Hne. cbv zeta. unfold main. rewrite Hurl.
  cbn [falsy value_or].
  apply String.eqb_neq in Hne. rewrite Hne. cbn [negb].
  unfold run_download. cbn [stdin shown calls List.length app].
  destruct (download_video (envs 0%nat) url (arg_output a)
              (negb (arg_no_cookies a)) (arg_browser a) []) as [[s|x] out];
    reflexivity.
Qed.

Lemma cli_single_call_sample :
  let run := download_video online "https://youtu.be/x" (arg_output url_arguments)
               (negb (arg_no_cookies url_arguments)) (arg_browser url_arguments) [] in
  (arg_url url_arguments = Some "https://youtu.be/x"%string /\
   "https://youtu.be/x"%string <> EmptyString) /\
  main (fun _ => online) url_arguments ["typed"]%string =
  Some (match fst run with
        | Ok _ => inl tt
        | Raise e => inr (Propagated e)
        end,
        {| stdin := ["typed"]%string;
           shown := Banner :: map Downloader (snd run);
           calls := [ {| call_url := "https://youtu.be/x";
                         call_output_path := arg_output url_arguments;
                         call_use_cookies := negb (arg_no_cookies url_arguments);
                         call_browser := arg_browser url_arguments |} ] |}).
Proof.
  cbv zeta. split; [split; [reflexivity|discriminate]|].
  apply (cli_single_call (fun _ => online) url_arguments ["typed"]%string
           "https://youtu.be/x"); [reflexivity|discriminate].
Defined.


Lemma interactive_blanks envs q rest cl :
  lower (strip q) = "q"%string ->
  forall blanks sh fuel,
  Forall (fun l => strip l = EmptyString) blanks ->
  (List.length blanks < fuel)%nat ->
  interactive envs fuel
    {| stdin := blanks ++ q :: rest; shown := sh; calls := cl |} =
  Some (inl tt,
        {| stdin := rest;
           shown := sh ++ flat_map (fun _ => [Ask AskUrl; InvalidUrl]) blanks
                       ++ [Ask AskUrl; Goodbye];
           calls := cl |}).
Proof.
  intros Hq. induction blanks as [|b blanks IH]; intros sh fuel Hb Hfuel.
  - destruct fuel as [|fuel]; [cbn in Hfuel; lia|].
    cbn [interactive app]. unfold turn.
    unfold bindR at 1. unfold input at 1. cbn [stdin shown calls].
    rewrite Hq. cbn [String.eqb Ascii.eqb Bool.eqb andb].
    unfold bindR, say, pure. cbn [stdin shown calls flat_map app].
    rewrite <- app_assoc. reflexivity.
  - destruct fuel as [|fuel]; [cbn in Hfuel; lia|].
    inversion Hb as [|? ? Hb0 Hb']; subst.
    cbn [interactive app]. unfold turn.
    unfold bindR at 1. unfold input at 1. cbn [stdin shown calls].
    rewrite Hb0. cbn [lower String.eqb].
    unfold bindR, say, pure. cbn [stdin shown calls].
    rewrite IH by (try assumption; cbn in Hfuel; lia).
    cbn [flat_map app]. rewrite <- !app_assoc. reflexivity.
Qed.

(** X17: in interactive mode, blank lines are answered with the request
    for a valid URL and the prompt again, and a line that strips to [q]
    or [Q] ends [main] with [Goodbye!]: no call of [download_video] is
    made and the lines after it are left unread. *)
Theorem quit_without_download envs a blanks q rest :
  falsy (arg_url a) = true ->
  Forall (fun l => strip l = EmptyString) blanks ->
  lower (strip q) = "q"%string ->
  main envs a (blanks ++ q :: rest) =
  Some (inl tt,
        {| stdin := rest;
           shown := Banner :: flat_map (fun _ => [Ask AskUrl; InvalidUrl]) blanks
                           ++ [Ask AskUrl; Goodbye];
           calls := [] |}).
Proof.
  intros Hurl Hb Hq. unfold main. rewrite Hurl. cbn [negb].
  rewrite (interactive_blanks envs q rest [] Hq blanks [Banner]); auto.
  rewrite length_app. cbn. lia.
Qed.

Lemma quit_without_download_sample :
  (falsy (arg_url no_arguments) = true /\
   Forall (fun l => strip l = EmptyString) [" "; EmptyString]%string /\
   lower (strip " Q ") = "q"%string) /\
  main (fun _ => online) no_arguments
    ([" "%string; EmptyString] ++ " Q "%string :: ["left"%string]) =
  Some (inl tt,
        {| stdin := ["left"]%string;
           shown := Banner :: flat_map (fun _ => [Ask AskUrl; InvalidUrl])
                                [" "; EmptyString]%string
                           ++ [Ask AskUrl; Goodbye];
           calls := [] |}).
Proof.
  assert (Hb : Forall (fun l => strip l = EmptyString) [" "; EmptyString]%string).
  { repeat constructor. }
  split; [repeat split; try reflexivity; exact Hb|].
  apply (quit_without_download (fun _ => online) no_arguments
           [" "; EmptyString]%string " Q " ["left"]%string);
    [reflexivity | exact Hb | reflexivity].
Defined.


Lemma interactive_after_turn envs fuel c r1 c1 :
  turn envs c = (r1, c1) ->
  (List.length (stdin c) < fuel)%nat ->
  exists r c' more,
    interactive envs fuel c = Some (r, c') /\ calls c' = calls c1 ++ more.
Proof.
  intros Hturn Hfuel. destruct fuel as [|fuel]; [lia|].
  cbn [interactive]. rewrite Hturn.
  apply turn_effect_intro in Hturn. destruct Hturn as [T1 T2 _ _ _ _ _].
  destruct r1 as [[|]|x].
  - specialize (T2 eq_refl).
    destruct (interactive_effect envs fuel c1 ltac:(lia))
      as (r & c' & Hrun & (more & Hc' & _) & _).
    exists r, c', more. auto.
  - exists (inl tt), c1, []. rewrite app_nil_r. auto.
  - exists (inr x), c1, []. rewrite app_nil_r. auto.
Qed.

(** The call a turn makes once the directory is typed. *)
Lemma after_choice_call envs url use_cookies browser dir rest sh cl :
  exists r c1,
  (line <-- input AskOutput ;;
   _ <-- run_download envs url
           (if String.eqb (strip line) EmptyString then None
            else Some (strip line)) use_cookies browser ;;
   line0 <-- input AskAnother ;;
   (if String.eqb (lower (strip line0)) "y" then pure Continue
    else _ <-- say Goodbye ;; pure Break))
    {| stdin := dir :: rest; shown := sh; calls := cl |} = (r, c1) /\
  calls c1 =
    cl ++ [ {| call_url := url;
               call_output_path :=
                 if String.eqb (strip dir) EmptyString then None
                 else Some (strip dir);
               call_use_cookies := use_cookies; call_browser := browser |} ].
Proof.
  unfold bindR at 1. unfold input at 1. cbn [stdin shown calls].
  unfold bindR at 1. unfold run_download at 1. cbn [stdin shown calls].
  destruct (download_video (envs (List.length cl)) url
              (if String.eqb (strip dir) EmptyString then None else Some (strip dir))
              use_cookies browser []) as [[s|x] out].
  - unfold bindR at 1. unfold input at 1. cbn [stdin shown calls].
    destruct rest as [|l4 rest]; [eexists _, _; split; reflexivity|].
    destruct (String.eqb (lower (strip l4)) "y");
      unfold bindR, say, pure; cbn [stdin shown calls];
      eexists _, _; split; reflexivity.
  - eexists _, _; split; reflexivity.
Qed.

(** X18: in interactive mode, any answer but [y] to the question about a
    private video still makes the call with cookies on and no browser
    named (so with the browser of the platform): the first call has the
    stripped URL, the stripped directory or [None] when it is empty,
    [use_cookies = True] and [browser = None]. *)
Theorem cookies_unless_asked envs a url auth dir rest :
  falsy (arg_url a) = true ->
  strip url <> EmptyString -> lower (strip url) <> "q"%string ->
  lower (strip auth) <> "y"%string ->
  exists r c more,
    main envs a (url :: auth :: dir :: rest) = Some (r, c) /\
    calls c =
      {| call_url := strip url;
         call_output_path :=
           if String.eqb (strip dir) EmptyString then None
           else Some (strip dir);
         call_use_cookies := true; call_browser := None |} :: more.
Proof.
  intros Hurl Hne Hnq Hauth. unfold main. rewrite Hurl. cbn [negb].
  apply String.eqb_neq in Hne, Hnq, Hauth.
  destruct (after_choice_call envs (strip url) true None dir rest
              (([Banner] ++ [Ask AskUrl]) ++ [Ask AskPrivate]) [])
    as (r1 & c1 & Htail & Hcall).
  assert (Hturn : turn envs {| stdin := url :: auth :: dir :: rest;
                               shown := [Banner]; calls := [] |} = (r1, c1)).
  { unfold turn.
    unfold bindR at 1. unfold input at 1. cbn [stdin shown calls].
    rewrite Hnq, Hne.
    unfold bindR at 1. unfold input at 1. cbn [stdin shown calls].
    rewrite Hauth. unfold bindR at 1. unfold pure at 1. cbn [fst snd].
    exact Htail. }
  destruct (interactive_after_turn envs
              (S (List.length (url :: auth :: dir :: rest))) _ _ _ Hturn)
    as (r & c & more & Hrun & Hcalls); [cbn; lia|].
  exists r, c, more. split; [exact Hrun|]. rewrite Hcalls, Hcall. reflexivity.
Qed.

Lemma cookies_unless_asked_sample :
  (falsy (arg_url no_arguments) = true /\
   strip " https://youtu.be/x " <> EmptyString /\
   lower (strip " https://youtu.be/x ") <> "q"%string /\
   lower (strip "n") <> "y"%string) /\
  exists r c more,
    main (fun _ => online) no_arguments
      (" https://youtu.be/x " :: "n" :: EmptyString :: ["n"])%string = Some (r, c) /\
    calls c =
      {| call_url := strip " https://youtu.be/x ";
         call_output_path :=
           if String.eqb (strip EmptyString) EmptyString then None
           else Some (strip EmptyString);
         call_use_cookies := true; call_browser := None |} :: more.
Proof.
  assert (H1 : strip " https://youtu.be/x " <> EmptyString) by (cbv; discriminate).
  assert (H2 : lower (strip " https://youtu.be/x ") <> "q"%string)
    by (cbv; discriminate).
  assert (H3 : lower (strip "n") <> "y"%string) by (cbv; discriminate).
  split; [repeat split; assumption|].
  apply (cookies_unless_asked (fun _ => online) no_arguments
           " https://youtu.be/x " "n" EmptyString ["n"]%string);
    [reflexivity | exact H1 | exact H2 | exact H3].
Defined.


(** X19: in interactive mode, after [y] (in any case) to the question
    about a private video, the answer to the menu decides the call:
    [6] turns cookies off and names no browser; [2], [3], [4] and [5]
    name Firefox, Safari, Edge and Opera; every other answer, [1]
    included, names Chrome; all but [6] leave cookies on. *)
Theorem browser_menu_choice envs a url auth choice dir rest :
  falsy (arg_url a) = true ->
  strip url <> EmptyString -> lower (strip url) <> "q"%string ->
  lower (strip auth) = "y"%string ->
  exists r c more,
    main envs a (url :: auth :: choice :: dir :: rest) = Some (r, c) /\
    calls c =
      {| call_url := strip url;
         call_output_path :=
           if String.eqb (strip dir) EmptyString then None
           else Some (strip dir);
         call_use_cookies := negb (String.eqb (strip choice) "6");
         call_browser :=
           if String.eqb (strip choice) "6" then None
           else if String.eqb (strip choice) "2" then Some "firefox"%string
           else if String.eqb (strip choice) "3" then Some "safari"%string
           else if String.eqb (strip choice) "4" then Some "edge"%string
           else if String.eqb (strip choice) "5" then Some "opera"%string
           else Some "chrome"%string |} :: more.
Proof.
  intros Hurl Hne Hnq Hauth. unfold main. rewrite Hurl. cbn [negb].
  apply String.eqb_neq in Hne, Hnq.
  destruct (after_choice_call envs (strip url)
              (negb (String.eqb (strip choice) "6"))
              (if String.eqb (strip choice) "6" then None
               else Some (browser_of (strip choice))) dir rest
              (((([Banner] ++ [Ask AskUrl]) ++ [Ask AskPrivate]) ++ [BrowserMenu])
               ++ [Ask AskBrowser]) [])
    as (r1 & c1 & Htail & Hcall).
  assert (Hturn : turn envs {| stdin := url :: auth :: choice :: dir :: rest;
                               shown := [Banner]; calls := [] |} = (r1, c1)).
  { unfold turn.
    unfold bindR at 1. unfold input at 1. cbn [stdin shown calls].
    rewrite Hnq, Hne.
    unfold bindR at 1. unfold input at 1. cbn [stdin shown calls].
    rewrite Hauth. cbn [String.eqb Ascii.eqb Bool.eqb andb].
    unfold bindR at 1.
    unfold bindR at 1. unfold say at 1. cbn [stdin shown calls].
    unfold bindR at 1. unfold input at 1. cbn [stdin shown calls].
    rewrite <- Htail.
    destruct (String.eqb (strip choice) "6"); reflexivity. }
  destruct (interactive_after_turn envs
              (S (List.length (url :: auth :: choice :: dir :: rest))) _ _ _ Hturn)
    as (r & c & more & Hrun & Hcalls); [cbn; lia|].
  exists r, c, more. split; [exact Hrun|]. rewrite Hcalls, Hcall.
  cbn [app]. f_equal. f_equal.
  destruct (String.eqb (strip choice) "6"); [reflexivity|].
  unfold browser_of.
  destruct (String.eqb_spec (strip choice) "1") as [E|E];
    [rewrite E; reflexivity|].
  repeat match goal with |- context [if ?b then _ else _] => destruct b end;
    reflexivity.
Qed.

Lemma browser_menu_choice_sample :
  (falsy (arg_url no_arguments) = true /\
   strip "https://youtu.be/x" <> EmptyString /\
   lower (strip "https://youtu.be/x") <> "q"%string /\
   lower (strip " Y") = "y"%string) /\
  exists r c more,
    main (fun _ => online) no_arguments
      ("https://youtu.be/x" :: " Y" :: "2" :: "/tmp" :: ["n"])%string = Some (r, c) /\
    calls c =
      {| call_url := strip "https://youtu.be/x";
         call_output_path :=
           if String.eqb (strip "/tmp") EmptyString then None
           else Some (strip "/tmp");
         call_use_cookies := negb (String.eqb (strip "2") "6");
         call_browser :=
           if String.eqb (strip "2") "6" then None
           else if String.eqb (strip "2") "2" then Some "firefox"%string
           else if String.eqb (strip "2") "3" then Some "safari"%string
           else if String.eqb (strip "2") "4" then Some "edge"%string
           else if String.eqb (strip "2") "5" then Some "opera"%string
           else Some "chrome"%string |} :: more.
Proof.
  assert (H1 : strip "https://youtu.be/x" <> EmptyString) by (cbv; discriminate).
  assert (H2 : lower (strip "https://youtu.be/x") <> "q"%string)
    by (cbv; discriminate).
  split; [repeat split; try assumption; reflexivity|].
  apply (browser_menu_choice (fun _ => online) no_arguments
           "https://youtu.be/x" " Y" "2" "/tmp" ["n"]%string);
    [reflexivity | exact H1 | exact H2 | reflexivity].
Defined.
